(** * NotebookLM MCP server: session acquisition, cookie store, cookie repair

    A shallow embedding of [src/auth.ts] (class [AuthManager]) and of
    [examples/fix-cookies.ts], together with the parts of the JavaScript
    runtime these two files call: strings ([split], [join], [indexOf],
    [substring], [includes]), the insertion-ordered [Map], [JSON.stringify]
    on the persisted record and [JSON.parse], [Date.prototype.toISOString],
    the synchronous file-system calls of [fs], and the rule by which
    Playwright's [context.cookies(url)] selects cookies.

    Strings are sequences of code units; a code unit is modelled by [ascii],
    so every string of the model is a JavaScript string whose code units are
    below 256. *)

From Stdlib Require Import String Ascii List ZArith Lia Bool DecimalString.
From stdpp Require Import gmap strings.
Import ListNotations.

Local Open Scope string_scope.
Local Open Scope nat_scope.

(** ** JavaScript strings *)

Module JsString.

(** The first [n] code units of a string, and what follows them. *)
Fixpoint take (n : nat) (s : string) : string :=
  match n, s with
  | S k, String c s' => String c (take k s')
  | _, _ => EmptyString
  end.

Fixpoint drop (n : nat) (s : string) : string :=
  match n, s with
  | S k, String _ s' => drop k s'
  | _, _ => s
  end.

(** An index argument is clamped to [0 .. length]. *)
Definition clamp (len : nat) (i : Z) : nat := Nat.min (Z.to_nat i) len.

(** [s.substring(a, b)]: both ends clamped, swapped when [a > b]. *)
Definition substring (s : string) (a b : Z) : string :=
  let len := String.length s in
  let lo := Nat.min (clamp len a) (clamp len b) in
  let hi := Nat.max (clamp len a) (clamp len b) in
  take (hi - lo) (drop lo s).

(** [s.substring(a)]: the end defaults to the length. *)
Definition substring_from (s : string) (a : Z) : string :=
  substring s a (Z.of_nat (String.length s)).

(** [s.indexOf(needle)]: position of the first occurrence, or [-1]. *)
Fixpoint indexOf_from (needle s : string) (i : Z) : Z :=
  if String.prefix needle s then i
  else match s with
       | EmptyString => (-1)%Z
       | String _ s' => indexOf_from needle s' (i + 1)
       end.

Definition indexOf (s needle : string) : Z := indexOf_from needle s 0.

(** [s.includes(needle)]. *)
Definition includes (s needle : string) : bool := (0 <=? indexOf s needle)%Z.

(** [parts.join(sep)]. *)
Fixpoint join (sep : string) (parts : list string) : string :=
  match parts with
  | [] => EmptyString
  | p :: rest =>
      match rest with
      | [] => p
      | _ :: _ => p ++ sep ++ join sep rest
      end
  end.

(** [s.split(sep)] for a non-empty separator: the pieces between the
    leftmost, non-overlapping occurrences of [sep].  [skip] counts the code
    units of a matched separator that are still to be dropped. *)
Definition cons_head (c : ascii) (pieces : list string) : list string :=
  match pieces with
  | [] => [String c EmptyString]
  | p :: ps => String c p :: ps
  end.

Fixpoint split_go (sep : string) (skip : nat) (s : string) : list string :=
  match s with
  | EmptyString => [EmptyString]
  | String c s' =>
      match skip with
      | S k => split_go sep k s'
      | O =>
          if String.prefix sep s
          then EmptyString :: split_go sep (String.length sep - 1) s'
          else cons_head c (split_go sep 0 s')
      end
  end.

(** With the empty separator [split] yields the code units one by one. *)
Fixpoint units (s : string) : list string :=
  match s with
  | EmptyString => []
  | String c s' => String c EmptyString :: units s'
  end.

Definition split (s sep : string) : list string :=
  match sep with
  | EmptyString => units s
  | String _ _ => split_go sep 0 s
  end.

(** [String(n)] for a non-negative integer, as a template literal prints it. *)
Definition of_nat (n : nat) : string := NilZero.string_of_uint (Nat.to_uint n).

End JsString.

(** ** The insertion-ordered [Map<string, V>]

    [Array.from(m.entries())] lists the entries in insertion order, and
    [m.set] on a key that is present replaces the value where the key already
    stands; the entries are therefore kept as an association list. *)

Module JsMap.

Definition t (V : Type) : Type := list (string * V).

Definition empty {V : Type} : t V := [].

Fixpoint has {V : Type} (m : t V) (k : string) : bool :=
  match m with
  | [] => false
  | (k', _) :: m' => if String.eqb k' k then true else has m' k
  end.

Fixpoint set {V : Type} (m : t V) (k : string) (v : V) : t V :=
  match m with
  | [] => [(k, v)]
  | (k', v') :: m' =>
      if String.eqb k' k then (k', v) :: m' else (k', v') :: set m' k v
  end.

Definition size {V : Type} (m : t V) : nat := List.length m.

Definition entries {V : Type} (m : t V) : list (string * V) := m.

Definition keys {V : Type} (m : t V) : list string := List.map fst m.

End JsMap.

(** ** [JSON.stringify] on records of strings, and [JSON.parse] *)

Module Json.

Definition dquote : ascii := Eval cbv in ascii_of_nat 34.
Definition backslash : ascii := Eval cbv in ascii_of_nat 92.
Definition newline : ascii := Eval cbv in ascii_of_nat 10.

Definition hex_digit (n : nat) : ascii :=
  ascii_of_nat (if (n <? 10)%nat then 48 + n else 87 + n)%nat.

(** The escape of one code unit inside a JSON string literal
    (QuoteJSONString): the two-character escapes, [\u00xx] for the other
    control characters, the unit itself otherwise. *)
Definition escape_unit (c : ascii) : string :=
  let n := nat_of_ascii c in
  if (n =? 8)%nat then "\b"
  else if (n =? 9)%nat then "\t"
  else if (n =? 10)%nat then "\n"
  else if (n =? 12)%nat then "\f"
  else if (n =? 13)%nat then "\r"
  else if (n =? 34)%nat then String backslash (String dquote EmptyString)
  else if (n =? 92)%nat then "\\"
  else if (n <? 32)%nat then
    "\u00" ++ String (hex_digit (n / 16)%nat) (String (hex_digit (n mod 16)%nat) EmptyString)
  else String c EmptyString.

Fixpoint escape (s : string) : string :=
  match s with
  | EmptyString => EmptyString
  | String c s' => escape_unit c ++ escape s'
  end.

Definition quote (s : string) : string :=
  String dquote (escape s ++ String dquote EmptyString).

(** [JSON.stringify(o, null, 2)] for an object whose own properties, in
    insertion order, are [fields], all with string values. *)
Definition stringify_member (kv : string * string) : string :=
  "  " ++ quote (fst kv) ++ ": " ++ quote (snd kv).

Definition members (fields : list (string * string)) : string :=
  JsString.join (String "," (String newline EmptyString))
    (List.map stringify_member fields).

Definition stringify (fields : list (string * string)) : string :=
  match fields with
  | [] => "{}"
  | _ :: _ => "{" ++ String newline (members fields ++ String newline "}")
  end.

(** Reading: white space, hexadecimal digits, string literals. *)
Definition is_ws (c : ascii) : bool :=
  let n := nat_of_ascii c in
  (n =? 32)%nat || (n =? 9)%nat || (n =? 10)%nat || (n =? 13)%nat.

Fixpoint skip_ws (s : string) : string :=
  match s with
  | String c s' => if is_ws c then skip_ws s' else s
  | EmptyString => EmptyString
  end.

Definition hex_value (c : ascii) : option nat :=
  let n := nat_of_ascii c in
  if (48 <=? n)%nat && (n <=? 57)%nat then Some (n - 48)%nat
  else if (97 <=? n)%nat && (n <=? 102)%nat then Some (n - 87)%nat
  else if (65 <=? n)%nat && (n <=? 70)%nat then Some (n - 55)%nat
  else None.

(** The code unit a two-character escape stands for. *)
Definition simple_escape (e : ascii) : option ascii :=
  let n := nat_of_ascii e in
  if (n =? 34)%nat then Some dquote
  else if (n =? 92)%nat then Some backslash
  else if (n =? 47)%nat then Some "/"%char
  else if (n =? 98)%nat then Some (ascii_of_nat 8)
  else if (n =? 102)%nat then Some (ascii_of_nat 12)
  else if (n =? 110)%nat then Some (ascii_of_nat 10)
  else if (n =? 114)%nat then Some (ascii_of_nat 13)
  else if (n =? 116)%nat then Some (ascii_of_nat 9)
  else None.

Definition prepend (c : ascii) (r : option (string * string)) : option (string * string) :=
  match r with
  | Some (s, rest) => Some (String c s, rest)
  | None => None
  end.

(** [parse_chars s] reads a string literal whose opening quote has been
    consumed: the decoded string and the text after the closing quote.  A
    [\uXXXX] escape of a code unit above 255 denotes a string that the
    strings of the model do not hold; such a literal is not read. *)
Fixpoint parse_chars (s : string) : option (string * string) :=
  match s with
  | EmptyString => None
  | String c s' =>
      if Ascii.eqb c dquote then Some (EmptyString, s')
      else if Ascii.eqb c backslash then
        match s' with
        | EmptyString => None
        | String e s'' =>
            if Ascii.eqb e "u"%char then
              match s'' with
              | String h1 (String h2 (String h3 (String h4 rest))) =>
                  match hex_value h1, hex_value h2, hex_value h3, hex_value h4 with
                  | Some 0, Some 0, Some a, Some b =>
                      prepend (ascii_of_nat (16 * a + b)%nat) (parse_chars rest)
                  | _, _, _, _ => None
                  end
              | _ => None
              end
            else
              match simple_escape e with
              | Some u => prepend u (parse_chars s'')
              | None => None
              end
        end
      else if (nat_of_ascii c <? 32)%nat then None
      else prepend c (parse_chars s')
  end.

#[local] Set Warnings "-register-all".

(** The values of JSON.  A number is kept as the text that denotes it, and
    the members of an object are listed in the order of the text, repeated
    names included. *)
Inductive value :=
| JNull
| JBool (b : bool)
| JNumber (lexeme : string)
| JString (s : string)
| JArray (items : list value)
| JObject (members : list (string * value)).

(** The object whose members are [fields], all with string values. *)
Definition record (fields : list (string * string)) : value :=
  JObject (List.map (fun kv => (fst kv, JString (snd kv))) fields).

Definition is_digit (c : ascii) : bool :=
  let n := nat_of_ascii c in (48 <=? n)%nat && (n <=? 57)%nat.

(** The digits a text starts with, and what follows them. *)
Fixpoint digits (s : string) : string * string :=
  match s with
  | String c s' =>
      if is_digit c
      then (String c (fst (digits s')), snd (digits s'))
      else (EmptyString, s)
  | EmptyString => (EmptyString, EmptyString)
  end.

(** The same, for at least one digit. *)
Definition digits1 (s : string) : option (string * string) :=
  match digits s with
  | (EmptyString, _) => None
  | (String d ds, rest) => Some (String d ds, rest)
  end.

(** The integer part of a number: a lone zero, or digits that do not start
    with a zero. *)
Definition parse_int (s : string) : option (string * string) :=
  match s with
  | String c s' =>
      if Ascii.eqb c "0" then Some ("0", s')
      else if is_digit c then Some (String c (fst (digits s')), snd (digits s'))
      else None
  | EmptyString => None
  end.

(** The fraction, when a point follows. *)
Definition parse_frac (s : string) : option (string * string) :=
  match s with
  | String c s' =>
      if Ascii.eqb c "." then
        match digits1 s' with
        | Some (ds, rest) => Some (String c ds, rest)
        | None => None
        end
      else Some (EmptyString, s)
  | EmptyString => Some (EmptyString, s)
  end.

(** The exponent, when [e] or [E] follows. *)
Definition parse_exp (s : string) : option (string * string) :=
  match s with
  | String e s' =>
      if Ascii.eqb e "e" || Ascii.eqb e "E" then
        match s' with
        | String sign s'' =>
            if Ascii.eqb sign "+" || Ascii.eqb sign "-" then
              match digits1 s'' with
              | Some (ds, rest) => Some (String e (String sign ds), rest)
              | None => None
              end
            else
              match digits1 s' with
              | Some (ds, rest) => Some (String e ds, rest)
              | None => None
              end
        | EmptyString => None
        end
      else Some (EmptyString, s)
  | EmptyString => Some (EmptyString, s)
  end.

Definition parse_unsigned (s : string) : option (string * string) :=
  match parse_int s with
  | Some (i, s1) =>
      match parse_frac s1 with
      | Some (f, s2) =>
          match parse_exp s2 with
          | Some (e, s3) => Some (i ++ f ++ e, s3)
          | None => None
          end
      | None => None
      end
  | None => None
  end.

(** A number at the start of a text: the text that denotes it, and what
    follows. *)
Definition parse_number (s : string) : option (string * string) :=
  match s with
  | String c s' =>
      if Ascii.eqb c "-" then
        match parse_unsigned s' with
        | Some (n, rest) => Some (String c n, rest)
        | None => None
        end
      else parse_unsigned s
  | EmptyString => None
  end.

(** One of the three names at the start of a text. *)
Definition parse_literal (s : string) : option (value * string) :=
  if String.prefix "null" s then Some (JNull, JsString.drop 4 s)
  else if String.prefix "true" s then Some (JBool true, JsString.drop 4 s)
  else if String.prefix "false" s then Some (JBool false, JsString.drop 5 s)
  else None.

(** A value at the start of a text, after white space; the members of an
    object after its opening brace; the elements of an array after its
    opening bracket.  Each gives what it read and the text that follows.
    [fuel] bounds the depth of the calls; twice the length of the text and
    one more is always enough, since every call but that of
    [parse_elements] for its first element is on a shorter text. *)
Fixpoint parse_value (fuel : nat) (s : string) {struct fuel}
  : option (value * string) :=
  match fuel with
  | O => None
  | S fuel' =>
      match skip_ws s with
      | EmptyString => None
      | String c s1 =>
          if Ascii.eqb c dquote then
            match parse_chars s1 with
            | Some (str, rest) => Some (JString str, rest)
            | None => None
            end
          else if Ascii.eqb c "{" then
            match skip_ws s1 with
            | String e s2 =>
                if Ascii.eqb e "}" then Some (JObject [], s2)
                else
                  match parse_members fuel' s1 with
                  | Some (members, rest) => Some (JObject members, rest)
                  | None => None
                  end
            | EmptyString => None
            end
          else if Ascii.eqb c "[" then
            match skip_ws s1 with
            | String e s2 =>
                if Ascii.eqb e "]" then Some (JArray [], s2)
                else
                  match parse_elements fuel' s1 with
                  | Some (items, rest) => Some (JArray items, rest)
                  | None => None
                  end
            | EmptyString => None
            end
          else if is_digit c || Ascii.eqb c "-" then
            match parse_number (String c s1) with
            | Some (lexeme, rest) => Some (JNumber lexeme, rest)
            | None => None
            end
          else parse_literal (String c s1)
      end
  end
with parse_members (fuel : nat) (s : string) {struct fuel}
  : option (list (string * value) * string) :=
  match fuel with
  | O => None
  | S fuel' =>
      match skip_ws s with
      | String q s1 =>
          if Ascii.eqb q dquote then
            match parse_chars s1 with
            | Some (key, s2) =>
                match skip_ws s2 with
                | String colon s3 =>
                    if Ascii.eqb colon ":" then
                      match parse_value fuel' s3 with
                      | Some (v, s4) =>
                          match skip_ws s4 with
                          | String d s5 =>
                              if Ascii.eqb d "}" then Some ([(key, v)], s5)
                              else if Ascii.eqb d "," then
                                match parse_members fuel' s5 with
                                | Some (more, s6) => Some ((key, v) :: more, s6)
                                | None => None
                                end
                              else None
                          | EmptyString => None
                          end
                      | None => None
                      end
                    else None
                | EmptyString => None
                end
            | None => None
            end
          else None
      | EmptyString => None
      end
  end
with parse_elements (fuel : nat) (s : string) {struct fuel}
  : option (list value * string) :=
  match fuel with
  | O => None
  | S fuel' =>
      match parse_value fuel' s with
      | Some (v, s1) =>
          match skip_ws s1 with
          | String d s2 =>
              if Ascii.eqb d "]" then Some ([v], s2)
              else if Ascii.eqb d "," then
                match parse_elements fuel' s2 with
                | Some (more, s3) => Some (v :: more, s3)
                | None => None
                end
              else None
          | EmptyString => None
          end
      | None => None
      end
  end.

(** [JSON.parse(text)]: one value, with white space around it and nothing
    else.  [None] is the [SyntaxError]; it is also what the model gives for
    a text with an escape of a code unit above 255, whose value the strings
    of the model do not hold. *)
Definition parse (text : string) : option value :=
  match parse_value (2 * String.length text + 1) text with
  | Some (v, rest) =>
      match skip_ws rest with
      | EmptyString => Some v
      | String _ _ => None
      end
  | None => None
  end.

(** The own property [k] of a parsed object: the last member named [k] is
    the one [JSON.parse] keeps; [None] is [undefined]. *)
Fixpoint property (members : list (string * value)) (k : string) : option value :=
  match members with
  | [] => None
  | (k', v) :: rest =>
      match property rest k with
      | Some v' => Some v'
      | None => if String.eqb k' k then Some v else None
      end
  end.

End Json.


(** ** [Date]: time values and [toISOString] *)

Module JsDate.

Local Open Scope Z_scope.

Definition msPerDay : Z := 86400000.

(** The largest time value a [Date] holds, in either direction. *)
Definition maxTime : Z := 8640000000000000.

(** Year, month (1 to 12) and day of the month of a day number counted from
    1970-01-01, in the proleptic Gregorian calendar.  Days are regrouped in
    eras of 400 years that start on 1 March. *)
Definition civil (day : Z) : Z * Z * Z :=
  let z := day + 719468 in
  let era := z / 146097 in
  let doe := z mod 146097 in
  let yoe := (doe - doe / 1460 + doe / 36524 - doe / 146096) / 365 in
  let doy := doe - (365 * yoe + yoe / 4 - yoe / 100) in
  let mp := (5 * doy + 2) / 153 in
  let d := doy - (153 * mp + 2) / 5 + 1 in
  let m := if mp <? 10 then mp + 3 else mp - 9 in
  let y := yoe + era * 400 + (if m <=? 2 then 1 else 0) in
  (y, m, d).

Definition digit (n : Z) : ascii := ascii_of_nat (48 + Z.to_nat (n mod 10)).

(** The last [width] decimal digits of [n], most significant first. *)
Fixpoint fixed_acc (width : nat) (n : Z) (acc : string) : string :=
  match width with
  | O => acc
  | S w => fixed_acc w (n / 10) (String (digit n) acc)
  end.

Definition fixed (width : nat) (n : Z) : string := fixed_acc width n EmptyString.

(** Years 0 to 9999 print with four digits, the others with a sign and six. *)
Definition year_string (y : Z) : string :=
  if (0 <=? y) && (y <=? 9999) then fixed 4 y
  else ((if (y <? 0)%Z then "-" else "+") ++ fixed 6 (Z.abs y))%string.

(** [new Date(t).toISOString()] for a time value [t] (milliseconds since the
    epoch, UTC). *)
Definition toISOString (t : Z) : string :=
  let day := t / msPerDay in
  let ms := t mod msPerDay in
  let '(y, m, d) := civil day in
  (year_string y ++ "-" ++ fixed 2 m ++ "-" ++ fixed 2 d
   ++ "T" ++ fixed 2 (ms / 3600000)%Z ++ ":" ++ fixed 2 (ms / 60000 mod 60)%Z
   ++ ":" ++ fixed 2 (ms / 1000 mod 60)%Z ++ "." ++ fixed 3 (ms mod 1000)%Z ++ "Z")%string.

(** Recognising an ISO-8601 date-time in UTC,
    [YYYY-MM-DDTHH:mm:ss.sssZ] or [±YYYYYY-MM-DDTHH:mm:ss.sssZ], with the
    month, day, hour, minute and second in their ranges. *)
Definition is_digit (c : ascii) : bool :=
  let n := nat_of_ascii c in (48 <=? n)%nat && (n <=? 57)%nat.

Definition two_digits (a b : ascii) (lo hi : nat) : bool :=
  let n := (10 * (nat_of_ascii a - 48) + (nat_of_ascii b - 48))%nat in
  is_digit a && is_digit b && (lo <=? n)%nat && (n <=? hi)%nat.

Definition is_iso8601_tail (s : string) : bool :=
  match s with
  | String d1 (String m1 (String m2 (String d2 (String a1 (String a2
    (String t (String h1 (String h2 (String c1 (String n1 (String n2
    (String c2 (String s1 (String s2 (String dot (String f1 (String f2
    (String f3 (String z EmptyString))))))))))))))))))) =>
      Ascii.eqb d1 "-" && two_digits m1 m2 1 12
      && Ascii.eqb d2 "-" && two_digits a1 a2 1 31
      && Ascii.eqb t "T" && two_digits h1 h2 0 23
      && Ascii.eqb c1 ":" && two_digits n1 n2 0 59
      && Ascii.eqb c2 ":" && two_digits s1 s2 0 59
      && Ascii.eqb dot "." && is_digit f1 && is_digit f2 && is_digit f3
      && Ascii.eqb z "Z"
  | _ => false
  end.

Definition is_iso8601 (s : string) : bool :=
  match s with
  | String y1 (String y2 (String y3 (String y4 rest))) =>
      if is_digit y1 then
        is_digit y2 && is_digit y3 && is_digit y4 && is_iso8601_tail rest
      else if Ascii.eqb y1 "+" || Ascii.eqb y1 "-" then
        match rest with
        | String y5 (String y6 (String y7 rest')) =>
            is_digit y2 && is_digit y3 && is_digit y4 && is_digit y5
            && is_digit y6 && is_digit y7 && is_iso8601_tail rest'
        | _ => false
        end
      else false
  | _ => false
  end.

End JsDate.

(** ** The process and its world: file system, console, status callback *)

(** What a [throw] carries: [new Error(message)], an error of [fs] with its
    code, a [TypeError], or the [SyntaxError] of [JSON.parse]
    ([ParseFailure]). *)
Inductive Exception :=
| Error (message : string)
| SystemError (code : string)
| TypeError
| ParseFailure.

(** How a call ends.  [Hangs] is a call whose promise never settles. *)
Inductive Outcome (A : Type) :=
| Returned (a : A)
| Threw (e : Exception)
| Hangs.

Arguments Returned {A} a.
Arguments Threw {A} e.
Arguments Hangs {A}.

(** A path is the list of its segments below the root. *)
Definition Path : Type := list string.

Record World := mkWorld {
  dirs : gset (list string);            (* the directories *)
  files : gmap (list string) string;    (* the regular files and their text *)
  stderr : list string;                 (* lines of console.error, oldest first *)
  stdout : list string;                 (* lines of console.log, oldest first *)
  statuses : list string                (* what onStatus is called with *)
}.

Definition Action (A : Type) : Type := World -> Outcome A * World.

Definition ret {A : Type} (a : A) : Action A :=
  fun w => (Returned a, w).

(** Sequencing: what [m] did to the world stays when it throws or hangs. *)
Definition bind {A B : Type} (m : Action A) (k : A -> Action B) : Action B :=
  fun w =>
    match m w with
    | (Returned a, w') => k a w'
    | (Threw e, w') => (Threw e, w')
    | (Hangs, w') => (Hangs, w')
    end.

Notation "'let*' x ':=' m 'in' k" := (bind m (fun x => k))
  (at level 10, x name, m at level 100, k at level 200).

Notation "m ';;' k" := (bind m (fun _ => k))
  (at level 100, k at level 200, right associativity).

Definition throw {A : Type} (e : Exception) : Action A :=
  fun w => (Threw e, w).

Definition hang {A : Type} : Action A :=
  fun w => (Hangs, w).

Definition console_error (line : string) : Action unit :=
  fun w => (Returned tt,
            mkWorld (dirs w) (files w) (stderr w ++ [line])%list (stdout w) (statuses w)).

Definition console_log (line : string) : Action unit :=
  fun w => (Returned tt,
            mkWorld (dirs w) (files w) (stderr w) (stdout w ++ [line])%list (statuses w)).

Definition onStatus (status : string) : Action unit :=
  fun w => (Returned tt,
            mkWorld (dirs w) (files w) (stderr w) (stdout w) (statuses w ++ [status])%list).

(** *** [path] *)

Module path.

Definition join (base : Path) (segments : list string) : Path := (base ++ segments)%list.

Definition dirname (p : Path) : Path := removelast p.

(** The path as it prints. *)
Definition to_string (p : Path) : string :=
  String.concat EmptyString (List.map (fun seg => "/" ++ seg) p).

End path.

(** *** [fs] *)

Module fs.

Definition is_dir (w : World) (p : Path) : bool := bool_decide (p ∈ dirs w).

Definition is_file (w : World) (p : Path) : bool :=
  match files w !! p with Some _ => true | None => false end.

Definition existsSync (p : Path) : Action bool :=
  fun w => (Returned (is_dir w p || is_file w p), w).

(** The directory itself and the directories above it, the root apart. *)
Fixpoint chain (p : Path) : list Path :=
  match p with
  | [] => []
  | seg :: rest => [seg] :: List.map (cons seg) (chain rest)
  end.

(** [fs.mkdirSync(p, { recursive: true })]: creates what is missing of the
    chain; a regular file in the way makes it throw, [EEXIST] when the file
    is at [p] itself and [ENOTDIR] when it is above. *)
Definition mkdirSync_recursive (p : Path) : Action unit :=
  fun w =>
    if existsb (is_file w) (chain p)
    then (Threw (SystemError (if is_file w p then "EEXIST" else "ENOTDIR")), w)
    else (Returned tt,
          mkWorld (dirs w ∪ list_to_set (chain p)) (files w)
                  (stderr w) (stdout w) (statuses w)).

(** [fs.writeFileSync(p, text)].  The file is opened first, which fails
    with the disk as it was: [p] must not be a directory, no regular file may
    stand above it, and its parent must be a directory (the root always is).
    Opening empties the file, and the text is written then.  [breaks] is what
    the disk does to that write: [None] when it takes the whole text,
    [Some (n, code)] when it breaks off after [n] code units with the error
    [code] (a full disk, a quota, an I/O error), which leaves the first [n]
    code units of the text in the file. *)
Definition writeFileSync_under (breaks : option (nat * string))
    (p : Path) (text : string) : Action unit :=
  fun w =>
    if is_dir w p then (Threw (SystemError "EISDIR"), w)
    else if existsb (is_file w) (chain (path.dirname p))
    then (Threw (SystemError "ENOTDIR"), w)
    else if is_dir w (path.dirname p) || bool_decide (path.dirname p = [])
    then
      match breaks with
      | Some (n, code) =>
          if n <? String.length text
          then (Threw (SystemError code),
                mkWorld (dirs w) (<[p := JsString.take n text]> (files w))
                        (stderr w) (stdout w) (statuses w))
          else (Returned tt,
                mkWorld (dirs w) (<[p := text]> (files w))
                        (stderr w) (stdout w) (statuses w))
      | None =>
          (Returned tt,
           mkWorld (dirs w) (<[p := text]> (files w))
                   (stderr w) (stdout w) (statuses w))
      end
    else (Threw (SystemError "ENOENT"), w).

(** The same on a disk that takes the whole text. *)
Definition writeFileSync (p : Path) (text : string) : Action unit :=
  writeFileSync_under None p text.

(** [fs.readFileSync(p, 'utf-8')]. *)
Definition readFileSync (p : Path) : Action string :=
  fun w =>
    match files w !! p with
    | Some text => (Returned text, w)
    | None =>
        if is_dir w p then (Threw (SystemError "EISDIR"), w)
        else if existsb (is_file w) (chain (path.dirname p))
        then (Threw (SystemError "ENOTDIR"), w)
        else (Threw (SystemError "ENOENT"), w)
    end.

End fs.

(** [JSON.parse(text)] as a step of a computation. *)
Definition JSON_parse (text : string) : Action Json.value :=
  match Json.parse text with
  | Some data => ret data
  | None => throw ParseFailure
  end.

(** [data.cookies] on what [JSON.parse] returned.  [null] has no properties
    and the read throws a [TypeError]; an object gives its member of that
    name, [undefined] when it has none; a number, a string, a boolean and an
    array have no property of that name, and neither have their prototypes. *)
Definition get_cookies (data : Json.value) : Action (option Json.value) :=
  match data with
  | Json.JNull => throw TypeError
  | Json.JObject members => ret (Json.property members "cookies")
  | _ => ret None
  end.

(** ** More of the runtime: [startsWith], [endsWith] *)

Module JsText.

Definition startsWith (s prefix : string) : bool := String.prefix prefix s.

Definition endsWith (s suffix : string) : bool :=
  (String.length suffix <=? String.length s)
  && String.eqb (JsString.drop (String.length s - String.length suffix) s) suffix.

End JsText.

(** ** Browser cookies and the login page *)

(** The fields of a Playwright [Cookie] that the sources read, or that say
    which requests a cookie goes with. *)
Record Cookie := mkCookie {
  name : string;
  value : string;
  domain : string;
  cookie_path : string;
  secure : bool
}.

(** How [Promise.race] sees a promise that has settled, with the instant in
    milliseconds after the waits were started. *)
Inductive Settlement :=
| Fulfilled (at_ms : Z)
| Rejected (at_ms : Z).

(** The browser during one interactive login, in which the window stays
    open.  The three [*_ready] fields give the first instant at which the
    page meets the condition of the corresponding Playwright wait
    ([waitForURL] and the two [waitForSelector]), if it ever does; [jar] and
    [page_url] are the cookie jar and the URL of the page at each instant. *)
Record Browser := mkBrowser {
  url_ready : option Z;
  main_ready : option Z;
  account_ready : option Z;
  jar : Z -> list Cookie;
  page_url : Z -> string
}.

(** ** Playwright: the cookies [context.cookies(url)] returns

    The library is not among the sources, which only call it; this is the
    rule by which it selects the cookies of the jar for a URL. *)

Module Playwright.

(** The parts of a URL the rule reads, as [new URL(...)] gives them. *)
Record URL := mkURL {
  protocol : string;
  hostname : string;
  pathname : string
}.

Definition isLocalHostname (hostname : string) : bool :=
  String.eqb hostname "localhost" || JsText.endsWith hostname ".localhost".

(** The domain of a cookie, with a dot put before it when it has none. *)
Definition dotted (domain : string) : string :=
  if JsText.startsWith domain "." then domain else "." ++ domain.

(** Whether a cookie goes with a URL: the dotted domain of the cookie ends
    the dotted host name, the path of the cookie starts the path of the
    URL, and a secure cookie does not go with a protocol other than https,
    [localhost] apart. *)
Definition affects (url : URL) (c : Cookie) : bool :=
  JsText.endsWith ("." ++ hostname url) (dotted (domain c))
  && JsText.startsWith (pathname url) (cookie_path c)
  && negb (negb (String.eqb (protocol url) "https:")
           && negb (isLocalHostname (hostname url))
           && secure c).

(** [context.cookies(url)] on a jar. *)
Definition filterCookies (cookies : list Cookie) (url : URL) : list Cookie :=
  List.filter (affects url) cookies.

End Playwright.

(** What the platform can do wrong at the end of a run, whatever the state
    of the disk: the write of the record can break off (see
    [fs.writeFileSync_under]), and [browser.close()] can reject, with an
    error of the message given. *)
Record Faults := mkFaults {
  write_breaks : option (nat * string);
  close_rejects : option string
}.

Definition no_faults : Faults := mkFaults None None.

(** ** [AuthManager] ([src/auth.ts]) *)

Module AuthManager.

Record t := mk { authPath : Path }.

(** The constructor; [homedir] is what [os.homedir()] returns. *)
Definition new (homedir : Path) : t :=
  mk (path.join homedir [".notebooklm-mcp"; "auth.json"]).

(** The two errors the class throws, under the names of the error taxonomy. *)
Definition AuthenticationTimeout : Exception :=
  Error "Authentication timed out or browser was closed.".

Definition NotAuthenticated : Exception :=
  Error "Authentication required. Please run notebook-mcp-auth".

(** ['https://notebooklm.google.com'], the argument of [page.goto] and of
    [context.cookies], as [new URL(...)] reads it. *)
Definition target : Playwright.URL :=
  Playwright.mkURL "https:" "notebooklm.google.com" "/".

Definition timeout : Z := 300000.

(** *** Waiting for the login *)

(** A Playwright wait with a timeout: fulfilled when its condition is met
    before the timeout, rejected at the timeout otherwise. *)
Definition waitFor (timeout : Z) (ready : option Z) : Settlement :=
  match ready with
  | Some at_ms => if (at_ms <? timeout)%Z then Fulfilled at_ms else Rejected timeout
  | None => Rejected timeout
  end.

Definition settled_at (s : Settlement) : Z :=
  match s with
  | Fulfilled at_ms => at_ms
  | Rejected at_ms => at_ms
  end.

(** [Promise.race]: settles as the promise that settles first does, the one
    listed first when two settle together; [None] when none ever settles. *)
Definition first_of (a b : Settlement) : Settlement :=
  if (settled_at b <? settled_at a)%Z then b else a.

Fixpoint Promise_race (promises : list (option Settlement)) : option Settlement :=
  match promises with
  | [] => None
  | p :: rest =>
      match p, Promise_race rest with
      | Some a, Some b => Some (first_of a b)
      | Some a, None => Some a
      | None, r => r
      end
  end.

Definition is_session_cookie (c : Cookie) : bool :=
  String.eqb (name c) "__Secure-3PSID" || String.eqb (name c) "SID".

(** One pass of [checkLoop] at instant [now]: is a session cookie in the
    whole jar while the page is on the target host? *)
Definition cookie_check (b : Browser) (now : Z) : bool :=
  match List.find is_session_cookie (jar b now) with
  | Some _ => JsString.includes (page_url b now) "notebooklm.google.com"
  | None => false
  end.

(** [isDone] at instant [now]: one of the three waits has settled (fulfilled,
    its [then] sets the flag; rejected, the race rejects and [finally] sets
    it). *)
Definition isDone (waits : list Settlement) (now : Z) : bool :=
  existsb (fun s => (settled_at s <=? now)%Z) waits.

(** The fourth promise: [checkLoop] runs at once and then every 2000 ms,
    stops without settling once [isDone] holds, and fulfils the promise at
    the first pass where the check succeeds.  [fuel] bounds the passes. *)
Fixpoint checkLoop (b : Browser) (waits : list Settlement) (fuel : nat) (now : Z)
  : option Settlement :=
  match fuel with
  | O => None
  | S fuel' =>
      if isDone waits now then None
      else if cookie_check b now then Some (Fulfilled now)
      else checkLoop b waits fuel' (now + 2000)%Z
  end.

(** The three waits of [runAuthentication], each with the timeout. *)
Definition waits (b : Browser) : list Settlement :=
  [waitFor timeout (url_ready b);
   waitFor timeout (main_ready b);
   waitFor timeout (account_ready b)].

(** The passes of [checkLoop] that can start before the timeout, and one
    more. *)
Definition passes : nat := Z.to_nat (timeout / 2000) + 2.

Definition wait_for_login (b : Browser) : option Settlement :=
  Promise_race (List.map Some (waits b) ++ [checkLoop b (waits b) passes 0])%list.

(** *** Extracting and saving the cookies *)

(** [context.cookies(url)]: the cookies of the jar that go with [url]. *)
Definition context_cookies (b : Browser) (now : Z) (url : Playwright.URL)
  : list Cookie :=
  Playwright.filterCookies (jar b now) url.

(** The loop [for (const c of allCookies) cookieMap.set(c.name, c.value)]. *)
Definition cookieMap_of (allCookies : list Cookie) : JsMap.t string :=
  List.fold_left (fun m c => JsMap.set m (name c) (value c)) allCookies JsMap.empty.

Definition cookieString_of (cookieMap : JsMap.t string) : string :=
  JsString.join "; "
    (List.map (fun nv => fst nv ++ "=" ++ snd nv) (JsMap.entries cookieMap)).

Definition REQUIRED_COOKIES : list string :=
  ["SID"; "HSID"; "SSID"; "APISID"; "SAPISID"].

Definition missingCookies_of (cookieMap : JsMap.t string) : list string :=
  List.filter (fun name => negb (JsMap.has cookieMap name)) REQUIRED_COOKIES.

(** The record that is written, as the object literal lists it. *)
Definition authData (cookieString : string) (clock : Z) : list (string * string) :=
  [("cookies", cookieString); ("updatedAt", JsDate.toISOString clock)].

(** [await browser.close()], the last step of [runAuthentication]. *)
Definition browser_close (faults : Faults) : Action unit :=
  match close_rejects faults with
  | Some message => throw (Error message)
  | None => ret tt
  end.

(** From "Extracting secure session cookies..." to the end of
    [runAuthentication]; [now] is the instant of the reading of the jar and
    [clock] the time value of [new Date()]. *)
Definition extract_and_save_under (faults : Faults) (self : t) (b : Browser)
    (now : Z) (clock : Z) : Action unit :=
  onStatus "Extracting secure session cookies...";;
  let allCookies := context_cookies b now target in
  let cookieMap := cookieMap_of allCookies in
  let cookieString := cookieString_of cookieMap in
  let missingCookies := missingCookies_of cookieMap in
  (if 0 <? List.length missingCookies
   then console_error ("Warning: Missing required cookies: "
                       ++ JsString.join ", " missingCookies)
   else ret tt);;
  console_error ("Extracted " ++ JsString.of_nat (JsMap.size cookieMap)
                 ++ " unique cookies for notebooklm.google.com");;
  let* present := fs.existsSync (path.dirname (authPath self)) in
  (if negb present
   then fs.mkdirSync_recursive (path.dirname (authPath self))
   else ret tt);;
  fs.writeFileSync_under (write_breaks faults) (authPath self)
    (Json.stringify (authData cookieString clock));;
  console_error ("Authentication successful! Cookies saved to "
                 ++ path.to_string (authPath self));;
  browser_close faults.

(** [runAuthentication(onStatus)]. *)
Definition runAuthentication_under (faults : Faults) (self : t) (b : Browser)
    (clock : Z) : Action unit :=
  onStatus "Launching Chromium...";;
  onStatus "Loading NotebookLM...";;
  onStatus "Waiting for Google Login...";;
  match wait_for_login b with
  | None => hang
  | Some (Rejected _) => throw AuthenticationTimeout
  | Some (Fulfilled at_ms) =>
      let finalCookies := jar b at_ms in
      let hasSid := List.existsb is_session_cookie finalCookies in
      if negb hasSid
      then onStatus "Verifying session session...";;
           extract_and_save_under faults self b (at_ms + 3000)%Z clock
      else extract_and_save_under faults self b at_ms clock
  end.

(** The same when the platform does nothing wrong: the disk takes the whole
    record and the browser closes. *)
Definition extract_and_save (self : t) (b : Browser) (now : Z) (clock : Z)
  : Action unit :=
  extract_and_save_under no_faults self b now clock.

Definition runAuthentication (self : t) (b : Browser) (clock : Z) : Action unit :=
  runAuthentication_under no_faults self b clock.

(** [getSavedCookies()]; [None] is [undefined], what [data.cookies] is when
    the record has no such member. *)
Definition getSavedCookies (self : t) : Action (option Json.value) :=
  let* present := fs.existsSync (authPath self) in
  if negb present then throw NotAuthenticated
  else
    let* text := fs.readFileSync (authPath self) in
    let* data := JSON_parse text in
    get_cookies data.

End AuthManager.

(** ** The cookie repair script ([examples/fix-cookies.ts]) *)

Module FixCookies.

(** The body of the loop over [pairs]: the first pair of a name is kept. *)
Definition keep_first (seen : JsMap.t string) (pair : string) : JsMap.t string :=
  let eq := JsString.indexOf pair "=" in
  let name := JsString.substring pair 0 eq in
  let value := JsString.substring_from pair (eq + 1)%Z in
  if negb (JsMap.has seen name) then JsMap.set seen name value else seen.

Definition seen_of (pairs : list string) : JsMap.t string :=
  List.fold_left keep_first pairs JsMap.empty.

Definition deduped_of (seen : JsMap.t string) : string :=
  JsString.join "; "
    (List.map (fun nv => fst nv ++ "=" ++ snd nv) (JsMap.entries seen)).

(** From the cookie string of the record to the one written back. *)
Definition dedupe (cookies : string) : string :=
  deduped_of (seen_of (JsString.split cookies "; ")).

(** The whole script; [homedir] is what [os.homedir()] returns, [clock] the
    time value of [new Date()] and [breaks] what the disk does to the write
    of the record.  [data.cookies.split] throws a [TypeError] unless
    [data.cookies] is a string: [undefined] and [null] have no properties,
    and no other value has a method of that name. *)
Definition fixCookies_under (breaks : option (nat * string)) (homedir : Path)
    (clock : Z) : Action unit :=
  let authPath := path.join homedir [".notebooklm-mcp"; "auth.json"] in
  let* text := fs.readFileSync authPath in
  let* data := JSON_parse text in
  let* member := get_cookies data in
  match member with
  | Some (Json.JString cookies) =>
      let pairs := JsString.split cookies "; " in
      let seen := seen_of pairs in
      let deduped := deduped_of seen in
      console_log ("Before: " ++ JsString.of_nat (List.length pairs) ++ " cookies");;
      console_log ("After: " ++ JsString.of_nat (JsMap.size seen) ++ " cookies");;
      let newData := [("cookies", deduped); ("updatedAt", JsDate.toISOString clock)] in
      fs.writeFileSync_under breaks authPath (Json.stringify newData);;
      console_log "Saved deduplicated cookies to auth.json"
  | _ => throw TypeError
  end.

(** The same on a disk that takes the whole record. *)
Definition fixCookies (homedir : Path) (clock : Z) : Action unit :=
  fixCookies_under None homedir clock.

End FixCookies.

(** ** The session context and its bootstrap *)

Module SessionContext.

(** The three fields [examples/test-parts.ts] reads on the client after
    [init]. *)
Record t := mk {
  csrfToken : option string;
  sessionId : option string;
  initialized : bool
}.

(** The context of a client that has not bootstrapped. *)
Definition fresh : t := mk None None false.

(** Modelled from the spec: the entry page as the bootstrap sees it, that
    is the URL the fetch ended on after its redirects, and the two markers
    the scan of the body finds, if any. *)
Record EntryPage := mkPage {
  finalUrl : string;
  antiForgeryToken : option string;
  sessionIdentifier : option string
}.

(** Modelled from the spec: the failure of a bootstrap. *)
Inductive Failure := SessionExpired.

(** The test of [examples/test-auth.ts] for a fetch that ended on the
    identity provider. *)
Definition resolves_to_identity_provider (page : EntryPage) : bool :=
  JsString.includes (finalUrl page) "accounts.google.com".

(** Modelled from the spec: [NotebookLMClient.init] of [src/client.ts] is not
    among the sources (only its callers in [examples/test-parts.ts] and the
    diagnostic of [examples/test-auth.ts] are).  A fetch that ends on the
    identity provider fails with [SessionExpired]; otherwise a missing
    anti-forgery token fails with [SessionExpired], a missing session
    identifier is tolerated, and on success both fields are written in one
    step together with [initialized].  A failure leaves the context as it
    was. *)
Definition bootstrap (ctx : t) (page : EntryPage)
  : (Failure + string * option string) * t :=
  if resolves_to_identity_provider page then (inl SessionExpired, ctx)
  else
    match antiForgeryToken page with
    | None => (inl SessionExpired, ctx)
    | Some token =>
        (inr (token, sessionIdentifier page),
         mk (Some token) (sessionIdentifier page) true)
    end.

End SessionContext.

(** ** Vocabulary of the properties *)

(** [last_of cs n c]: [c] is the last cookie named [n] in the sequence [cs]. *)
Definition last_of (cs : list Cookie) (n : string) (c : Cookie) : Prop :=
  exists before after,
    cs = (before ++ c :: after)%list /\ name c = n /\
    forall c', In c' after -> name c' <> n.

(** [can_save w p]: in world [w] nothing stands in the way of writing the
    file [p]: [p] is not a directory, and no regular file sits where its
    parent directory, or a directory above it, has to be. *)
Definition can_save (w : World) (p : Path) : bool :=
  negb (fs.is_dir w p)
  && forallb (fun q => negb (fs.is_file w q)) (fs.chain (path.dirname p)).

(** The line of the warning for the required names that are missing. *)
Definition warning_line (missingCookies : list string) : string :=
  "Warning: Missing required cookies: " ++ JsString.join ", " missingCookies.

(** What [runAuthentication] prints on [console.error] once the cookies are
    read. *)
Definition report_lines (self : AuthManager.t) (cookieMap : JsMap.t string) : list string :=
  ((if 0 <? List.length (AuthManager.missingCookies_of cookieMap)
    then [warning_line (AuthManager.missingCookies_of cookieMap)] else [])
   ++ [("Extracted " ++ JsString.of_nat (JsMap.size cookieMap)
         ++ " unique cookies for notebooklm.google.com")%string;
       ("Authentication successful! Cookies saved to "
         ++ path.to_string (AuthManager.authPath self))%string])%list.

(** The cookie map [runAuthentication] builds from the jar at instant [now]. *)
Definition cookieMap_at (b : Browser) (now : Z) : JsMap.t string :=
  AuthManager.cookieMap_of (AuthManager.context_cookies b now AuthManager.target).

(** A pristine world: an empty disk and nothing printed. *)
Definition empty_world : World := mkWorld ∅ ∅ [] [] [].

(** The instant at which [runAuthentication] reads the cookies it saves,
    for a login seen at [at_ms]: three seconds later when the jar has no
    session cookie yet. *)
Definition reading_instant (b : Browser) (at_ms : Z) : Z :=
  if List.existsb AuthManager.is_session_cookie (jar b at_ms)
  then at_ms else (at_ms + 3000)%Z.

(** No login signal within the timeout: none of the three page conditions is
    met before it, and the cookie check fails at every instant before it. *)
Definition no_signal_within (b : Browser) : Prop :=
  (forall t, url_ready b = Some t -> (AuthManager.timeout <= t)%Z) /\
  (forall t, main_ready b = Some t -> (AuthManager.timeout <= t)%Z) /\
  (forall t, account_ready b = Some t -> (AuthManager.timeout <= t)%Z) /\
  (forall t, (0 <= t < AuthManager.timeout)%Z -> AuthManager.cookie_check b t = false).

(** The name and the value the repair script reads in a pair. *)
Definition pair_name (pair : string) : string :=
  JsString.substring pair 0 (JsString.indexOf pair "=").

Definition pair_value (pair : string) : string :=
  JsString.substring_from pair (JsString.indexOf pair "=" + 1)%Z.

(** [nosep p]: the separator of the cookie string occurs nowhere in [p]. *)
Fixpoint nosep (p : string) : bool :=
  match p with
  | EmptyString => true
  | String _ p' => negb (String.prefix "; " p) && nosep p'
  end.

(** What stands before the first equals sign of a pair, and what stands
    after it, if there is one. *)
Fixpoint before_eq (p : string) : string :=
  match p with
  | EmptyString => EmptyString
  | String c p' => if Ascii.eqb c "=" then EmptyString else String c (before_eq p')
  end.

Fixpoint after_eq (p : string) : option string :=
  match p with
  | EmptyString => None
  | String c p' => if Ascii.eqb c "=" then Some p' else after_eq p'
  end.

(** ** More of the runtime: [Set<string>] *)

(** A [Set] lists its elements in insertion order, each once. *)
Module JsSet.

Definition t : Type := list string.

Fixpoint has (s : t) (x : string) : bool :=
  match s with
  | [] => false
  | y :: s' => if String.eqb y x then true else has s' x
  end.

Definition add (s : t) (x : string) : t :=
  if has s x then s else (s ++ [x])%list.

(** [new Set(xs)]. *)
Definition of_list (xs : list string) : t := List.fold_left add xs [].

Definition size (s : t) : nat := List.length s.

End JsSet.

(** ** The diagnostic script ([examples/test-auth.ts]) *)

Module TestAuth.

(** [c.split('=')[0]]; the array of a split on a non-empty separator is
    never empty, so that the default is never taken. *)
Definition first_field (c : string) : string :=
  List.hd EmptyString (JsString.split c "=").

(** [cookiePairs.map(c => c.split('=')[0])] for
    [cookiePairs = cookies.split('; ')]. *)
Definition names_of (cookies : string) : list string :=
  List.map first_field (JsString.split cookies "; ").

(** The test [names.length !== uniqueNames.size] with
    [uniqueNames = new Set(names)]. *)
Definition has_duplicates (names : list string) : bool :=
  negb (List.length names =? JsSet.size (JsSet.of_list names)).

Definition REQUIRED : list string := ["SID"; "HSID"; "SSID"; "APISID"; "SAPISID"].

(** [REQUIRED.filter(r => !uniqueNames.has(r))]. *)
Definition missing_of (names : list string) : list string :=
  List.filter (fun r => negb (JsSet.has (JsSet.of_list names) r)) REQUIRED.

End TestAuth.

(** ** The build script: the plugin that strips shebangs *)

Module Build.

(** The line terminators [.] does not match, among the code units of the
    model. *)
Definition is_line_terminator (c : ascii) : bool :=
  (nat_of_ascii c =? 10) || (nat_of_ascii c =? 13).

(** What follows the match of [.*\n] at the start of [s], if it matches:
    [.*] runs to the first line terminator, which has to be a line feed. *)
Fixpoint after_first_line (s : string) : option string :=
  match s with
  | EmptyString => None
  | String c s' =>
      if is_line_terminator c
      then (if nat_of_ascii c =? 10 then Some s' else None)
      else after_first_line s'
  end.

(** [source.replace(/^#!.*\n/, '')]. *)
Definition strip_shebang_line (source : string) : string :=
  match source with
  | String c1 (String c2 rest) =>
      if Ascii.eqb c1 "#" && Ascii.eqb c2 "!" then
        match after_first_line rest with
        | Some text => text
        | None => source
        end
      else source
  | _ => source
  end.

Inductive Loader := ts | js.

(** The filter [/\.[tj]s$/] of the plugin. *)
Definition filter (path : string) : bool :=
  JsText.endsWith path ".ts" || JsText.endsWith path ".js".

(** The [onLoad] callback on the text of the file at [path]; [None] is
    [undefined], which leaves the file to the default loader. *)
Definition onLoad (path source : string) : option (string * Loader) :=
  if JsText.startsWith source "#!" then
    Some (strip_shebang_line source,
          if JsText.endsWith path ".ts" then ts else js)
  else None.

End Build.

(** ** More vocabulary *)

(** The elements of a list whose key did not occur before, in order. *)
Fixpoint first_by {A : Type} (key : A -> string) (l : list A) : list A :=
  match l with
  | [] => []
  | x :: l' =>
      x :: List.filter (fun y => negb (String.eqb (key y) (key x))) (first_by key l')
  end.

(** The strings of a list in the order of their first occurrence. *)
Definition dedup_first (l : list string) : list string :=
  first_by (fun x => x) l.

(** The pairs of a list whose name did not occur before, in order. *)
Definition first_wins (l : list (string * string)) : list (string * string) :=
  first_by fst l.

(** A pair as the repair script reads it. *)
Definition read_pair (pair : string) : string * string :=
  (pair_name pair, pair_value pair).

(** A cookie whose name and value hold no separator of the cookie string and
    whose name holds no equals sign. *)
Definition plain_cookie (c : Cookie) : bool :=
  nosep (name c) && nosep (value c)
  && match after_eq (name c) with None => true | Some _ => false end.

(** One turn of a loop that appends an element unless its key is there. *)
Definition append_new {A : Type} (key : A -> string) (acc : list A) (x : A) : list A :=
  if List.existsb (fun y => String.eqb (key y) (key x)) acc then acc
  else (acc ++ [x])%list.

(** The value of the last cookie named [n] in a sequence, if there is one. *)
Definition last_value (cs : list Cookie) (n : string) : option string :=
  match List.find (fun c => String.eqb (name c) n) (List.rev cs) with
  | Some c => Some (value c)
  | None => None
  end.

(** A name and its value as the cookie string prints them. *)
Definition print_pair (nv : string * string) : string :=
  (fst nv ++ "=" ++ snd nv)%string.

(** The directories once the file [p] has been written by
    [runAuthentication]: those of before, with the chain of the parent
    directory when it was missing. *)
Definition dirs_after (w : World) (p : Path) : gset (list string) :=
  if fs.is_dir w (path.dirname p) then dirs w
  else dirs w ∪ list_to_set (fs.chain (path.dirname p)).

(** What [runAuthentication] reports through [onStatus] before it waits, and
    after a login seen at [at_ms]. *)
Definition statuses_before_wait : list string :=
  ["Launching Chromium..."; "Loading NotebookLM..."; "Waiting for Google Login..."].

Definition statuses_after_login (b : Browser) (at_ms : Z) : list string :=
  ((if List.existsb AuthManager.is_session_cookie (jar b at_ms)
    then [] else ["Verifying session session..."])
   ++ ["Extracting secure session cookies..."])%list.

(** The world after a [runAuthentication] that saw the login at [at_ms]. *)
Definition world_after_login (homedir : Path) (b : Browser) (clock : Z)
    (w : World) (at_ms : Z) : World :=
  let self := AuthManager.new homedir in
  let cookieMap := cookieMap_at b (reading_instant b at_ms) in
  mkWorld
    (dirs_after w (AuthManager.authPath self))
    (<[AuthManager.authPath self :=
         Json.stringify (AuthManager.authData (AuthManager.cookieString_of cookieMap) clock)]>
       (files w))
    (stderr w ++ report_lines self cookieMap)
    (stdout w)
    (statuses w ++ statuses_before_wait ++ statuses_after_login b at_ms).

(** A login signal at instant [t]: the page meets the condition of one of
    the three waits at [t], or [t] is an instant of a pass of [checkLoop]
    at which the cookie check succeeds. *)
Definition signal_at (b : Browser) (t : Z) : Prop :=
  url_ready b = Some t \/ main_ready b = Some t \/ account_ready b = Some t \/
  (exists k : nat, t = (2000 * Z.of_nat k)%Z /\ AuthManager.cookie_check b t = true).

(** A text without line terminator. *)
Fixpoint single_line (s : string) : bool :=
  match s with
  | EmptyString => true
  | String c s' => negb (Build.is_line_terminator c) && single_line s'
  end.

Definition carriage_return : ascii := Eval cbv in ascii_of_nat 13.

(** ** The update check ([checkForUpdates]) *)

Module Updater.

(** The styles of [chalk] the function uses; what they add to a text depends
    on the terminal. *)
Record Chalk := mkChalk {
  blue : string -> string;
  yellow : string -> string;
  green : string -> string;
  cyan : string -> string;
  red : string -> string
}.

(** What the steps of the check meet.  A version is [pkg.version] or
    [data.version], [None] standing for [undefined]; an outer [None] is a
    step that throws (the package file cannot be read or parsed, the request
    to the registry fails or times out).  [install_ok] and [spawn_ok] say
    whether [execSync] and [spawn] return. *)
Record Env := mkEnv {
  pkg_version : option (option string);
  latest_version : option (option string);
  install_ok : bool;
  spawn_ok : bool
}.

(** A version inside a template literal. *)
Definition show (v : option string) : string :=
  match v with
  | Some s => s
  | None => "undefined"
  end.

(** [a !== b] on versions. *)
Definition strict_neq (a b : option string) : bool :=
  match a, b with
  | Some x, Some y => negb (String.eqb x y)
  | None, None => false
  | _, _ => true
  end.

(** The letters of the messages that are not ASCII, as code units. *)
Definition iexcl : string := Eval cbv in String (ascii_of_nat 161) EmptyString.
Definition aacute : string := Eval cbv in String (ascii_of_nat 225) EmptyString.
Definition eacute : string := Eval cbv in String (ascii_of_nat 233) EmptyString.
Definition oacute : string := Eval cbv in String (ascii_of_nat 243) EmptyString.
Definition uacute : string := Eval cbv in String (ascii_of_nat 250) EmptyString.
Definition nl : string := String Json.newline EmptyString.

Definition msg_checking (current : option string) : string :=
  "[v" ++ show current ++ "] Comprobando actualizaciones...".

Definition msg_new_version (latest : option string) : string :=
  nl ++ "[Update] " ++ iexcl ++ "Nueva versi" ++ oacute ++ "n disponible! ("
     ++ show latest ++ ")".

Definition msg_updating : string :=
  "[Update] Actualizando y relanzando autom" ++ aacute ++ "ticamente..." ++ nl.

Definition msg_updated : string :=
  "[Update] Actualizaci" ++ oacute ++ "n completada con " ++ eacute ++ "xito.".

Definition msg_relaunching : string :=
  "[Update] Relanzando aplicaci" ++ oacute ++ "n..." ++ nl.

Definition msg_update_failed : string :=
  "[Update] Error al actualizar autom" ++ aacute
    ++ "ticamente. Por favor, reinicia manualmente.".

Definition msg_up_to_date (current : option string) : string :=
  "[v" ++ show current ++ "] Est" ++ aacute ++ "s usando la " ++ uacute
    ++ "ltima versi" ++ oacute ++ "n.".

(** The inner [try]: install, then relaunch and never resolve; what throws
    there is caught and reported. *)
Definition update_and_relaunch (chalk : Chalk) (env : Env) : Action unit :=
  if install_ok env then
    console_error (green chalk msg_updated);;
    console_error (cyan chalk msg_relaunching);;
    if spawn_ok env then hang
    else console_error (red chalk msg_update_failed)
  else console_error (red chalk msg_update_failed).

(** [checkForUpdates(silentStart)]; the outer [catch] swallows what the
    reading of the package file and the request throw. *)
Definition checkForUpdates (chalk : Chalk) (env : Env) (silentStart : bool)
  : Action unit :=
  match pkg_version env with
  | None => ret tt
  | Some currentVersion =>
      (if negb silentStart
       then console_error (blue chalk (msg_checking currentVersion))
       else ret tt);;
      match latest_version env with
      | None => ret tt
      | Some latestVersion =>
          if strict_neq latestVersion currentVersion then
            console_error (yellow chalk (msg_new_version latestVersion));;
            console_error (yellow chalk msg_updating);;
            update_and_relaunch chalk env
          else if negb silentStart
          then console_error (green chalk (msg_up_to_date currentVersion))
          else ret tt
      end
  end.

End Updater.

(** An update is found: both versions are read and they differ. *)
Definition update_found (env : Updater.Env) : bool :=
  match Updater.pkg_version env, Updater.latest_version env with
  | Some current, Some latest => Updater.strict_neq latest current
  | _, _ => false
  end.

(** ** Vocabulary for the target, the disk and the records *)


(** How a write that got past the opening of the file ends, and what it
    leaves in the file. *)
Definition write_outcome (breaks : option (nat * string)) (text : string)
  : Outcome unit :=
  match breaks with
  | Some (n, code) =>
      if n <? String.length text then Threw (SystemError code) else Returned tt
  | None => Returned tt
  end.

Definition written (breaks : option (nat * string)) (text : string) : string :=
  match breaks with
  | Some (n, _) => if n <? String.length text then JsString.take n text else text
  | None => text
  end.

(** What [runAuthentication] prints on [console.error] before it writes the
    record. *)
Definition lines_before_write (cookieMap : JsMap.t string) : list string :=
  ((if 0 <? List.length (AuthManager.missingCookies_of cookieMap)
    then [warning_line (AuthManager.missingCookies_of cookieMap)] else [])
   ++ [("Extracted " ++ JsString.of_nat (JsMap.size cookieMap)
         ++ " unique cookies for notebooklm.google.com")%string])%list.

(** How the saving of the record [text] ends once the write is reached, and
    what has been printed by then: a write that breaks off throws its error
    before the line of success; after a whole write the line of success is
    printed and the closing of the browser decides. *)
Definition save_outcome (faults : Faults) (text : string) : Outcome unit :=
  match write_outcome (write_breaks faults) text with
  | Returned _ =>
      match close_rejects faults with
      | Some message => Threw (Error message)
      | None => Returned tt
      end
  | Threw e => Threw e
  | Hangs => Hangs
  end.

Definition save_lines (faults : Faults) (self : AuthManager.t)
    (cookieMap : JsMap.t string) (text : string) : list string :=
  match write_outcome (write_breaks faults) text with
  | Returned _ => report_lines self cookieMap
  | _ => lines_before_write cookieMap
  end.

(** The text of the record [runAuthentication] writes from the jar read at
    instant [now]. *)
Definition record_text (b : Browser) (now clock : Z) : string :=
  Json.stringify
    (AuthManager.authData (AuthManager.cookieString_of (cookieMap_at b now)) clock).



(* ================================================================== *)
(** * Properties *)

(** ** The runtime on concrete inputs *)

Example split_cookie_string :
  JsString.split "SID=1; SID=2; HSID=x" "; " = ["SID=1"; "SID=2"; "HSID=x"].
Proof. reflexivity. Qed.

Example split_keeps_empty_pieces :
  JsString.split ";; x; " "; " = [";"; "x"; EmptyString].
Proof. reflexivity. Qed.

Example substring_negative_end : JsString.substring "abc" 0 (-1) = EmptyString.
Proof. reflexivity. Qed.

Example indexOf_first_equals : JsString.indexOf "k=v=w" "=" = 1%Z.
Proof. reflexivity. Qed.

Example map_set_keeps_the_place :
  AuthManager.cookieMap_of
    [mkCookie "SID" "1" ".google.com" "/" true;
     mkCookie "OSID" "o" "notebooklm.google.com" "/" true;
     mkCookie "SID" "2" "notebooklm.google.com" "/" true]
  = [("SID", "2"); ("OSID", "o")].
Proof. reflexivity. Qed.

Example toISOString_epoch : JsDate.toISOString 0 = "1970-01-01T00:00:00.000Z".
Proof. reflexivity. Qed.

Example toISOString_leap_day :
  JsDate.toISOString 1709251199999 = "2024-02-29T23:59:59.999Z".
Proof. vm_compute. reflexivity. Qed.

Example toISOString_last_instant :
  JsDate.toISOString JsDate.maxTime = "+275760-09-13T00:00:00.000Z".
Proof. vm_compute. reflexivity. Qed.

Example parse_array : Json.parse "[1, 2]" = Some (Json.JArray [Json.JNumber "1"; Json.JNumber "2"]).
Proof. reflexivity. Qed.

Example parse_nested :
  Json.parse (" { " ++ Json.quote "a" ++ " : [ true , null , -1.5e+3 , { } , "
              ++ Json.quote "\u0041\n" ++ " ] } ")
  = Some (Json.JObject
            [("a", Json.JArray [Json.JBool true; Json.JNull; Json.JNumber "-1.5e+3";
                                Json.JObject []; Json.JString "\u0041\n"])]).
Proof. reflexivity. Qed.

Example parse_refuses :
  List.map Json.parse ["01"; "1."; "[1,]"; "tru"; "nullx"; "-"; "1 2"; "{1:2}"; EmptyString]
  = [None; None; None; None; None; None; None; None; None].
Proof. reflexivity. Qed.

Example dedupe_pair_without_equals : FixCookies.dedupe "token" = "=token".
Proof. reflexivity. Qed.

(** ** The insertion-ordered map *)

Section JsMapFacts.
Context {V : Type}.
Implicit Types (m : JsMap.t V) (k : string) (v : V).

Lemma has_true_iff m k : JsMap.has m k = true <-> In k (JsMap.keys m).
Proof.
  induction m as [|[k' v'] m IH]; simpl.
  - split; [discriminate | tauto].
  - destruct (String.eqb_spec k' k) as [->|Hne].
    + split; auto.
    + rewrite IH. split; [auto | intros [?|?]; [congruence | assumption]].
Qed.

Lemma has_false_iff m k : JsMap.has m k = false <-> ~ In k (JsMap.keys m).
Proof.
  rewrite <- has_true_iff. destruct (JsMap.has m k); split; congruence.
Qed.

Lemma keys_set m k v :
  JsMap.keys (JsMap.set m k v) =
  if JsMap.has m k then JsMap.keys m else (JsMap.keys m ++ [k])%list.
Proof.
  induction m as [|[k' v'] m IH]; simpl; [reflexivity|].
  destruct (String.eqb k' k); simpl; [reflexivity|].
  rewrite IH. destruct (JsMap.has m k); reflexivity.
Qed.

Lemma NoDup_keys_set m k v :
  List.NoDup (JsMap.keys m) -> List.NoDup (JsMap.keys (JsMap.set m k v)).
Proof.
  intros Hnd. rewrite keys_set.
  destruct (JsMap.has m k) eqn:Hhas; [assumption|].
  apply has_false_iff in Hhas.
  apply List.NoDup_app; repeat split.
  - assumption.
  - constructor; [intros [] | constructor].
  - intros x Hx [<-|[]]. contradiction.
Qed.

Lemma in_set_iff m k v k' v' :
  List.NoDup (JsMap.keys m) ->
  In (k', v') (JsMap.set m k v) <->
  (k' = k /\ v' = v) \/ (k' <> k /\ In (k', v') m).
Proof.
  induction m as [|[k0 v0] m IH]; simpl; intros Hnd.
  - split.
    + intros [Heq|[]]. injection Heq as <- <-. auto.
    + intros [[-> ->]|[_ []]]. auto.
  - apply List.NoDup_cons_iff in Hnd as [Hnotin Hnd].
    destruct (String.eqb_spec k0 k) as [->|Hne]; simpl.
    + split.
      * intros [Heq|Hin].
        -- injection Heq as <- <-. auto.
        -- right. split; [|auto]. intros ->. apply Hnotin.
           change (In (fst (k, v')) (List.map fst m)). apply List.in_map. assumption.
      * intros [[-> ->]|[Hne [Heq|Hin]]]; auto. injection Heq as <- _. congruence.
    + rewrite (IH Hnd). split.
      * intros [Heq|[[-> ->]|[Hne' Hin]]]; auto.
        injection Heq as <- <-. right. split; auto.
      * intros [[-> ->]|[Hne' [Heq|Hin]]]; auto.
Qed.

End JsMapFacts.

(** ** The cookie set of [runAuthentication] *)

Lemma cookieMap_of_snoc (cs : list Cookie) (c : Cookie) :
  AuthManager.cookieMap_of (cs ++ [c]) =
  JsMap.set (AuthManager.cookieMap_of cs) (name c) (value c).
Proof.
  unfold AuthManager.cookieMap_of. rewrite List.fold_left_app. reflexivity.
Qed.

Lemma last_of_snoc (cs : list Cookie) (x : Cookie) (n : string) (c : Cookie) :
  last_of (cs ++ [x]) n c <->
  (c = x /\ name x = n) \/ (name x <> n /\ last_of cs n c).
Proof.
  split.
  - intros (before & after & Heq & Hname & Hafter).
    destruct (List.exists_last (l := c :: after)) as (init & z & Hlast); [discriminate|].
    destruct init as [|c0 init']; simpl in Hlast.
    + injection Hlast as -> ->.
      apply List.app_inj_tail in Heq as [_ ->].
      left. auto.
    + injection Hlast as <- ->.
      change (before ++ c :: (init' ++ [z]))%list
        with (before ++ (c :: init') ++ [z])%list in Heq.
      rewrite List.app_assoc in Heq. apply List.app_inj_tail in Heq as [-> ->].
      right. split.
      * apply Hafter. apply List.in_or_app. right. left. reflexivity.
      * exists before, init'. split; [reflexivity|]. split; [assumption|].
        intros c' Hin. apply Hafter. apply List.in_or_app. left. assumption.
  - intros [[-> Hname]|[Hne (before & after & -> & Hname & Hafter)]].
    + exists cs, []. split; [reflexivity|]. split; [assumption|]. intros c' [].
    + exists before, (after ++ [x])%list. split; [|split].
      * rewrite <- List.app_assoc. reflexivity.
      * assumption.
      * intros c' Hin. apply List.in_app_or in Hin as [Hin|[<-|[]]]; auto.
Qed.

Lemma last_of_exists (cs : list Cookie) (n : string) :
  (exists c, In c cs /\ name c = n) -> exists c, last_of cs n c.
Proof.
  induction cs as [|x cs IH] using List.rev_ind; intros (c & Hin & Hn).
  - destruct Hin.
  - destruct (String.eqb_spec (name x) n) as [Hx|Hx].
    + exists x. apply last_of_snoc. left. auto.
    + apply List.in_app_or in Hin as [Hin|[->|[]]]; [|contradiction].
      destruct IH as (c' & Hlast); [exists c; auto|].
      exists c'. apply last_of_snoc. right. auto.
Qed.

Lemma cookieMap_of_spec (cs : list Cookie) :
  List.NoDup (JsMap.keys (AuthManager.cookieMap_of cs)) /\
  forall n v, In (n, v) (AuthManager.cookieMap_of cs) <->
              exists c, last_of cs n c /\ value c = v.
Proof.
  induction cs as [|x cs [IHnd IH]] using List.rev_ind.
  - split; [constructor|]. intros n v. split; [intros []|].
    intros (c & (before & after & Heq & _) & _).
    destruct before; discriminate.
  - rewrite cookieMap_of_snoc. split; [apply NoDup_keys_set; assumption|].
    intros n v. rewrite (in_set_iff _ _ _ _ _ IHnd), IH. split.
    + intros [[-> ->]|[Hne (c & Hlast & Hv)]].
      * exists x. split; [|reflexivity]. apply last_of_snoc. left. auto.
      * exists c. split; [|assumption]. apply last_of_snoc. right. split; auto.
    + intros (c & Hlast & Hv). apply last_of_snoc in Hlast as [[-> Hname]|[Hne Hlast]].
      * left. auto.
      * right. split; [auto|]. exists c. auto.
Qed.

(** C1. For every sequence of cookies read from the browser, repeated names
    included, the cookie map that [runAuthentication] builds has no name
    twice, has an entry for a name exactly when some cookie of the sequence
    bears it, so that it has as many entries as the sequence has distinct
    names, and the value of an entry is the value of the last cookie of that
    name in the order of the sequence. *)
Theorem C1_cookieMap_one_entry_per_name_last_value (allCookies : list Cookie) :
  let cookieMap := AuthManager.cookieMap_of allCookies in
  List.NoDup (JsMap.keys cookieMap) /\
  (forall n, In n (JsMap.keys cookieMap) <->
             exists c, In c allCookies /\ name c = n) /\
  JsMap.size cookieMap
    = List.length (List.nodup string_dec (List.map name allCookies)) /\
  (forall n v, In (n, v) (JsMap.entries cookieMap) <->
     exists before c after,
       allCookies = (before ++ c :: after)%list /\
       name c = n /\ value c = v /\
       forall c', In c' after -> name c' <> n).
Proof.
  destruct (cookieMap_of_spec allCookies) as [Hnd Hspec].
  assert (Hentries : forall n v,
    In (n, v) (AuthManager.cookieMap_of allCookies) <->
    exists before c after,
       allCookies = (before ++ c :: after)%list /\
       name c = n /\ value c = v /\
       forall c', In c' after -> name c' <> n).
  { intros n v. rewrite Hspec. split.
    - intros (c & (before & after & Heq & Hn & Hafter) & Hv).
      exists before, c, after. auto.
    - intros (before & c & after & Heq & Hn & Hv & Hafter).
      exists c. split; [|assumption]. exists before, after. auto. }
  assert (Hkeys : forall n, In n (JsMap.keys (AuthManager.cookieMap_of allCookies)) <->
                            exists c, In c allCookies /\ name c = n).
  { intros n. unfold JsMap.keys. rewrite List.in_map_iff. split.
    - intros ([n' v] & Hfst & Hin). simpl in Hfst. subst n'.
      apply Hentries in Hin as (before & c & after & -> & Hn & _).
      exists c. split; [|assumption]. apply List.in_or_app. right. left. reflexivity.
    - intros Hex. destruct (last_of_exists allCookies n Hex) as (c & Hlast).
      exists (n, value c). split; [reflexivity|].
      apply Hspec. exists c. auto. }
  simpl. split; [assumption|]. split; [exact Hkeys|]. split; [|exact Hentries].
  unfold JsMap.size. rewrite <- (List.length_map fst).
  apply Permutation.Permutation_length.
  apply Permutation.NoDup_Permutation; [assumption | apply List.NoDup_nodup |].
  intros n. rewrite List.nodup_In.
  change (List.map fst (AuthManager.cookieMap_of allCookies))
    with (JsMap.keys (AuthManager.cookieMap_of allCookies)).
  rewrite Hkeys, List.in_map_iff.
  split; intros (c & H1 & H2); exists c; auto.
Qed.

(** *** The rule of [context.cookies(url)] on the target *)







(** ** Strings *)

#[local] Arguments String.append !s1 s2 : simpl nomatch.

Lemma append_assoc (a b c : string) : ((a ++ b) ++ c = a ++ (b ++ c))%string.
Proof. induction a as [|x a IH]; simpl; [reflexivity | rewrite IH; reflexivity]. Qed.

Lemma length_append (a b : string) :
  String.length (a ++ b) = String.length a + String.length b.
Proof. induction a as [|x a IH]; simpl; [reflexivity | rewrite IH; reflexivity]. Qed.

(** ** [JSON.parse] after [JSON.stringify] *)

Lemma parse_chars_escape_unit (c : ascii) (rest : string) :
  Json.parse_chars (Json.escape_unit c ++ rest) = Json.prepend c (Json.parse_chars rest).
Proof.
  destruct c as [[] [] [] [] [] [] [] []]; reflexivity.
Qed.

Lemma parse_chars_escape (s rest : string) :
  Json.parse_chars (Json.escape s ++ String Json.dquote rest) = Some (s, rest).
Proof.
  induction s as [|c s IH].
  - reflexivity.
  - cbn [Json.escape]. rewrite append_assoc, parse_chars_escape_unit, IH. reflexivity.
Qed.

Lemma skip_ws_quote (rest : string) :
  Json.skip_ws (String Json.dquote rest) = String Json.dquote rest.
Proof. reflexivity. Qed.

Lemma stringify_member_shape (k v after : string) :
  (Json.stringify_member (k, v) ++ after)%string =
  String " " (String " " (String Json.dquote
    (Json.escape k ++ String Json.dquote (String ":" (String " " (String Json.dquote
      (Json.escape v ++ String Json.dquote after))))))).
Proof.
  unfold Json.stringify_member, Json.quote. simpl.
  rewrite !append_assoc. simpl. rewrite !append_assoc. reflexivity.
Qed.

Lemma parse_value_string (fuel : nat) (v after : string) :
  Json.parse_value (S fuel) (String Json.dquote (Json.escape v ++ String Json.dquote after))
  = Some (Json.JString v, after).
Proof.
  cbn [Json.parse_value]. rewrite skip_ws_quote.
  change (Ascii.eqb Json.dquote Json.dquote) with true. cbv iota.
  rewrite parse_chars_escape. reflexivity.
Qed.

Lemma parse_value_space (fuel : nat) (s : string) :
  Json.parse_value fuel (String " " s) = Json.parse_value fuel s.
Proof. destruct fuel; reflexivity. Qed.

Lemma parse_members_member (fuel : nat) (k v after : string) :
  Json.parse_members (S (S fuel)) (Json.stringify_member (k, v) ++ after) =
  match Json.skip_ws after with
  | String d s6 =>
      if Ascii.eqb d "}" then Some ([(k, Json.JString v)], s6)
      else if Ascii.eqb d "," then
        match Json.parse_members (S fuel) s6 with
        | Some (more, s7) => Some ((k, Json.JString v) :: more, s7)
        | None => None
        end
      else None
  | EmptyString => None
  end.
Proof.
  rewrite stringify_member_shape.
  cbn [Json.parse_members].
  change (Json.skip_ws (String " " (String " " (String Json.dquote ?x))))
    with (String Json.dquote x).
  cbv beta iota.
  change (Ascii.eqb Json.dquote Json.dquote) with true. cbv iota.
  rewrite parse_chars_escape.
  change (Json.skip_ws (String ":" ?x)) with (String ":" x).
  cbv beta iota.
  change (Ascii.eqb ":" ":") with true. cbv iota.
  rewrite parse_value_space, parse_value_string.
  reflexivity.
Qed.

Lemma members_cons (f g : string * string) (rest : list (string * string)) :
  Json.members (f :: g :: rest) =
  (Json.stringify_member f
   ++ String "," (String Json.newline (Json.members (g :: rest))))%string.
Proof. reflexivity. Qed.

Lemma parse_members_newline (fuel : nat) (s : string) :
  Json.parse_members fuel (String Json.newline s) = Json.parse_members fuel s.
Proof. destruct fuel; reflexivity. Qed.

Lemma parse_members_stringify (fields : list (string * string)) :
  fields <> [] ->
  forall (fuel : nat) (tail : string),
    List.length fields < fuel ->
    Json.parse_members fuel
      (Json.members fields ++ String Json.newline (String "}" tail)) =
    Some (List.map (fun kv => (fst kv, Json.JString (snd kv))) fields, tail).
Proof.
  induction fields as [|[k v] fields IH]; [congruence|]. intros _ fuel tail Hfuel.
  destruct fuel as [|[|fuel]]; [simpl in Hfuel; lia | simpl in Hfuel; lia |].
  destruct fields as [|g rest].
  - change (Json.members [(k, v)]) with (Json.stringify_member (k, v)).
    rewrite parse_members_member. reflexivity.
  - rewrite members_cons, append_assoc, parse_members_member.
    cbn [String.append].
    change (Json.skip_ws (String "," ?x)) with (String "," x).
    cbv beta iota. change (Ascii.eqb "," "}") with false.
    change (Ascii.eqb "," ",") with true. cbv iota.
    rewrite parse_members_newline, IH; [reflexivity | discriminate | simpl in *; lia].
Qed.

Lemma members_length (fields : list (string * string)) :
  List.length fields <= String.length (Json.members fields).
Proof.
  unfold Json.members.
  induction fields as [|[k v] l IHl]; [simpl; lia|].
  destruct l as [|g l]; [simpl; lia|].
  change (JsString.join ?sep (List.map ?h ((k, v) :: g :: l)))
    with (h (k, v) ++ sep ++ JsString.join sep (List.map h (g :: l)))%string.
  rewrite !length_append. simpl in *. lia.
Qed.

(** [JSON.parse] gives back the object [JSON.stringify] printed. *)
Lemma parse_stringify (fields : list (string * string)) :
  Json.parse (Json.stringify fields) = Some (Json.record fields).
Proof.
  destruct fields as [|f rest]; [reflexivity|].
  unfold Json.stringify.
  set (body := (Json.members (f :: rest) ++ String Json.newline "}")%string).
  assert (Hlen : List.length (f :: rest) <= String.length body).
  { unfold body. rewrite length_append. pose proof (members_length (f :: rest)). lia. }
  assert (Hbody : exists x, body = String " " (String " " (String Json.dquote x))).
  { unfold body. destruct f as [k v]. destruct rest as [|g rest].
    - change (Json.members [(k, v)]) with (Json.stringify_member (k, v)).
      rewrite stringify_member_shape. eauto.
    - rewrite members_cons, append_assoc, stringify_member_shape. eauto. }
  destruct Hbody as [x Hx].
  change (("{" ++ String Json.newline body)%string) with (String "{" (String Json.newline body)).
  unfold Json.parse.
  replace (2 * String.length (String "{" (String Json.newline body)) + 1)
    with (S (2 * String.length body + 4)) by (simpl String.length; lia).
  cbn [Json.parse_value].
  change (Json.skip_ws (String "{" ?y)) with (String "{" y). cbv beta iota.
  change (Ascii.eqb "{" Json.dquote) with false.
  change (Ascii.eqb "{" "{") with true. cbv iota.
  assert (Hskip : Json.skip_ws (String Json.newline body) = String Json.dquote x).
  { rewrite Hx. reflexivity. }
  rewrite Hskip. cbv beta iota.
  change (Ascii.eqb Json.dquote "}") with false. cbv iota.
  rewrite parse_members_newline.
  unfold body at 2.
  rewrite parse_members_stringify; [reflexivity | discriminate | lia].
Qed.

(** ** The fuel of [JSON.parse] *)

Lemma skip_ws_length (s t : string) :
  Json.skip_ws s = t -> String.length t <= String.length s.
Proof.
  intros <-. induction s as [|c s IH]; simpl; [lia|].
  destruct (Json.is_ws c); simpl; lia.
Qed.

Lemma prepend_some (c : ascii) (r : option (string * string)) (x rest : string) :
  Json.prepend c r = Some (x, rest) -> exists x', r = Some (x', rest).
Proof.
  destruct r as [[x' rest']|]; simpl; [|discriminate].
  intros [= _ <-]. eauto.
Qed.

Lemma parse_chars_length (s x rest : string) :
  Json.parse_chars s = Some (x, rest) -> String.length rest < String.length s.
Proof.
  remember (String.length s) as n eqn:Hn. revert s x rest Hn.
  induction n as [n IH] using lt_wf_ind. intros s x rest Hn.
  destruct s as [|c s']; [discriminate|]. simpl in Hn. cbn [Json.parse_chars].
  destruct (Ascii.eqb c Json.dquote); [intros [= _ <-]; subst n; lia|].
  destruct (Ascii.eqb c Json.backslash).
  - destruct s' as [|e s'']; [discriminate|]. simpl in Hn.
    destruct (Ascii.eqb e "u").
    + destruct s'' as [|h1 [|h2 [|h3 [|h4 r]]]]; try discriminate. simpl in Hn.
      destruct (Json.hex_value h1) as [[|?]|]; try discriminate.
      destruct (Json.hex_value h2) as [[|?]|]; try discriminate.
      destruct (Json.hex_value h3) as [a|]; try discriminate.
      destruct (Json.hex_value h4) as [b|]; try discriminate.
      intros H. apply prepend_some in H as (x' & H).
      apply (IH (String.length r)) in H; [|subst n; lia|reflexivity]. subst n. lia.
    + destruct (Json.simple_escape e); [|discriminate].
      intros H. apply prepend_some in H as (x' & H).
      apply (IH (String.length s'')) in H; [|subst n; lia|reflexivity]. subst n. lia.
  - destruct (nat_of_ascii c <? 32); [discriminate|].
    intros H. apply prepend_some in H as (x' & H).
    apply (IH (String.length s')) in H; [|subst n; lia|reflexivity]. subst n. lia.
Qed.

Lemma digits_length (s : string) :
  String.length (fst (Json.digits s)) + String.length (snd (Json.digits s))
  = String.length s.
Proof.
  induction s as [|c s IH]; simpl; [reflexivity|].
  destruct (Json.is_digit c); simpl; lia.
Qed.

Lemma digits1_length (s ds rest : string) :
  Json.digits1 s = Some (ds, rest) -> String.length rest < String.length s.
Proof.
  unfold Json.digits1. pose proof (digits_length s) as Hlen.
  destruct (Json.digits s) as [[|d ds'] rest']; [discriminate|].
  intros [= _ <-]. simpl in Hlen. lia.
Qed.

Lemma parse_number_length (s lexeme rest : string) :
  Json.parse_number s = Some (lexeme, rest) -> String.length rest < String.length s.
Proof.
  assert (Hint : forall s i r, Json.parse_int s = Some (i, r) ->
                               String.length r < String.length s).
  { intros [|c s'] i r; [discriminate|]. unfold Json.parse_int.
    destruct (Ascii.eqb c "0"); [intros [= _ <-]; simpl; lia|].
    destruct (Json.is_digit c); [|discriminate].
    intros [= _ <-]. pose proof (digits_length s'). simpl. lia. }
  assert (Hfrac : forall s f r, Json.parse_frac s = Some (f, r) ->
                                String.length r <= String.length s).
  { intros [|c s'] f r; [intros [= _ <-]; lia|]. unfold Json.parse_frac.
    destruct (Ascii.eqb c "."); [|intros [= _ <-]; lia].
    destruct (Json.digits1 s') as [[ds r']|] eqn:Hd; [|discriminate].
    intros [= _ <-]. apply digits1_length in Hd. simpl. lia. }
  assert (Hexp : forall s e r, Json.parse_exp s = Some (e, r) ->
                               String.length r <= String.length s).
  { intros [|c s'] e r; [intros [= _ <-]; lia|]. unfold Json.parse_exp.
    destruct (Ascii.eqb c "e" || Ascii.eqb c "E"); [|intros [= _ <-]; lia].
    destruct s' as [|sign s'']; [discriminate|].
    destruct (Ascii.eqb sign "+" || Ascii.eqb sign "-").
    - destruct (Json.digits1 s'') as [[ds r']|] eqn:Hd; [|discriminate].
      intros [= _ <-]. apply digits1_length in Hd. simpl. lia.
    - destruct (Json.digits1 (String sign s'')) as [[ds r']|] eqn:Hd; [|discriminate].
      intros [= _ <-]. apply digits1_length in Hd. simpl in *. lia. }
  assert (Hun : forall s n r, Json.parse_unsigned s = Some (n, r) ->
                              String.length r < String.length s).
  { intros s0 n r. unfold Json.parse_unsigned.
    destruct (Json.parse_int s0) as [[i s1]|] eqn:Hi; [|discriminate].
    destruct (Json.parse_frac s1) as [[f s2]|] eqn:Hf; [|discriminate].
    destruct (Json.parse_exp s2) as [[e s3]|] eqn:He; [|discriminate].
    intros [= _ <-]. apply Hint in Hi. apply Hfrac in Hf. apply Hexp in He. lia. }
  destruct s as [|c s']; [discriminate|]. unfold Json.parse_number.
  destruct (Ascii.eqb c "-").
  - destruct (Json.parse_unsigned s') as [[n r]|] eqn:Hu; [|discriminate].
    intros [= _ <-]. apply Hun in Hu. simpl. lia.
  - apply Hun.
Qed.

Lemma drop_shorter (n : nat) (s : string) :
  s <> EmptyString -> String.length (JsString.drop (S n) s) < String.length s.
Proof.
  intros Hs. destruct s as [|c s]; [congruence|]. clear Hs. simpl.
  revert s. induction n as [|n IH]; intros s; simpl; [lia|].
  destruct s as [|c' s']; simpl; [lia|]. specialize (IH s'). lia.
Qed.

Lemma parse_literal_length (s : string) (v : Json.value) (rest : string) :
  Json.parse_literal s = Some (v, rest) -> String.length rest < String.length s.
Proof.
  unfold Json.parse_literal.
  destruct s as [|c s]; [discriminate|].
  destruct (String.prefix "null" _);
    [intros [= _ <-]; apply (drop_shorter 3 (String c s)); discriminate|].
  destruct (String.prefix "true" _);
    [intros [= _ <-]; apply (drop_shorter 3 (String c s)); discriminate|].
  destruct (String.prefix "false" _); [|discriminate].
  intros [= _ <-]. apply (drop_shorter 4 (String c s)). discriminate.
Qed.

(** What each reader consumes. *)
Ltac lengths :=
  repeat match goal with
         | H : Json.skip_ws _ = _ |- _ => apply skip_ws_length in H
         | H : Json.parse_chars _ = Some _ |- _ => apply parse_chars_length in H
         | H : Json.parse_number _ = Some _ |- _ => apply parse_number_length in H
         | H : Json.parse_literal _ = Some _ |- _ => apply parse_literal_length in H
         end;
  cbn [String.length] in *.

Ltac break_match H :=
  match type of H with
  | context [match ?x with _ => _ end] => destruct x eqn:?; try discriminate H
  end.

(** Every reader leaves a text shorter than the one it was given. *)
Lemma parse_rest_shorter (fuel : nat) :
  (forall s v rest, Json.parse_value fuel s = Some (v, rest) ->
                    String.length rest < String.length s) /\
  (forall s ms rest, Json.parse_members fuel s = Some (ms, rest) ->
                     String.length rest < String.length s) /\
  (forall s vs rest, Json.parse_elements fuel s = Some (vs, rest) ->
                     String.length rest < String.length s).
Proof.
  induction fuel as [|fuel (IHv & IHm & IHe)]; [repeat split; discriminate|].
  split; [|split].
  - intros s v rest H. cbn [Json.parse_value] in H.
    repeat break_match H;
      repeat match goal with
             | E : Json.parse_members fuel _ = Some _ |- _ => apply IHm in E
             | E : Json.parse_elements fuel _ = Some _ |- _ => apply IHe in E
             end;
      try (injection H as <- <-); lengths; lia.
  - intros s ms rest H. cbn [Json.parse_members] in H.
    repeat break_match H;
      repeat match goal with
             | E : Json.parse_members fuel _ = Some _ |- _ => apply IHm in E
             | E : Json.parse_value fuel _ = Some _ |- _ => apply IHv in E
             end;
      try (injection H as <- <-); lengths; lia.
  - intros s vs rest H. cbn [Json.parse_elements] in H.
    repeat break_match H;
      repeat match goal with
             | E : Json.parse_elements fuel _ = Some _ |- _ => apply IHe in E
             | E : Json.parse_value fuel _ = Some _ |- _ => apply IHv in E
             end;
      try (injection H as <- <-); lengths; lia.
Qed.

(** The result of a reader does not depend on the fuel once the fuel is
    above twice the length of the text ([parse_elements] needs one more):
    [JSON.parse] never fails for want of fuel. *)
Lemma parse_fuel_irrelevant (fuel : nat) :
  (forall s fuel', 2 * String.length s < fuel -> 2 * String.length s < fuel' ->
                   Json.parse_value fuel s = Json.parse_value fuel' s) /\
  (forall s fuel', 2 * String.length s < fuel -> 2 * String.length s < fuel' ->
                   Json.parse_members fuel s = Json.parse_members fuel' s) /\
  (forall s fuel', 2 * String.length s + 1 < fuel -> 2 * String.length s + 1 < fuel' ->
                   Json.parse_elements fuel s = Json.parse_elements fuel' s).
Proof.
  induction fuel as [|fuel (IHv & IHm & IHe)]; [repeat split; intros; lia|].
  pose proof (parse_rest_shorter fuel) as (Sv & Sm & Se).
  split; [|split]; intros s [|fuel'] Hf Hf'; try lia.
  - cbn [Json.parse_value].
    destruct (Json.skip_ws s) as [|c s1] eqn:Hs; [reflexivity|].
    destruct (Ascii.eqb c Json.dquote); [reflexivity|].
    destruct (Ascii.eqb c "{").
    { destruct (Json.skip_ws s1) as [|e s2]; [reflexivity|].
      destruct (Ascii.eqb e "}"); [reflexivity|].
      rewrite (IHm s1 fuel') by (lengths; lia). reflexivity. }
    destruct (Ascii.eqb c "[").
    { destruct (Json.skip_ws s1) as [|e s2]; [reflexivity|].
      destruct (Ascii.eqb e "]"); [reflexivity|].
      rewrite (IHe s1 fuel') by (lengths; lia). reflexivity. }
    reflexivity.
  - cbn [Json.parse_members].
    destruct (Json.skip_ws s) as [|q s1] eqn:Hs; [reflexivity|].
    destruct (Ascii.eqb q Json.dquote); [|reflexivity].
    destruct (Json.parse_chars s1) as [[key s2]|] eqn:Hk; [|reflexivity].
    destruct (Json.skip_ws s2) as [|colon s3] eqn:Hs2; [reflexivity|].
    destruct (Ascii.eqb colon ":"); [|reflexivity].
    rewrite (IHv s3 fuel') by (lengths; lia).
    destruct (Json.parse_value fuel' s3) as [[v s4]|] eqn:Hv; [|reflexivity].
    destruct (Json.skip_ws s4) as [|d s5] eqn:Hs4; [reflexivity|].
    destruct (Ascii.eqb d "}"); [reflexivity|].
    destruct (Ascii.eqb d ","); [|reflexivity].
    rewrite <- (IHv s3 fuel') in Hv by (lengths; lia). apply Sv in Hv.
    rewrite (IHm s5 fuel') by (lengths; lia). reflexivity.
  - cbn [Json.parse_elements].
    rewrite (IHv s fuel') by lia.
    destruct (Json.parse_value fuel' s) as [[v s1]|] eqn:Hv; [|reflexivity].
    destruct (Json.skip_ws s1) as [|d s2] eqn:Hs1; [reflexivity|].
    destruct (Ascii.eqb d "]"); [reflexivity|].
    destruct (Ascii.eqb d ","); [|reflexivity].
    rewrite <- (IHv s fuel') in Hv by lia. apply Sv in Hv.
    rewrite (IHe s2 fuel') by (lengths; lia). reflexivity.
Qed.

(** More fuel than [JSON.parse] takes changes nothing. *)
Lemma parse_fuel_enough (text : string) (fuel : nat) :
  2 * String.length text < fuel ->
  Json.parse_value fuel text = Json.parse_value (2 * String.length text + 1) text.
Proof.
  intros Hfuel. apply (proj1 (parse_fuel_irrelevant fuel)); lia.
Qed.

(** ** The file system *)

Lemma chain_length (d q : Path) : In q (fs.chain d) -> List.length q <= List.length d.
Proof.
  revert q. induction d as [|seg d IH]; intros q; simpl; [tauto|].
  intros [<-|Hin]; [simpl; lia|].
  apply List.in_map_iff in Hin as (q' & <- & Hq'). simpl. apply IH in Hq'. lia.
Qed.

Lemma chain_self (d : Path) : d <> [] -> In d (fs.chain d).
Proof.
  induction d as [|seg d IH]; [congruence|]. intros _. simpl.
  destruct d as [|seg' d']; [left; reflexivity|].
  right. apply List.in_map. apply IH. discriminate.
Qed.

Lemma dirname_new (homedir : Path) :
  path.dirname (AuthManager.authPath (AuthManager.new homedir)) =
  (homedir ++ [".notebooklm-mcp"])%list.
Proof.
  unfold path.dirname, AuthManager.new, path.join. simpl.
  rewrite List.removelast_app; [reflexivity | discriminate].
Qed.

Lemma authPath_not_in_chain (homedir : Path) :
  ~ In (AuthManager.authPath (AuthManager.new homedir))
       (fs.chain (path.dirname (AuthManager.authPath (AuthManager.new homedir)))).
Proof.
  intros Hin. apply chain_length in Hin. rewrite dirname_new in Hin.
  simpl in Hin. unfold path.join in Hin. rewrite !List.length_app in Hin.
  simpl in Hin. lia.
Qed.

Lemma no_file_above (w : World) (d : Path) :
  forallb (fun q => negb (fs.is_file w q)) (fs.chain d) = true ->
  existsb (fs.is_file w) (fs.chain d) = false.
Proof.
  intros Hchain. rewrite List.forallb_forall in Hchain.
  apply not_true_is_false. intros Hex.
  apply List.existsb_exists in Hex as (q & Hq & Hfile).
  apply Hchain in Hq. rewrite Hfile in Hq. discriminate.
Qed.

(** Creating the parent directory when it is missing, then writing, on a
    disk where nothing stands in the way: the write is reached, and ends as
    the disk lets it. *)
Lemma mkdir_then_write_under (breaks : option (nat * string)) (homedir : Path)
    (text : string) (w : World) :
  let p := AuthManager.authPath (AuthManager.new homedir) in
  can_save w p = true ->
  (let* present := fs.existsSync (path.dirname p) in
   (if negb present then fs.mkdirSync_recursive (path.dirname p) else ret tt);;
   fs.writeFileSync_under breaks p text) w
  = (write_outcome breaks text,
     mkWorld (dirs_after w p) (<[p := written breaks text]> (files w))
             (stderr w) (stdout w) (statuses w)).
Proof.
  intros p Hcan. unfold can_save in Hcan.
  apply andb_true_iff in Hcan as [Hnotdir Hchain].
  apply negb_true_iff in Hnotdir.
  pose proof (no_file_above _ _ Hchain) as Hex.
  rewrite List.forallb_forall in Hchain.
  unfold dirs_after.
  set (d := path.dirname p) in *.
  assert (Hd : d <> []).
  { unfold d, p. rewrite dirname_new. destruct homedir; discriminate. }
  assert (Hdfile : fs.is_file w d = false).
  { apply negb_true_iff. apply Hchain. apply chain_self. assumption. }
  unfold bind, fs.existsSync. rewrite Hdfile, orb_false_r.
  destruct (fs.is_dir w d) eqn:Hddir; cbn [negb].
  - unfold ret, fs.writeFileSync_under.
    rewrite Hnotdir. fold d. rewrite Hex, Hddir. cbn [orb].
    unfold write_outcome, written.
    destruct breaks as [[n code]|]; [destruct (n <? String.length text)|];
      reflexivity.
  - unfold fs.mkdirSync_recursive. rewrite Hex.
    unfold fs.writeFileSync_under. fold d.
    assert (Hp : fs.is_dir (mkWorld (dirs w ∪ list_to_set (fs.chain d)) (files w)
                              (stderr w) (stdout w) (statuses w)) p = false).
    { apply bool_decide_eq_false. cbn [dirs]. intros Hin.
      apply elem_of_union in Hin as [Hin|Hin].
      - unfold fs.is_dir in Hnotdir. apply bool_decide_eq_false in Hnotdir. contradiction.
      - apply elem_of_list_to_set, list_elem_of_In in Hin.
        exact (authPath_not_in_chain homedir Hin). }
    rewrite Hp.
    assert (Hex' : existsb (fs.is_file (mkWorld (dirs w ∪ list_to_set (fs.chain d))
                      (files w) (stderr w) (stdout w) (statuses w))) (fs.chain d) = false)
      by exact Hex.
    rewrite Hex'.
    assert (Hdd : fs.is_dir (mkWorld (dirs w ∪ list_to_set (fs.chain d)) (files w)
                               (stderr w) (stdout w) (statuses w)) d = true).
    { apply bool_decide_eq_true. cbn [dirs]. apply elem_of_union. right.
      apply elem_of_list_to_set, list_elem_of_In. apply chain_self. assumption. }
    rewrite Hdd. cbn [orb dirs files stderr stdout statuses].
    unfold write_outcome, written.
    destruct breaks as [[n code]|]; [destruct (n <? String.length text)|];
      reflexivity.
Qed.

Lemma mkdir_then_write (homedir : Path) (text : string) (w : World) :
  let p := AuthManager.authPath (AuthManager.new homedir) in
  can_save w p = true ->
  exists dirs',
    (let* present := fs.existsSync (path.dirname p) in
     (if negb present then fs.mkdirSync_recursive (path.dirname p) else ret tt);;
     fs.writeFileSync p text) w
    = (Returned tt, mkWorld dirs' (<[p := text]> (files w))
                            (stderr w) (stdout w) (statuses w)).
Proof.
  intros p Hcan. exists (dirs_after w p).
  exact (mkdir_then_write_under None homedir text w Hcan).
Qed.

(** ** [runAuthentication] once the login is seen *)

Lemma bind_regroup {A B C D : Type} (m : Action A) (f : A -> Action B)
    (g : Action C) (h : Action D) (w : World) :
  bind m (fun x => bind (f x) (fun _ => bind g (fun _ => h))) w =
  bind (bind m (fun x => bind (f x) (fun _ => g))) (fun _ => h) w.
Proof.
  unfold bind. destruct (m w) as [[a|e|] w1]; try reflexivity.
  destruct (f a w1) as [[u|e|] w2]; try reflexivity.
Qed.

Lemma bind_returned {A B : Type} (m : Action A) (k : A -> Action B)
    (w w' : World) (a : A) :
  m w = (Returned a, w') -> bind m k w = k a w'.
Proof. intros H. unfold bind. rewrite H. reflexivity. Qed.

Lemma bind_outcome {A B : Type} (m : Action A) (k : A -> Action B)
    (w w' : World) (o : Outcome A) :
  m w = (o, w') ->
  bind m k w = match o with
               | Returned a => k a w'
               | Threw e => (Threw e, w')
               | Hangs => (Hangs, w')
               end.
Proof. intros H. unfold bind. rewrite H. destruct o; reflexivity. Qed.

Lemma report_lines_split (self : AuthManager.t) (cookieMap : JsMap.t string) :
  report_lines self cookieMap
  = (lines_before_write cookieMap
     ++ [("Authentication successful! Cookies saved to "
          ++ path.to_string (AuthManager.authPath self))%string])%list.
Proof.
  unfold report_lines, lines_before_write. rewrite <- !List.app_assoc. reflexivity.
Qed.

(** Reading the jar at [now] on a disk where nothing stands in the way,
    [extract_and_save] reaches the write of the record; how it ends and what
    it leaves is then decided by the platform. *)
Lemma extract_and_save_under_world (faults : Faults) (homedir : Path) (b : Browser)
    (now clock : Z) (w : World) :
  let self := AuthManager.new homedir in
  let cookieMap := cookieMap_at b now in
  let text := record_text b now clock in
  can_save w (AuthManager.authPath self) = true ->
  AuthManager.extract_and_save_under faults self b now clock w =
  (save_outcome faults text,
   mkWorld (dirs_after w (AuthManager.authPath self))
     (<[AuthManager.authPath self := written (write_breaks faults) text]> (files w))
     (stderr w ++ save_lines faults self cookieMap text)
     (stdout w)
     (statuses w ++ ["Extracting secure session cookies..."])).
Proof.
  intros self cookieMap text Hcan.
  set (w1 := mkWorld (dirs w) (files w) (stderr w) (stdout w)
               (statuses w ++ ["Extracting secure session cookies..."])).
  set (w2 := mkWorld (dirs w) (files w)
               (stderr w ++ (if 0 <? List.length (AuthManager.missingCookies_of cookieMap)
                             then [warning_line (AuthManager.missingCookies_of cookieMap)]
                             else []))
               (stdout w)
               (statuses w ++ ["Extracting secure session cookies..."])).
  set (w3 := mkWorld (dirs w) (files w)
               (stderr w2 ++ [("Extracted " ++ JsString.of_nat (JsMap.size cookieMap)
                         ++ " unique cookies for notebooklm.google.com")%string])
               (stdout w)
               (statuses w ++ ["Extracting secure session cookies..."])).
  assert (Hcan3 : can_save w3 (AuthManager.authPath self) = true) by exact Hcan.
  pose proof (mkdir_then_write_under (write_breaks faults) homedir text w3 Hcan3)
    as Hwrite.
  unfold AuthManager.extract_and_save_under.
  fold self. fold (cookieMap_at b now). fold cookieMap.
  change (Json.stringify
            (AuthManager.authData (AuthManager.cookieString_of cookieMap) clock))
    with text.
  unfold bind at 1. unfold onStatus at 1. cbv beta iota. fold w1.
  unfold bind at 1.
  assert (Hwarn :
    (if 0 <? List.length (AuthManager.missingCookies_of cookieMap)
     then console_error ("Warning: Missing required cookies: "
                         ++ JsString.join ", " (AuthManager.missingCookies_of cookieMap))
     else ret tt) w1 = (Returned tt, w2)).
  { unfold w2, w1. destruct (0 <? List.length (AuthManager.missingCookies_of cookieMap)).
    - reflexivity.
    - unfold ret. simpl. rewrite List.app_nil_r. reflexivity. }
  rewrite Hwarn. cbv beta iota.
  unfold bind at 1. unfold console_error at 1. cbv beta iota.
  change (mkWorld (dirs w2) (files w2) _ (stdout w2) (statuses w2)) with w3.
  rewrite bind_regroup.
  rewrite (bind_outcome _ _ _ _ _ Hwrite).
  unfold save_outcome, save_lines.
  assert (Hbefore : (stderr w3 = stderr w ++ lines_before_write cookieMap)%list).
  { unfold w3, w2, lines_before_write. cbn [stderr].
    rewrite <- !List.app_assoc. reflexivity. }
  destruct (write_outcome (write_breaks faults) text) as [[]|e|].
  - unfold bind, console_error, AuthManager.browser_close.
    cbn [dirs files stderr stdout statuses].
    rewrite report_lines_split, List.app_assoc, <- Hbefore.
    destruct (close_rejects faults); reflexivity.
  - cbn [dirs files stderr stdout statuses]. rewrite <- Hbefore. reflexivity.
  - cbn [dirs files stderr stdout statuses]. rewrite <- Hbefore. reflexivity.
Qed.

(** Reading the jar at [now], [extract_and_save] returns, after writing the
    stringified record and printing the report. *)
Lemma extract_and_save_spec (homedir : Path) (b : Browser) (now clock : Z) (w : World) :
  let self := AuthManager.new homedir in
  let cookieMap := cookieMap_at b now in
  can_save w (AuthManager.authPath self) = true ->
  exists dirs',
    AuthManager.extract_and_save self b now clock w =
    (Returned tt,
     mkWorld dirs'
       (<[AuthManager.authPath self :=
            Json.stringify (AuthManager.authData (AuthManager.cookieString_of cookieMap) clock)]>
          (files w))
       (stderr w ++ report_lines self cookieMap)
       (stdout w)
       (statuses w ++ ["Extracting secure session cookies..."])).
Proof.
  intros self cookieMap Hcan.
  exists (dirs_after w (AuthManager.authPath self)).
  exact (extract_and_save_under_world no_faults homedir b now clock w Hcan).
Qed.

(** ** [toISOString] *)

Lemma civil_bounds (day : Z) :
  let '(y, m, d) := JsDate.civil day in
  (1 <= m <= 12 /\ 1 <= d <= 31 /\
   (day + 719468) / 146097 * 400 <= y <= (day + 719468) / 146097 * 400 + 400)%Z.
Proof.
  unfold JsDate.civil.
  set (z := (day + 719468)%Z).
  set (era := (z / 146097)%Z).
  set (doe := (z mod 146097)%Z).
  assert (Hdoe : (0 <= doe < 146097)%Z) by (apply Z.mod_pos_bound; lia).
  clearbody doe era. clear z.
  set (yoe := ((doe - doe / 1460 + doe / 36524 - doe / 146096) / 365)%Z).
  set (doy := (doe - (365 * yoe + yoe / 4 - yoe / 100))%Z).
  assert (Hy : (0 <= yoe <= 399 /\ 0 <= doy <= 365)%Z).
  { subst doy yoe. Z.to_euclidean_division_equations; lia. }
  clearbody doy yoe. clear Hdoe doe.
  set (mp := ((5 * doy + 2) / 153)%Z).
  assert (Hmp : (0 <= mp <= 11 /\ 1 <= doy - (153 * mp + 2) / 5 + 1 <= 31)%Z).
  { subst mp. Z.to_euclidean_division_equations; lia. }
  clearbody mp.
  destruct (Z.ltb_spec mp 10);
    match goal with
    | |- context [(?m <=? 2)%Z] => destruct (Z.leb_spec m 2)
    end; lia.
Qed.

Lemma nat_of_digit (n : Z) :
  nat_of_ascii (JsDate.digit n) = 48 + Z.to_nat (n mod 10).
Proof.
  unfold JsDate.digit. apply nat_ascii_embedding.
  assert (0 <= n mod 10 < 10)%Z by (apply Z.mod_pos_bound; lia). lia.
Qed.

Lemma is_digit_digit (n : Z) : JsDate.is_digit (JsDate.digit n) = true.
Proof.
  unfold JsDate.is_digit. rewrite nat_of_digit.
  assert (0 <= n mod 10 < 10)%Z by (apply Z.mod_pos_bound; lia).
  apply andb_true_iff. split; apply Nat.leb_le; lia.
Qed.

Lemma two_digits_fixed (n : Z) (lo hi : nat) :
  (Z.of_nat lo <= n <= Z.of_nat hi)%Z -> hi <= 99 ->
  JsDate.two_digits (JsDate.digit (n / 10)) (JsDate.digit n) lo hi = true.
Proof.
  intros Hn Hhi. unfold JsDate.two_digits.
  rewrite !is_digit_digit, !nat_of_digit. cbv beta zeta. cbn [andb].
  assert (0 <= n mod 10 < 10)%Z by (apply Z.mod_pos_bound; lia).
  assert (0 <= (n / 10) mod 10 < 10)%Z by (apply Z.mod_pos_bound; lia).
  assert (Hval : 10 * (48 + Z.to_nat ((n / 10) mod 10) - 48)
                 + (48 + Z.to_nat (n mod 10) - 48) = Z.to_nat n).
  { apply Nat2Z.inj. rewrite Z2Nat.id by lia.
    rewrite Nat2Z.inj_add, Nat2Z.inj_mul, !Nat2Z.inj_sub, !Nat2Z.inj_add by lia.
    rewrite !Z2Nat.id by lia.
    Z.to_euclidean_division_equations; lia. }
  rewrite Hval. apply andb_true_iff. split; apply Nat.leb_le; lia.
Qed.

Lemma is_iso8601_tail_fields (m d h mi s f : Z) :
  (1 <= m <= 12)%Z -> (1 <= d <= 31)%Z -> (0 <= h <= 23)%Z ->
  (0 <= mi <= 59)%Z -> (0 <= s <= 59)%Z ->
  JsDate.is_iso8601_tail
    ("-" ++ JsDate.fixed 2 m ++ "-" ++ JsDate.fixed 2 d
     ++ "T" ++ JsDate.fixed 2 h ++ ":" ++ JsDate.fixed 2 mi
     ++ ":" ++ JsDate.fixed 2 s ++ "." ++ JsDate.fixed 3 f ++ "Z") = true.
Proof.
  intros Hm Hd Hh Hmi Hs.
  unfold JsDate.fixed. cbn [JsDate.fixed_acc String.append JsDate.is_iso8601_tail].
  rewrite !two_digits_fixed by (simpl; lia).
  rewrite !is_digit_digit. reflexivity.
Qed.

Lemma is_iso8601_year (y : Z) (tail : string) :
  (-999999 <= y <= 999999)%Z ->
  JsDate.is_iso8601_tail tail = true ->
  JsDate.is_iso8601 (JsDate.year_string y ++ tail) = true.
Proof.
  intros Hy Htail. unfold JsDate.year_string.
  destruct ((0 <=? y)%Z && (y <=? 9999)%Z).
  - unfold JsDate.fixed. cbn [JsDate.fixed_acc String.append JsDate.is_iso8601].
    rewrite !is_digit_digit, Htail. reflexivity.
  - assert (Hsign : forall sign : string, sign = "-" \/ sign = "+" ->
        JsDate.is_iso8601 ((sign ++ JsDate.fixed 6 (Z.abs y)) ++ tail) = true).
    { intros sign [->| ->]; unfold JsDate.fixed;
        cbn [JsDate.fixed_acc String.append JsDate.is_iso8601];
        rewrite !is_digit_digit, Htail; reflexivity. }
    destruct (y <? 0)%Z; apply Hsign; auto.
Qed.

(** Every time value a [Date] can hold prints as an ISO-8601 date-time. *)
Lemma toISOString_is_iso8601 (t : Z) :
  (- JsDate.maxTime <= t <= JsDate.maxTime)%Z ->
  JsDate.is_iso8601 (JsDate.toISOString t) = true.
Proof.
  intros Ht. unfold JsDate.toISOString.
  pose proof (civil_bounds (t / JsDate.msPerDay)) as Hcivil.
  destruct (JsDate.civil (t / JsDate.msPerDay)) as [[y m] d].
  destruct Hcivil as (Hm & Hd & Hy).
  set (ms := (t mod JsDate.msPerDay)%Z).
  assert (Hms : (0 <= ms < 86400000)%Z) by (apply Z.mod_pos_bound; reflexivity).
  unfold JsDate.maxTime, JsDate.msPerDay in *.
  apply is_iso8601_year.
  - Z.to_euclidean_division_equations; lia.
  - apply is_iso8601_tail_fields; try assumption;
      Z.to_euclidean_division_equations; lia.
Qed.

(** ** [getSavedCookies] *)

Lemma getSavedCookies_of_record (self : AuthManager.t) (w : World)
    (fields : list (string * string)) :
  files w !! AuthManager.authPath self = Some (Json.stringify fields) ->
  AuthManager.getSavedCookies self w
  = (Returned (Json.property
                 (List.map (fun kv => (fst kv, Json.JString (snd kv))) fields)
                 "cookies"), w).
Proof.
  intros Hfile. unfold AuthManager.getSavedCookies, bind, fs.existsSync, fs.is_file.
  rewrite Hfile, orb_true_r. simpl.
  unfold fs.readFileSync. rewrite Hfile.
  unfold JSON_parse. rewrite parse_stringify. reflexivity.
Qed.

Lemma getSavedCookies_missing (self : AuthManager.t) (w : World) :
  fs.existsSync (AuthManager.authPath self) w = (Returned false, w) ->
  AuthManager.getSavedCookies self w = (Threw AuthManager.NotAuthenticated, w).
Proof.
  intros Hex. unfold AuthManager.getSavedCookies.
  rewrite (bind_returned _ _ _ _ _ Hex). reflexivity.
Qed.

Lemma writeFileSync_returned (p : Path) (text : string) (w w' : World) :
  fs.writeFileSync p text w = (Returned tt, w') -> files w' !! p = Some text.
Proof.
  unfold fs.writeFileSync, fs.writeFileSync_under. intros H.
  destruct (fs.is_dir w p); [discriminate|].
  destruct (existsb (fs.is_file w) (fs.chain (path.dirname p))); [discriminate|].
  destruct (fs.is_dir w (path.dirname p) || bool_decide (path.dirname p = []));
    [|discriminate].
  injection H as <-. simpl. apply lookup_insert_eq.
Qed.

(** C6. For every cookie string [s]: once the record with cookies [s] has
    been written to the store, [getSavedCookies()] returns exactly [s]; and
    when nothing exists at the place of the record, [getSavedCookies()]
    throws the not-authenticated error instead of returning. *)
Theorem C6_saved_cookies_round_trip (homedir : Path) :
  let self := AuthManager.new homedir in
  (forall (s : string) (clock : Z) (w w' : World),
     fs.writeFileSync (AuthManager.authPath self)
       (Json.stringify (AuthManager.authData s clock)) w = (Returned tt, w') ->
     AuthManager.getSavedCookies self w' = (Returned (Some (Json.JString s)), w')) /\
  (forall w : World,
     fs.existsSync (AuthManager.authPath self) w = (Returned false, w) ->
     AuthManager.getSavedCookies self w = (Threw AuthManager.NotAuthenticated, w)).
Proof.
  intros self. split.
  - intros s clock w w' Hwrite.
    apply writeFileSync_returned in Hwrite.
    rewrite (getSavedCookies_of_record _ _ _ Hwrite). reflexivity.
  - intros w. apply getSavedCookies_missing.
Qed.

(** The record of scenario A, written in a world that has the directory, and
    the empty world. *)
Lemma C6_witness :
  let self := AuthManager.new ["home"; "user"] in
  let s := "SID=a; HSID=b; SSID=c; APISID=d; SAPISID=e" in
  let w := mkWorld {[ ["home"; "user"; ".notebooklm-mcp"] ]} ∅ [] [] [] in
  (exists w', AuthManager.getSavedCookies self w'
              = (Returned (Some (Json.JString s)), w')) /\
  AuthManager.getSavedCookies self empty_world
  = (Threw AuthManager.NotAuthenticated, empty_world).
Proof.
  intros self s w.
  destruct (C6_saved_cookies_round_trip ["home"; "user"]) as [Hsave Hnone]. split.
  - eexists. apply (Hsave s 1700000000000%Z w). vm_compute. reflexivity.
  - apply Hnone. vm_compute. reflexivity.
Defined.

(** ** [runAuthentication] after a login *)

Lemma runAuthentication_logged_in (homedir : Path) (b : Browser) (clock : Z)
    (w : World) (at_ms : Z) :
  let self := AuthManager.new homedir in
  let cookieMap := cookieMap_at b (reading_instant b at_ms) in
  AuthManager.wait_for_login b = Some (Fulfilled at_ms) ->
  can_save w (AuthManager.authPath self) = true ->
  exists dirs' statuses',
    AuthManager.runAuthentication self b clock w =
    (Returned tt,
     mkWorld dirs'
       (<[AuthManager.authPath self :=
            Json.stringify (AuthManager.authData (AuthManager.cookieString_of cookieMap) clock)]>
          (files w))
       (stderr w ++ report_lines self cookieMap)
       (stdout w)
       statuses').
Proof.
  intros self cookieMap Hwait Hcan. subst self.
  unfold AuthManager.runAuthentication, AuthManager.runAuthentication_under.
  change (AuthManager.extract_and_save_under no_faults) with AuthManager.extract_and_save. rewrite Hwait.
  unfold bind at 1 2 3. unfold onStatus at 1 2 3. cbv beta iota.
  cbn [dirs files stderr stdout statuses].
  subst cookieMap. unfold reading_instant.
  destruct (List.existsb AuthManager.is_session_cookie (jar b at_ms)); cbn [negb].
  - match goal with |- context [AuthManager.extract_and_save _ _ _ _ ?w0] =>
      destruct (extract_and_save_spec homedir b at_ms clock w0 Hcan) as (dirs' & ->)
    end.
    eexists _, _. reflexivity.
  - unfold bind at 1. unfold onStatus at 1. cbv beta iota.
    cbn [dirs files stderr stdout statuses].
    match goal with |- context [AuthManager.extract_and_save _ _ _ _ ?w0] =>
      destruct (extract_and_save_spec homedir b (at_ms + 3000) clock w0 Hcan) as (dirs' & ->)
    end.
    eexists _, _. reflexivity.
Qed.

Lemma missingCookies_of_spec (cookieMap : JsMap.t string) (n : string) :
  In n (AuthManager.missingCookies_of cookieMap) <->
  In n AuthManager.REQUIRED_COOKIES /\ ~ In n (JsMap.keys cookieMap).
Proof.
  unfold AuthManager.missingCookies_of. rewrite List.filter_In.
  rewrite negb_true_iff, has_false_iff. reflexivity.
Qed.

(** C8. When a required cookie name is absent from the cookie map that is
    extracted after a login, [runAuthentication] prints the warning that
    lists the missing names and still returns: the cookie string is written
    to the store, from which [getSavedCookies()] reads it back. *)
Theorem C8_missing_required_cookies_only_warn (homedir : Path) (b : Browser)
    (clock : Z) (w : World) (at_ms : Z) :
  let self := AuthManager.new homedir in
  let cookieMap := cookieMap_at b (reading_instant b at_ms) in
  let cookieString := AuthManager.cookieString_of cookieMap in
  AuthManager.wait_for_login b = Some (Fulfilled at_ms) ->
  can_save w (AuthManager.authPath self) = true ->
  (exists n, In n AuthManager.REQUIRED_COOKIES /\ ~ In n (JsMap.keys cookieMap)) ->
  exists w',
    AuthManager.runAuthentication self b clock w = (Returned tt, w') /\
    In (warning_line (AuthManager.missingCookies_of cookieMap)) (stderr w') /\
    (forall n, In n (AuthManager.missingCookies_of cookieMap) <->
               In n AuthManager.REQUIRED_COOKIES /\ ~ In n (JsMap.keys cookieMap)) /\
    files w' !! AuthManager.authPath self
      = Some (Json.stringify (AuthManager.authData cookieString clock)) /\
    AuthManager.getSavedCookies self w'
    = (Returned (Some (Json.JString cookieString)), w').
Proof.
  intros self cookieMap cookieString Hwait Hcan (n & Hreq & Habsent).
  destruct (runAuthentication_logged_in homedir b clock w at_ms Hwait Hcan)
    as (dirs' & statuses' & Hrun).
  fold self cookieMap cookieString in Hrun.
  eexists. split; [exact Hrun|].
  assert (Hfile : forall d f e o s text,
            files (mkWorld d (<[AuthManager.authPath self := text]> f) e o s)
              !! AuthManager.authPath self = Some text).
  { intros. simpl. apply lookup_insert_eq. }
  split; [|split; [|split]].
  - cbn [stderr]. apply List.in_or_app. right. unfold report_lines.
    destruct (AuthManager.missingCookies_of cookieMap) as [|m ms] eqn:Hmiss.
    + exfalso. assert (Hin : In n (AuthManager.missingCookies_of cookieMap)).
      { apply missingCookies_of_spec. auto. }
      rewrite Hmiss in Hin. destruct Hin.
    + left. reflexivity.
  - intros n'. apply missingCookies_of_spec.
  - apply Hfile.
  - rewrite (getSavedCookies_of_record self _ _ (Hfile _ _ _ _ _ _)). reflexivity.
Qed.

(** A login seen at once, with a jar that holds only [SID] for the target. *)
Lemma C8_witness :
  let b := mkBrowser None None None
             (fun _ => [mkCookie "SID" "s1" "notebooklm.google.com" "/" true])
             (fun _ => "https://notebooklm.google.com/") in
  let self := AuthManager.new ["home"; "user"] in
  exists w',
    AuthManager.runAuthentication self b 1700000000000%Z empty_world = (Returned tt, w') /\
    In "Warning: Missing required cookies: HSID, SSID, APISID, SAPISID" (stderr w') /\
    AuthManager.getSavedCookies self w' = (Returned (Some (Json.JString "SID=s1")), w').
Proof.
  intros b self.
  destruct (C8_missing_required_cookies_only_warn
              ["home"; "user"] b 1700000000000%Z empty_world 0%Z)
    as (w' & Hrun & Hwarn & _ & _ & Hload).
  - vm_compute. reflexivity.
  - vm_compute. reflexivity.
  - exists "HSID". split.
    + simpl. auto.
    + vm_compute. intros [H|[]]. discriminate.
  - exists w'. split; [exact Hrun|]. split; [exact Hwarn | exact Hload].
Defined.

(** C9. The record [runAuthentication] writes is the JSON text of an object
    with the two members [cookies] and [updatedAt], in this order; [cookies]
    is the string of the entries of the cookie map, each printed as
    name=value and joined by a semicolon and a space, and [updatedAt] is an
    ISO-8601 date-time. *)
Theorem C9_persisted_record_shape (homedir : Path) (b : Browser)
    (clock : Z) (w : World) (at_ms : Z) :
  let self := AuthManager.new homedir in
  let cookieMap := cookieMap_at b (reading_instant b at_ms) in
  AuthManager.wait_for_login b = Some (Fulfilled at_ms) ->
  can_save w (AuthManager.authPath self) = true ->
  (- JsDate.maxTime <= clock <= JsDate.maxTime)%Z ->
  exists w' text cookies updatedAt,
    AuthManager.runAuthentication self b clock w = (Returned tt, w') /\
    files w' !! AuthManager.authPath self = Some text /\
    text = Json.stringify [("cookies", cookies); ("updatedAt", updatedAt)] /\
    Json.parse text = Some (Json.record [("cookies", cookies); ("updatedAt", updatedAt)]) /\
    cookies = JsString.join "; "
                (List.map (fun nv => (fst nv ++ "=" ++ snd nv)%string)
                          (JsMap.entries cookieMap)) /\
    JsDate.is_iso8601 updatedAt = true.
Proof.
  intros self cookieMap Hwait Hcan Hclock.
  destruct (runAuthentication_logged_in homedir b clock w at_ms Hwait Hcan)
    as (dirs' & statuses' & Hrun).
  fold self cookieMap in Hrun.
  eexists _, _, _, _. split; [exact Hrun|].
  split; [cbn [files]; apply lookup_insert_eq|].
  split; [reflexivity|].
  split; [apply parse_stringify|].
  split; [reflexivity|].
  apply toISOString_is_iso8601. assumption.
Qed.

(** A login seen through the page URL after 1.5 s, saved on an empty disk. *)
Lemma C9_witness :
  let b := mkBrowser (Some 1500%Z) None None
             (fun _ => [mkCookie "SID" "s1" ".google.com" "/" true;
                        mkCookie "OSID" "o1" "notebooklm.google.com" "/" true])
             (fun _ => "https://notebooklm.google.com/") in
  let self := AuthManager.new ["home"; "user"] in
  exists w' text cookies updatedAt,
    AuthManager.runAuthentication self b 1700000000000%Z empty_world = (Returned tt, w') /\
    files w' !! AuthManager.authPath self = Some text /\
    text = Json.stringify [("cookies", cookies); ("updatedAt", updatedAt)] /\
    Json.parse text = Some (Json.record [("cookies", cookies); ("updatedAt", updatedAt)]) /\
    cookies = JsString.join "; "
                (List.map (fun nv => (fst nv ++ "=" ++ snd nv)%string)
                   (JsMap.entries (cookieMap_at b (reading_instant b 0)))) /\
    JsDate.is_iso8601 updatedAt = true.
Proof.
  intros b self.
  apply (C9_persisted_record_shape ["home"; "user"] b 1700000000000%Z empty_world 0%Z).
  - vm_compute. reflexivity.
  - vm_compute. reflexivity.
  - vm_compute. split; discriminate.
Defined.

(** ** Waiting for the login *)

Lemma waitFor_bound (timeout : Z) (ready : option Z) :
  (AuthManager.settled_at (AuthManager.waitFor timeout ready) <= timeout)%Z.
Proof.
  unfold AuthManager.waitFor. destruct ready as [t|]; simpl; [|lia].
  destruct (Z.ltb_spec t timeout); simpl; lia.
Qed.

Lemma waitFor_timed_out (timeout : Z) (ready : option Z) :
  (forall t, ready = Some t -> (timeout <= t)%Z) ->
  AuthManager.waitFor timeout ready = Rejected timeout.
Proof.
  intros H. unfold AuthManager.waitFor. destruct ready as [t|]; [|reflexivity].
  destruct (Z.ltb_spec t timeout); [|reflexivity].
  specialize (H t eq_refl). lia.
Qed.

Lemma first_of_bound (a b : Settlement) :
  (AuthManager.settled_at (AuthManager.first_of a b) <= AuthManager.settled_at a)%Z.
Proof.
  unfold AuthManager.first_of.
  destruct (Z.ltb_spec (AuthManager.settled_at b) (AuthManager.settled_at a)); lia.
Qed.

(** A race with a promise that settles does settle, and no later. *)
Lemma Promise_race_head (a : Settlement) (rest : list (option Settlement)) :
  exists s, AuthManager.Promise_race (Some a :: rest) = Some s /\
            (AuthManager.settled_at s <= AuthManager.settled_at a)%Z.
Proof.
  simpl. destruct (AuthManager.Promise_race rest) as [r|].
  - exists (AuthManager.first_of a r). split; [reflexivity | apply first_of_bound].
  - exists a. split; [reflexivity | lia].
Qed.

(** When [checkLoop] fulfils its promise, it does so at a pass where the
    flag is not set and the check succeeds. *)
Lemma checkLoop_Some (b : Browser) (ws : list Settlement) (fuel : nat) (t0 : Z)
    (s : Settlement) :
  AuthManager.checkLoop b ws fuel t0 = Some s ->
  exists t, s = Fulfilled t /\ (t0 <= t)%Z /\
            AuthManager.isDone ws t = false /\ AuthManager.cookie_check b t = true.
Proof.
  revert t0. induction fuel as [|fuel IH]; intros t0; simpl; [discriminate|].
  destruct (AuthManager.isDone ws t0) eqn:Hdone; [discriminate|].
  destruct (AuthManager.cookie_check b t0) eqn:Hcheck.
  - intros [= <-]. exists t0. repeat split; auto. lia.
  - intros H. apply IH in H as (t & -> & Hle & Hd & Hc).
    exists t. repeat split; auto. lia.
Qed.

(** Fuel beyond the passes that fit before the flag is set changes nothing. *)
Lemma checkLoop_fuel (b : Browser) (ws : list Settlement) (bound : Z) :
  (forall t, (bound <= t)%Z -> AuthManager.isDone ws t = true) ->
  forall (fuel fuel' : nat) (t0 : Z),
    (bound <= t0 + 2000 * Z.of_nat fuel - 2000)%Z ->
    (bound <= t0 + 2000 * Z.of_nat fuel' - 2000)%Z ->
    AuthManager.checkLoop b ws fuel t0 = AuthManager.checkLoop b ws fuel' t0.
Proof.
  intros Hdone fuel.
  induction fuel as [|fuel IH]; intros fuel' t0 Hf Hf'.
  - destruct fuel' as [|fuel']; [reflexivity|]. simpl.
    rewrite Hdone by lia. reflexivity.
  - destruct fuel' as [|fuel'].
    + simpl. rewrite Hdone by lia. reflexivity.
    + simpl. destruct (AuthManager.isDone ws t0) eqn:Hd; [reflexivity|].
      destruct (AuthManager.cookie_check b t0); [reflexivity|].
      apply IH; lia.
Qed.

Lemma isDone_waits (b : Browser) (t : Z) :
  (AuthManager.timeout <= t)%Z -> AuthManager.isDone (AuthManager.waits b) t = true.
Proof.
  intros Ht. unfold AuthManager.isDone, AuthManager.waits. simpl.
  pose proof (waitFor_bound AuthManager.timeout (url_ready b)).
  apply orb_true_iff. left. apply Z.leb_le. lia.
Qed.

(** The passes [wait_for_login] allows are enough: more change nothing. *)
Lemma checkLoop_passes_enough (b : Browser) (fuel : nat) :
  AuthManager.passes <= fuel ->
  AuthManager.checkLoop b (AuthManager.waits b) fuel 0 =
  AuthManager.checkLoop b (AuthManager.waits b) AuthManager.passes 0.
Proof.
  intros Hfuel.
  apply (checkLoop_fuel b (AuthManager.waits b) AuthManager.timeout (isDone_waits b)).
  - assert (Hp : AuthManager.passes = 152) by reflexivity.
    unfold AuthManager.timeout. lia.
  - assert (Hp : AuthManager.passes = 152) by reflexivity.
    rewrite Hp. unfold AuthManager.timeout. lia.
Qed.

Lemma wait_for_login_bounded (b : Browser) :
  exists s, AuthManager.wait_for_login b = Some s /\
            (AuthManager.settled_at s <= AuthManager.timeout)%Z.
Proof.
  unfold AuthManager.wait_for_login, AuthManager.waits. cbn [List.map List.app].
  destruct (Promise_race_head
              (AuthManager.waitFor AuthManager.timeout (url_ready b))
              [Some (AuthManager.waitFor AuthManager.timeout (main_ready b));
               Some (AuthManager.waitFor AuthManager.timeout (account_ready b));
               AuthManager.checkLoop b (AuthManager.waits b) AuthManager.passes 0])
    as (s & Hs & Hle).
  exists s. split; [exact Hs|].
  pose proof (waitFor_bound AuthManager.timeout (url_ready b)). lia.
Qed.

Lemma wait_for_login_times_out (b : Browser) :
  no_signal_within b ->
  AuthManager.wait_for_login b = Some (Rejected AuthManager.timeout).
Proof.
  intros (Hurl & Hmain & Hacc & Hcheck).
  unfold AuthManager.wait_for_login, AuthManager.waits.
  rewrite !waitFor_timed_out by assumption.
  destruct (AuthManager.checkLoop b _ AuthManager.passes 0) as [s|] eqn:Hloop.
  - exfalso. apply checkLoop_Some in Hloop as (t & _ & Hle & Hdone & Hc).
    unfold AuthManager.isDone in Hdone. simpl in Hdone.
    apply orb_false_iff in Hdone as [Hdone _]. apply Z.leb_gt in Hdone.
    rewrite Hcheck in Hc by lia. discriminate.
  - reflexivity.
Qed.

Lemma extract_and_save_settles (self : AuthManager.t) (b : Browser) (now clock : Z)
    (w : World) :
  fst (AuthManager.extract_and_save self b now clock w) <> Hangs.
Proof.
  unfold AuthManager.extract_and_save, AuthManager.extract_and_save_under,
    AuthManager.browser_close, bind, onStatus, console_error, ret,
    fs.existsSync, fs.mkdirSync_recursive, fs.writeFileSync_under.
  cbn [no_faults write_breaks close_rejects].
  repeat match goal with
         | |- context [if ?c then _ else _] => destruct c; simpl
         end; discriminate.
Qed.

(** C7. The interactive login is one race of all the login signals with
    the three timed waits, each of 300000 ms (five minutes): the race always
    settles, at the latest at the timeout, so that [runAuthentication] never
    hangs; and when no signal comes within the timeout, the race is rejected
    at the timeout and [runAuthentication] throws the time-out error. *)
Theorem C7_login_wait_is_bounded (b : Browser) :
  AuthManager.timeout = (5 * 60 * 1000)%Z /\
  (exists s, AuthManager.wait_for_login b = Some s /\
             (AuthManager.settled_at s <= AuthManager.timeout)%Z) /\
  (forall self clock w,
     fst (AuthManager.runAuthentication self b clock w) <> Hangs) /\
  (no_signal_within b ->
   AuthManager.wait_for_login b = Some (Rejected AuthManager.timeout) /\
   forall self clock w,
     fst (AuthManager.runAuthentication self b clock w)
     = Threw AuthManager.AuthenticationTimeout).
Proof.
  split; [reflexivity|]. split; [apply wait_for_login_bounded|]. split.
  - intros self clock w. unfold AuthManager.runAuthentication, AuthManager.runAuthentication_under.
  change (AuthManager.extract_and_save_under no_faults) with AuthManager.extract_and_save.
    destruct (wait_for_login_bounded b) as (s & -> & _).
    unfold bind at 1 2 3. unfold onStatus at 1 2 3. cbv beta iota.
    destruct s as [t|t].
    + destruct (negb _).
      * unfold bind at 1. unfold onStatus at 1. cbv beta iota.
        apply extract_and_save_settles.
      * apply extract_and_save_settles.
    + discriminate.
  - intros Hnone. pose proof (wait_for_login_times_out b Hnone) as Hwait.
    split; [exact Hwait|]. intros self clock w.
    unfold AuthManager.runAuthentication, AuthManager.runAuthentication_under.
  change (AuthManager.extract_and_save_under no_faults) with AuthManager.extract_and_save. rewrite Hwait. reflexivity.
Qed.

(** A browser that stays on the sign-in page of the identity provider. *)
Lemma C7_witness :
  let b := mkBrowser None None None (fun _ => [])
             (fun _ => "https://accounts.google.com/signin") in
  AuthManager.wait_for_login b = Some (Rejected 300000%Z) /\
  fst (AuthManager.runAuthentication (AuthManager.new ["home"; "user"]) b 0%Z empty_world)
  = Threw (Error "Authentication timed out or browser was closed.").
Proof.
  intros b.
  destruct (C7_login_wait_is_bounded b) as (_ & _ & _ & Hnone).
  destruct Hnone as [Hwait Hrun].
  - unfold no_signal_within. simpl. repeat split; try discriminate.
  - split; [exact Hwait | apply Hrun].
Defined.

(** ** The bootstrap of the session context *)

(** C3. A bootstrap whose fetch of the entry page ends on the identity
    provider fails with [SessionExpired] and leaves the session context as it
    was; on a context that has not bootstrapped, neither [csrfToken] nor
    [sessionId] is set afterwards. *)
Theorem C3_bootstrap_fails_closed_on_redirect
    (ctx : SessionContext.t) (page : SessionContext.EntryPage) :
  SessionContext.resolves_to_identity_provider page = true ->
  SessionContext.bootstrap ctx page = (inl SessionContext.SessionExpired, ctx) /\
  SessionContext.csrfToken (snd (SessionContext.bootstrap SessionContext.fresh page)) = None /\
  SessionContext.sessionId (snd (SessionContext.bootstrap SessionContext.fresh page)) = None.
Proof.
  intros Hidp. unfold SessionContext.bootstrap. rewrite Hidp. auto.
Qed.

(** A fetch redirected to the sign-in page, whose body even carries both
    markers. *)
Lemma C3_witness :
  let page := SessionContext.mkPage
                "https://accounts.google.com/v3/signin/identifier?continue=https://notebooklm.google.com/"
                (Some "token") (Some "session") in
  SessionContext.bootstrap SessionContext.fresh page
  = (inl SessionContext.SessionExpired, SessionContext.fresh).
Proof.
  intros page.
  apply (C3_bootstrap_fails_closed_on_redirect SessionContext.fresh page).
  vm_compute. reflexivity.
Defined.

(** ** The cookie repair script *)

Lemma set_fresh {V : Type} (m : JsMap.t V) (k : string) (v : V) :
  JsMap.has m k = false -> JsMap.set m k v = (m ++ [(k, v)])%list.
Proof.
  induction m as [|[k' v'] m IH]; simpl; [reflexivity|].
  destruct (String.eqb k' k); [discriminate|].
  intros H. rewrite (IH H). reflexivity.
Qed.

Lemma keep_first_spec (seen : JsMap.t string) (pair : string) :
  FixCookies.keep_first seen pair =
  if JsMap.has seen (pair_name pair) then seen
  else (seen ++ [(pair_name pair, pair_value pair)])%list.
Proof.
  unfold FixCookies.keep_first. fold (pair_name pair). fold (pair_value pair).
  destruct (JsMap.has seen (pair_name pair)) eqn:Hhas; simpl; [reflexivity|].
  apply set_fresh. assumption.
Qed.

Lemma seen_of_snoc (pairs : list string) (pair : string) :
  FixCookies.seen_of (pairs ++ [pair]) =
  FixCookies.keep_first (FixCookies.seen_of pairs) pair.
Proof. unfold FixCookies.seen_of. rewrite List.fold_left_app. reflexivity. Qed.

(** The names the script keeps are the names of the pairs, each once. *)
Lemma seen_of_keys (pairs : list string) :
  List.NoDup (JsMap.keys (FixCookies.seen_of pairs)) /\
  forall n, In n (JsMap.keys (FixCookies.seen_of pairs)) <->
            In n (List.map pair_name pairs).
Proof.
  induction pairs as [|pair pairs [IHnd IH]] using List.rev_ind.
  - split; [constructor | reflexivity].
  - rewrite seen_of_snoc, keep_first_spec, List.map_app. simpl.
    destruct (JsMap.has (FixCookies.seen_of pairs) (pair_name pair)) eqn:Hhas.
    + split; [assumption|]. intros n. rewrite IH, List.in_app_iff. simpl.
      split; [auto|]. intros [H|[<-|[]]]; [assumption|].
      apply IH. apply has_true_iff. assumption.
    + apply has_false_iff in Hhas. unfold JsMap.keys in *.
      rewrite List.map_app. simpl. split.
      * apply List.NoDup_app; repeat split; [assumption | constructor; [intros []|constructor] |].
        intros x Hx [<-|[]]. contradiction.
      * intros n. rewrite !List.in_app_iff, IH. reflexivity.
Qed.

(** The count after the repair is the number of distinct names. *)
Lemma seen_of_size (pairs : list string) :
  JsMap.size (FixCookies.seen_of pairs)
  = List.length (List.nodup string_dec (List.map pair_name pairs)).
Proof.
  destruct (seen_of_keys pairs) as [Hnd Hin].
  unfold JsMap.size. rewrite <- (List.length_map fst).
  apply Permutation.Permutation_length.
  apply Permutation.NoDup_Permutation; [assumption | apply List.NoDup_nodup |].
  intros n. rewrite List.nodup_In. apply Hin.
Qed.

(** C5. On the cookie string "SID=1; SID=2; HSID=x" the repair script
    writes back "SID=1; HSID=x", the first pair of each name, and prints a
    count of 3 before and of 2 after; for every cookie string the count
    before is the number of its pairs and the count after the number of
    distinct names among them. *)
Theorem C5_fixCookies_scenario_B :
  let cookies := "SID=1; SID=2; HSID=x" in
  let homedir := ["home"; "user"] in
  let authPath := path.join homedir [".notebooklm-mcp"; "auth.json"] in
  let w := mkWorld {[ path.dirname authPath ]}
             {[ authPath := Json.stringify [("cookies", cookies);
                                            ("updatedAt", "2024-01-01T00:00:00.000Z")] ]}
             [] [] [] in
  FixCookies.dedupe cookies = "SID=1; HSID=x" /\
  stdout (snd (FixCookies.fixCookies homedir 1700000000000%Z w))
    = ["Before: 3 cookies"; "After: 2 cookies";
       "Saved deduplicated cookies to auth.json"] /\
  files (snd (FixCookies.fixCookies homedir 1700000000000%Z w)) !! authPath
    = Some (Json.stringify [("cookies", "SID=1; HSID=x");
                            ("updatedAt", "2023-11-14T22:13:20.000Z")]) /\
  List.length (JsString.split cookies "; ") = 3 /\
  List.length (List.nodup string_dec
                 (List.map pair_name (JsString.split cookies "; "))) = 2 /\
  forall anyCookies : string,
    let pairs := JsString.split anyCookies "; " in
    JsMap.size (FixCookies.seen_of pairs)
    = List.length (List.nodup string_dec (List.map pair_name pairs)).
Proof.
  cbv zeta. split; [vm_compute; reflexivity|].
  split; [vm_compute; reflexivity|].
  split; [vm_compute; reflexivity|].
  split; [vm_compute; reflexivity|].
  split; [vm_compute; reflexivity|].
  intros anyCookies. apply seen_of_size.
Qed.

(** ** Splitting and joining on the separator *)

Lemma split_go_nonempty (s : string) (skip : nat) : JsString.split_go "; " skip s <> [].
Proof.
  revert skip. induction s as [|c s IH]; intros skip; cbn [JsString.split_go];
    [discriminate|].
  destruct skip as [|k]; [|apply IH].
  destruct (String.prefix "; " (String c s)); [discriminate|].
  specialize (IH 0). destruct (JsString.split_go "; " 0 s); [congruence | simpl; discriminate].
Qed.

Lemma prefix_sep_cons (c : ascii) (s : string) :
  String.prefix "; " (String c s) =
  Ascii.eqb c ";" && match s with String d _ => Ascii.eqb d " " | EmptyString => false end.
Proof.
  change (String.prefix "; " (String c s))
    with (if ascii_dec ";" c then String.prefix " " s else false).
  destruct (ascii_dec ";" c) as [<-|Hne].
  - destruct s as [|d s]; [reflexivity|].
    change (String.prefix " " (String d s))
      with (if ascii_dec " " d then String.prefix EmptyString s else false).
    destruct (ascii_dec " " d) as [<-|Hne]; [destruct s; reflexivity|].
    symmetry. apply Ascii.eqb_neq. congruence.
  - assert (Ascii.eqb c ";" = false) as -> by (apply Ascii.eqb_neq; congruence).
    reflexivity.
Qed.

Lemma split_go_sep (rest : string) :
  JsString.split_go "; " 0 (String ";" (String " " rest))
  = EmptyString :: JsString.split_go "; " 0 rest.
Proof. cbn [JsString.split_go]. rewrite prefix_sep_cons. reflexivity. Qed.

Lemma split_go_cons (c : ascii) (s : string) :
  String.prefix "; " (String c s) = false ->
  JsString.split_go "; " 0 (String c s)
  = JsString.cons_head c (JsString.split_go "; " 0 s).
Proof. intros H. cbn [JsString.split_go]. rewrite H. reflexivity. Qed.

(** A piece without separator, followed by a separator, is split off. *)
Lemma split_go_nosep_app (p rest : string) :
  nosep p = true ->
  JsString.split_go "; " 0 (p ++ "; " ++ rest)
  = p :: JsString.split_go "; " 0 rest.
Proof.
  induction p as [|c p IH]; intros Hp.
  - apply split_go_sep.
  - cbn [nosep] in Hp. apply andb_true_iff in Hp as [Hpre Hp].
    apply negb_true_iff in Hpre.
    change (String c p ++ "; " ++ rest)%string with (String c (p ++ "; " ++ rest)).
    rewrite split_go_cons.
    + rewrite (IH Hp). reflexivity.
    + rewrite prefix_sep_cons in *.
      destruct (Ascii.eqb c ";"); [|reflexivity]. simpl in *.
      destruct p as [|d p]; [reflexivity | exact Hpre].
Qed.

Lemma split_go_nosep (p : string) :
  nosep p = true -> JsString.split_go "; " 0 p = [p].
Proof.
  induction p as [|c p IH]; intros Hp; [reflexivity|].
  cbn [nosep] in Hp. apply andb_true_iff in Hp as [Hpre Hp].
  apply negb_true_iff in Hpre.
  rewrite (split_go_cons _ _ Hpre), (IH Hp). reflexivity.
Qed.

(** Splitting what was joined gives the pieces back. *)
Lemma split_join (pieces : list string) :
  pieces <> [] ->
  List.Forall (fun p => nosep p = true) pieces ->
  JsString.split (JsString.join "; " pieces) "; " = pieces.
Proof.
  unfold JsString.split.
  induction pieces as [|p pieces IH]; [congruence|]. intros _ Hall.
  apply List.Forall_cons_iff in Hall as [Hp Hall].
  destruct pieces as [|q pieces].
  - apply split_go_nosep. assumption.
  - change (JsString.join "; " (p :: q :: pieces))
      with (p ++ "; " ++ JsString.join "; " (q :: pieces))%string.
    rewrite (split_go_nosep_app _ _ Hp), IH; [reflexivity | discriminate | assumption].
Qed.

(** The pieces of a split hold no separator. *)
Lemma split_go_pieces_nosep (s : string) :
  List.Forall (fun p => nosep p = true) (JsString.split_go "; " 0 s) /\
  match JsString.split_go "; " 0 s with
  | p :: _ => p = EmptyString \/ exists c s' p', s = String c s' /\ p = String c p'
  | [] => False
  end.
Proof.
  induction s as [|c s [IHall IHhd]].
  - split; [repeat constructor | left; reflexivity].
  - destruct (String.prefix "; " (String c s)) eqn:Hpre.
    + rewrite prefix_sep_cons in Hpre. apply andb_true_iff in Hpre as [Hc Hs].
      apply Ascii.eqb_eq in Hc as ->.
      destruct s as [|d s]; [discriminate|]. apply Ascii.eqb_eq in Hs as ->.
      rewrite split_go_sep. split; [|left; reflexivity].
      constructor; [reflexivity|].
      (* the pieces after the separator are pieces of the rest *)
      clear IHhd. revert IHall. cbn [JsString.split_go].
      destruct (String.prefix "; " (String " " s)) eqn:Hpre'.
      { rewrite prefix_sep_cons in Hpre'. discriminate. }
      destruct (JsString.split_go "; " 0 s) as [|p ps] eqn:Hsplit.
      { exfalso. exact (split_go_nonempty _ _ Hsplit). }
      simpl. intros Hall. apply List.Forall_cons_iff in Hall as [Hp Hps].
      constructor; [|assumption].
      cbn [nosep] in Hp. apply andb_true_iff in Hp as [_ Hp]. exact Hp.
    + rewrite (split_go_cons _ _ Hpre).
      destruct (JsString.split_go "; " 0 s) as [|p ps] eqn:Hsplit; [destruct IHhd|].
      simpl. apply List.Forall_cons_iff in IHall as [Hp Hps]. split.
      * constructor; [|assumption]. cbn [nosep]. rewrite Hp, andb_true_r.
        apply negb_true_iff. rewrite prefix_sep_cons in *.
        destruct (Ascii.eqb c ";"); [|reflexivity]. simpl in *.
        destruct IHhd as [->|(d & s' & p' & -> & ->)]; [reflexivity | exact Hpre].
      * right. eauto.
Qed.

(** ** Reading a pair *)

Lemma take_app (a b : string) : JsString.take (String.length a) (a ++ b) = a.
Proof.
  induction a as [|c a IH]; simpl.
  - destruct b; reflexivity.
  - rewrite IH. reflexivity.
Qed.

Lemma take_all (a : string) : JsString.take (String.length a) a = a.
Proof. induction a as [|c a IH]; simpl; [reflexivity | rewrite IH; reflexivity]. Qed.

Lemma drop_app (a b : string) : JsString.drop (String.length a) (a ++ b) = b.
Proof. induction a as [|c a IH]; simpl; [destruct b; reflexivity | exact IH]. Qed.

Lemma prefix_eq_cons (c : ascii) (p : string) :
  String.prefix "=" (String c p) = Ascii.eqb c "=".
Proof.
  change (String.prefix "=" (String c p))
    with (if ascii_dec "=" c then String.prefix EmptyString p else false).
  destruct (ascii_dec "=" c) as [<-|Hne]; [destruct p; reflexivity|].
  symmetry. apply Ascii.eqb_neq. congruence.
Qed.

Lemma indexOf_from_eq (p : string) (i : Z) :
  JsString.indexOf_from "=" p i =
  match after_eq p with
  | Some _ => (i + Z.of_nat (String.length (before_eq p)))%Z
  | None => (-1)%Z
  end.
Proof.
  revert i. induction p as [|c p IH]; intros i; [reflexivity|].
  cbn [JsString.indexOf_from after_eq before_eq]. rewrite prefix_eq_cons.
  destruct (Ascii.eqb c "="); [simpl; lia|].
  rewrite IH. destruct (after_eq p); [|reflexivity]. simpl String.length. lia.
Qed.

Lemma eq_decompose (p v : string) :
  after_eq p = Some v -> p = (before_eq p ++ "=" ++ v)%string.
Proof.
  induction p as [|c p IH]; [discriminate|]. cbn [after_eq before_eq].
  destruct (Ascii.eqb_spec c "=") as [->|Hne].
  - intros [= ->]. reflexivity.
  - intros H. change (String c p = String c (before_eq p ++ "=" ++ v)).
    f_equal. apply IH. assumption.
Qed.

Lemma pair_name_spec (p : string) :
  pair_name p = match after_eq p with Some _ => before_eq p | None => EmptyString end.
Proof.
  unfold pair_name, JsString.indexOf, JsString.substring, JsString.clamp.
  rewrite indexOf_from_eq. destruct (after_eq p) as [v|] eqn:Hafter.
  - pose proof (eq_decompose p v Hafter) as Hp.
    assert (Hlen : String.length (before_eq p) <= String.length p).
    { rewrite Hp at 2. rewrite length_append. lia. }
    rewrite Z.add_0_l, Nat2Z.id. change (Z.to_nat 0) with 0.
    rewrite Nat.min_0_l, (Nat.min_l _ _ Hlen), Nat.min_0_l, Nat.max_0_l, Nat.sub_0_r.
    simpl JsString.drop. rewrite Hp at 2. apply take_app.
  - change (Z.to_nat (-1)) with 0. change (Z.to_nat 0) with 0.
    rewrite Nat.min_0_l. reflexivity.
Qed.

Lemma pair_value_spec (p : string) :
  pair_value p = match after_eq p with Some v => v | None => p end.
Proof.
  unfold pair_value, JsString.substring_from, JsString.indexOf,
    JsString.substring, JsString.clamp.
  rewrite indexOf_from_eq, Nat2Z.id, Nat.min_id.
  destruct (after_eq p) as [v|] eqn:Hafter.
  - pose proof (eq_decompose p v Hafter) as Hp.
    set (k := String.length (before_eq p)) in *.
    assert (Hlen : String.length p = k + 1 + String.length v).
    { rewrite Hp. rewrite !length_append. simpl. unfold k. lia. }
    replace (Z.to_nat (0 + Z.of_nat k + 1)) with (k + 1) by lia.
    rewrite (Nat.min_l (k + 1)) by lia.
    rewrite Nat.min_l, Nat.max_r by lia.
    replace (String.length p - (k + 1)) with (String.length v) by lia.
    assert (Hdrop : JsString.drop (k + 1) p = v).
    { rewrite Hp. replace (k + 1) with (String.length (before_eq p ++ "=")).
      - rewrite <- append_assoc. apply drop_app.
      - rewrite length_append. reflexivity. }
    rewrite Hdrop. apply take_all.
  - change (Z.to_nat (-1 + 1)) with 0.
    rewrite Nat.min_0_l, Nat.min_0_l, Nat.max_0_l, Nat.sub_0_r.
    simpl JsString.drop. apply take_all.
Qed.

(** Printing a pair from its name and value, and reading it again. *)
Lemma piece_of_pair (p : string) :
  (pair_name p ++ "=" ++ pair_value p)%string =
  match after_eq p with Some _ => p | None => String "=" p end.
Proof.
  rewrite pair_name_spec, pair_value_spec.
  destruct (after_eq p) as [v|] eqn:Hafter; [|reflexivity].
  symmetry. apply eq_decompose. assumption.
Qed.

Lemma piece_reads_back (p : string) :
  let piece := (pair_name p ++ "=" ++ pair_value p)%string in
  pair_name piece = pair_name p /\ pair_value piece = pair_value p.
Proof.
  cbv zeta. rewrite piece_of_pair.
  destruct (after_eq p) as [v|] eqn:Hafter; [auto|].
  rewrite !pair_name_spec, !pair_value_spec, Hafter. auto.
Qed.

Lemma piece_nosep (p : string) :
  nosep p = true -> nosep (pair_name p ++ "=" ++ pair_value p) = true.
Proof.
  intros Hp. rewrite piece_of_pair.
  destruct (after_eq p); [assumption|].
  cbn [nosep]. rewrite Hp, prefix_sep_cons. reflexivity.
Qed.

(** ** What the script keeps *)

Lemma seen_of_in (pairs : list string) (n v : string) :
  In (n, v) (FixCookies.seen_of pairs) ->
  exists p, In p pairs /\ n = pair_name p /\ v = pair_value p.
Proof.
  induction pairs as [|pair pairs IH] using List.rev_ind; [intros []|].
  rewrite seen_of_snoc, keep_first_spec.
  destruct (JsMap.has _ _).
  - intros Hin. destruct (IH Hin) as (p & Hp & Hn & Hv).
    exists p. split; [apply List.in_or_app; auto | auto].
  - intros Hin. apply List.in_app_or in Hin as [Hin|[[= <- <-]|[]]].
    + destruct (IH Hin) as (p & Hp & Hn & Hv).
      exists p. split; [apply List.in_or_app; auto | auto].
    + exists pair. split; [apply List.in_or_app; right; left; reflexivity | auto].
Qed.

(** With pairwise distinct names the script keeps every pair, in order. *)
Lemma seen_of_distinct (pairs : list string) :
  List.NoDup (List.map pair_name pairs) ->
  FixCookies.seen_of pairs = List.map (fun p => (pair_name p, pair_value p)) pairs.
Proof.
  induction pairs as [|pair pairs IH] using List.rev_ind; [reflexivity|].
  rewrite List.map_app. simpl. intros Hnd.
  rewrite seen_of_snoc, keep_first_spec, List.map_app. simpl.
  assert (Hfresh : ~ In (pair_name pair) (List.map pair_name pairs)).
  { apply List.NoDup_remove_2 in Hnd. rewrite List.app_nil_r in Hnd. exact Hnd. }
  apply List.NoDup_remove_1 in Hnd. rewrite List.app_nil_r in Hnd.
  assert (Hhas : JsMap.has (FixCookies.seen_of pairs) (pair_name pair) = false).
  { apply has_false_iff. intros Hin. apply Hfresh. apply seen_of_keys. exact Hin. }
  rewrite Hhas, (IH Hnd). reflexivity.
Qed.

Lemma seen_of_nonempty (pairs : list string) :
  pairs <> [] -> FixCookies.seen_of pairs <> [].
Proof.
  intros Hne Hnil. destruct pairs as [|p pairs]; [congruence|].
  destruct (seen_of_keys (p :: pairs)) as [_ Hin].
  assert (H : In (pair_name p) (JsMap.keys (FixCookies.seen_of (p :: pairs)))).
  { apply Hin. left. reflexivity. }
  rewrite Hnil in H. destruct H.
Qed.

(** Running the repair on its own result changes nothing. *)
Lemma dedupe_idempotent (cookies : string) :
  FixCookies.dedupe (FixCookies.dedupe cookies) = FixCookies.dedupe cookies.
Proof.
  unfold FixCookies.dedupe.
  set (pairs := JsString.split cookies "; ").
  set (seen := FixCookies.seen_of pairs).
  set (pieces := List.map (fun nv : string * string => (fst nv ++ "=" ++ snd nv)%string) seen).
  assert (Hprint : FixCookies.deduped_of seen = JsString.join "; " pieces) by reflexivity.
  assert (Hpairs : List.Forall (fun p => nosep p = true) pairs).
  { apply split_go_pieces_nosep. }
  assert (Hseen : forall n v, In (n, v) seen ->
            exists p, nosep p = true /\ n = pair_name p /\ v = pair_value p).
  { intros n v Hin. apply seen_of_in in Hin as (p & Hp & Hn & Hv).
    exists p. split; [|auto]. rewrite List.Forall_forall in Hpairs. auto. }
  assert (Hsplit : JsString.split (JsString.join "; " pieces) "; " = pieces).
  { apply split_join.
    - unfold pieces. intros Hnil. apply List.map_eq_nil in Hnil.
      revert Hnil. apply seen_of_nonempty. unfold pairs, JsString.split.
      apply split_go_nonempty.
    - unfold pieces. apply List.Forall_forall. intros piece Hin.
      apply List.in_map_iff in Hin as ([n v] & <- & Hin). cbn [fst snd].
      destruct (Hseen n v Hin) as (p & Hp & -> & ->). apply piece_nosep. assumption. }
  assert (Hread : List.map (fun p => (pair_name p, pair_value p)) pieces = seen).
  { unfold pieces. rewrite List.map_map.
    rewrite <- (List.map_id seen) at 2. apply List.map_ext_in.
    intros [n v] Hin. cbn [fst snd].
    destruct (Hseen n v Hin) as (p & _ & -> & ->).
    destruct (piece_reads_back p) as [-> ->]. reflexivity. }
  assert (Hnames : List.map pair_name pieces = JsMap.keys seen).
  { unfold JsMap.keys. rewrite <- Hread. rewrite List.map_map. reflexivity. }
  rewrite Hprint, Hsplit, seen_of_distinct, Hread; [exact Hprint|].
  rewrite Hnames. apply seen_of_keys.
Qed.

(** C10. When the pairs of a cookie string bear pairwise distinct names,
    the repair keeps every pair, in the same order, and the count after
    equals the count before; and for every cookie string, repairing the
    repaired string gives the same string. *)
Theorem C10_fixCookies_dedupe_idempotent :
  (forall cookies : string,
     let pairs := JsString.split cookies "; " in
     List.NoDup (List.map pair_name pairs) ->
     JsMap.entries (FixCookies.seen_of pairs)
       = List.map (fun p => (pair_name p, pair_value p)) pairs /\
     JsMap.size (FixCookies.seen_of pairs) = List.length pairs) /\
  (forall cookies : string,
     FixCookies.dedupe (FixCookies.dedupe cookies) = FixCookies.dedupe cookies).
Proof.
  split.
  - intros cookies pairs Hnd. pose proof (seen_of_distinct pairs Hnd) as Heq.
    split; [exact Heq|].
    unfold JsMap.size. rewrite Heq, List.length_map. reflexivity.
  - apply dedupe_idempotent.
Qed.

Lemma C10_witness :
  let cookies := "SID=a; HSID=b; token; k=v=w" in
  JsMap.entries (FixCookies.seen_of (JsString.split cookies "; "))
    = [("SID", "a"); ("HSID", "b"); (EmptyString, "token"); ("k", "v=w")] /\
  JsMap.size (FixCookies.seen_of (JsString.split cookies "; ")) = 4 /\
  FixCookies.dedupe (FixCookies.dedupe "SID=1; SID=2; HSID=x")
    = FixCookies.dedupe "SID=1; SID=2; HSID=x".
Proof.
  intros cookies.
  destruct C10_fixCookies_dedupe_idempotent as [Hdistinct Hidem].
  destruct (Hdistinct cookies) as [Hentries Hsize].
  - vm_compute. repeat constructor; simpl; intuition discriminate.
  - split; [exact Hentries|]. split; [exact Hsize | apply Hidem].
Defined.

(** ** Keeping the first of each key *)

Section FirstBy.
Context {A : Type} (key : A -> string).

Lemma filter_filter_comm (P Q : A -> bool) (l : list A) :
  List.filter P (List.filter Q l) = List.filter Q (List.filter P l).
Proof.
  induction l as [|x l IH]; [reflexivity|]. simpl.
  destruct (P x) eqn:HP, (Q x) eqn:HQ; simpl; rewrite ?HP, ?HQ, IH; reflexivity.
Qed.

Lemma filter_absorb (P Q : A -> bool) (l : list A) :
  (forall x, Q x = false -> P x = false) ->
  List.filter P (List.filter Q l) = List.filter P l.
Proof.
  intros H. induction l as [|x l IH]; [reflexivity|]. simpl.
  destruct (Q x) eqn:HQ; simpl; [rewrite IH; reflexivity|].
  rewrite (H x HQ). exact IH.
Qed.

Lemma first_by_filter (P : A -> bool) (l : list A) :
  (forall x y, key x = key y -> P x = P y) ->
  first_by key (List.filter P l) = List.filter P (first_by key l).
Proof.
  intros Hkey. induction l as [|x l IH]; [reflexivity|]. simpl.
  destruct (P x) eqn:HP; simpl.
  - rewrite IH. f_equal. apply filter_filter_comm.
  - rewrite IH. symmetry. apply filter_absorb.
    intros y Hy. apply negb_false_iff, String.eqb_eq in Hy.
    rewrite (Hkey y x Hy). exact HP.
Qed.

Lemma filter_existsb_snoc (acc : list A) (x : A) (l : list A) :
  List.filter
    (fun z => negb (List.existsb (fun y => String.eqb (key y) (key z)) (acc ++ [x]))) l
  = List.filter (fun z => negb (String.eqb (key z) (key x)))
      (List.filter
         (fun z => negb (List.existsb (fun y => String.eqb (key y) (key z)) acc)) l).
Proof.
  induction l as [|z l IH]; [reflexivity|]. simpl.
  rewrite List.existsb_app. simpl.
  rewrite orb_false_r, negb_orb, (String.eqb_sym (key x) (key z)).
  destruct (List.existsb (fun y => String.eqb (key y) (key z)) acc); simpl; [exact IH|].
  destruct (String.eqb (key z) (key x)); simpl; rewrite IH; reflexivity.
Qed.

Lemma fold_append_new (l acc : list A) :
  List.fold_left (append_new key) l acc =
  (acc ++ first_by key
            (List.filter
               (fun x => negb (List.existsb (fun y => String.eqb (key y) (key x)) acc)) l))%list.
Proof.
  revert acc. induction l as [|x l IH]; intros acc; simpl.
  - rewrite List.app_nil_r. reflexivity.
  - unfold append_new at 2.
    destruct (List.existsb (fun y => String.eqb (key y) (key x)) acc) eqn:Hin; simpl.
    + apply IH.
    + rewrite IH, <- List.app_assoc. simpl. do 2 f_equal.
      rewrite filter_existsb_snoc. apply first_by_filter.
      intros a b Hab. rewrite Hab. reflexivity.
Qed.

Lemma fold_append_new_nil (l : list A) :
  List.fold_left (append_new key) l [] = first_by key l.
Proof.
  rewrite fold_append_new. simpl. f_equal.
  induction l as [|x l IH]; [reflexivity|]. simpl. rewrite IH. reflexivity.
Qed.

Lemma first_by_keys_NoDup (l : list A) : List.NoDup (List.map key (first_by key l)).
Proof.
  induction l as [|x l IH]; simpl; [constructor|].
  constructor.
  - rewrite List.in_map_iff. intros (y & Hy & Hin).
    apply List.filter_In in Hin as [_ Hne].
    rewrite Hy, String.eqb_refl in Hne. discriminate.
  - clear - IH. induction (first_by key l) as [|y d IHd]; [constructor|].
    simpl in *. apply List.NoDup_cons_iff in IH as [Hy Hd].
    destruct (negb (String.eqb (key y) (key x))); [|auto].
    simpl. constructor; [|auto].
    intros Hin. apply Hy. apply List.in_map_iff in Hin as (z & Hz & Hin).
    apply List.filter_In in Hin as [Hin _]. apply List.in_map_iff. eauto.
Qed.

Lemma first_by_In (l : list A) (x : A) : In x (first_by key l) -> In x l.
Proof.
  induction l as [|y l IH]; simpl; [tauto|].
  intros [->|Hin]; [auto|]. apply List.filter_In in Hin as [Hin _]. auto.
Qed.

Lemma first_by_key_In (l : list A) (k : string) :
  In k (List.map key (first_by key l)) <-> In k (List.map key l).
Proof.
  induction l as [|y l IH]; simpl; [tauto|]. split.
  - intros [H|H]; [auto|]. right. apply IH.
    apply List.in_map_iff in H as (z & Hz & Hin).
    apply List.filter_In in Hin as [Hin _]. apply List.in_map_iff. eauto.
  - intros [H|H]; [auto|].
    destruct (String.eqb_spec (key y) k) as [Heq|Hne]; [auto|]. right.
    apply IH in H. apply List.in_map_iff in H as (z & Hz & Hin).
    apply List.in_map_iff. exists z. split; [assumption|].
    apply List.filter_In. split; [assumption|].
    apply negb_true_iff, String.eqb_neq. congruence.
Qed.

(** With pairwise distinct keys nothing is dropped. *)
Lemma first_by_NoDup (l : list A) : List.NoDup (List.map key l) -> first_by key l = l.
Proof.
  induction l as [|x l IH]; [reflexivity|]. simpl. intros Hnd.
  apply List.NoDup_cons_iff in Hnd as [Hx Hnd]. rewrite (IH Hnd). f_equal.
  clear IH Hnd. induction l as [|y l IHl]; [reflexivity|]. simpl in *.
  destruct (String.eqb_spec (key y) (key x)) as [Heq|Hne]; simpl.
  - exfalso. apply Hx. left. assumption.
  - rewrite IHl; [reflexivity | tauto].
Qed.

Lemma first_by_length (l : list A) : List.length (first_by key l) <= List.length l.
Proof.
  induction l as [|x l IH]; simpl; [lia|].
  pose proof (List.filter_length_le
                (fun y => negb (String.eqb (key y) (key x))) (first_by key l)). lia.
Qed.

(** Nothing is dropped only when the keys are pairwise distinct. *)
Lemma first_by_length_eq (l : list A) :
  List.length (first_by key l) = List.length l -> List.NoDup (List.map key l).
Proof.
  induction l as [|x l IH]; simpl; [constructor|]. intros Hlen.
  pose proof (first_by_length l) as Hle.
  pose proof (List.filter_length_le
                (fun y => negb (String.eqb (key y) (key x))) (first_by key l)) as Hf.
  assert (Hfull : List.length
                    (List.filter (fun y => negb (String.eqb (key y) (key x))) (first_by key l))
                  = List.length (first_by key l)) by lia.
  constructor; [|apply IH; lia].
  intros Hin. apply first_by_key_In in Hin.
  apply List.in_map_iff in Hin as (z & Hz & Hin).
  assert (Hall : forall d : list A,
            List.length (List.filter (fun y => negb (String.eqb (key y) (key x))) d)
            = List.length d ->
            forall y, In y d -> negb (String.eqb (key y) (key x)) = true).
  { clear. induction d as [|a d IHd]; simpl; [tauto|]. intros Hl y [->|Hy].
    - destruct (negb (String.eqb (key y) (key x))); [reflexivity|].
      pose proof (List.filter_length_le
                    (fun y => negb (String.eqb (key y) (key x))) d). lia.
    - apply IHd; [|assumption].
      destruct (negb (String.eqb (key a) (key x))); simpl in Hl; [lia|].
      pose proof (List.filter_length_le
                    (fun y => negb (String.eqb (key y) (key x))) d). lia. }
  specialize (Hall _ Hfull z Hin). rewrite Hz, String.eqb_refl in Hall. discriminate.
Qed.

End FirstBy.

(** ** The order of the entries *)

Lemma JsSet_has_existsb (s : JsSet.t) (x : string) :
  JsSet.has s x = List.existsb (fun y => String.eqb y x) s.
Proof.
  induction s as [|y s IH]; [reflexivity|]. simpl. rewrite IH.
  destruct (String.eqb y x); reflexivity.
Qed.

Lemma JsMap_has_existsb {V : Type} (m : JsMap.t V) (k : string) :
  JsMap.has m k = List.existsb (fun kv => String.eqb (fst kv) k) m.
Proof.
  induction m as [|[k' v] m IH]; [reflexivity|]. simpl. rewrite IH.
  destruct (String.eqb k' k); reflexivity.
Qed.

Lemma JsMap_has_keys {V : Type} (m : JsMap.t V) (k : string) :
  JsMap.has m k = JsSet.has (JsMap.keys m) k.
Proof.
  induction m as [|[k' v] m IH]; [reflexivity|]. simpl. rewrite IH. reflexivity.
Qed.

(** [new Set(xs)] lists the strings of [xs] in the order of their first
    occurrence. *)
Lemma of_list_dedup_first (xs : list string) : JsSet.of_list xs = dedup_first xs.
Proof.
  unfold JsSet.of_list, dedup_first. rewrite <- fold_append_new_nil.
  generalize (@nil string) as acc. induction xs as [|x xs IH]; intros acc; [reflexivity|].
  simpl. rewrite IH. f_equal.
  unfold JsSet.add, append_new. rewrite JsSet_has_existsb. reflexivity.
Qed.

Lemma keys_fold_set (cs : list Cookie) (m : JsMap.t string) :
  JsMap.keys (List.fold_left (fun m c => JsMap.set m (name c) (value c)) cs m)
  = List.fold_left (append_new (fun x => x)) (List.map name cs) (JsMap.keys m).
Proof.
  revert m. induction cs as [|c cs IH]; intros m; [reflexivity|].
  simpl. rewrite IH. f_equal.
  rewrite keys_set. unfold append_new.
  rewrite JsMap_has_keys, JsSet_has_existsb. reflexivity.
Qed.

Lemma cookieMap_of_keys (cs : list Cookie) :
  JsMap.keys (AuthManager.cookieMap_of cs) = dedup_first (List.map name cs).
Proof.
  unfold AuthManager.cookieMap_of. rewrite keys_fold_set.
  apply fold_append_new_nil.
Qed.

Lemma find_app_none {A : Type} (f : A -> bool) (l l' : list A) :
  (forall x, In x l -> f x = false) ->
  List.find f (l ++ l') = List.find f l'.
Proof.
  intros H. induction l as [|x l IH]; [reflexivity|]. simpl.
  rewrite (H x (or_introl eq_refl)). apply IH. intros y Hy. apply H. right. assumption.
Qed.

Lemma last_of_last_value (cs : list Cookie) (n : string) (c : Cookie) :
  last_of cs n c -> last_value cs n = Some (value c).
Proof.
  intros (before & after & -> & Hn & Hafter). unfold last_value.
  rewrite List.rev_app_distr. simpl. rewrite <- List.app_assoc.
  rewrite find_app_none.
  - simpl. rewrite Hn, String.eqb_refl. reflexivity.
  - intros x Hx. apply List.in_rev in Hx. apply String.eqb_neq. auto.
Qed.

Lemma entries_from_keys {V : Type} (m : list (string * V)) (f : string -> V) :
  (forall kv, In kv m -> snd kv = f (fst kv)) ->
  m = List.map (fun k => (k, f k)) (List.map fst m).
Proof.
  induction m as [|[k v] m IH]; [reflexivity|]. intros H. simpl.
  rewrite <- IH by (intros kv Hkv; apply H; right; assumption).
  f_equal. f_equal. apply (H (k, v)). left. reflexivity.
Qed.

(** X1. The cookie map [runAuthentication] builds lists the names in the
    order of their first occurrence among the cookies read, each once, with
    the value of the last cookie of that name. *)
Theorem X1_cookieMap_first_place_last_value (allCookies : list Cookie) :
  List.map (fun kv => (fst kv, Some (snd kv)))
    (JsMap.entries (AuthManager.cookieMap_of allCookies))
  = List.map (fun n => (n, last_value allCookies n))
      (dedup_first (List.map name allCookies)).
Proof.
  unfold JsMap.entries.
  set (m := AuthManager.cookieMap_of allCookies).
  set (wrapped := List.map (fun kv : string * string => (fst kv, Some (snd kv))) m).
  transitivity (List.map (fun k => (k, last_value allCookies k)) (List.map fst wrapped)).
  - apply entries_from_keys.
    intros kv Hin. apply List.in_map_iff in Hin as ([n v] & <- & Hin). simpl.
    apply (proj2 (cookieMap_of_spec allCookies)) in Hin as (c & Hlast & <-).
    symmetry. apply last_of_last_value. assumption.
  - f_equal. unfold wrapped. rewrite List.map_map. simpl.
    rewrite <- cookieMap_of_keys. reflexivity.
Qed.

(** ** The repair script, in general *)

Lemma fold_keep_first (pairs : list string) (acc : list (string * string)) :
  List.fold_left FixCookies.keep_first pairs acc
  = List.fold_left (append_new fst) (List.map read_pair pairs) acc.
Proof.
  revert acc. induction pairs as [|p pairs IH]; intros acc; [reflexivity|].
  simpl. rewrite IH. f_equal.
  rewrite keep_first_spec. unfold append_new, read_pair. simpl.
  rewrite JsMap_has_existsb. reflexivity.
Qed.

Lemma seen_of_first_wins (pairs : list string) :
  FixCookies.seen_of pairs = first_wins (List.map read_pair pairs).
Proof.
  unfold FixCookies.seen_of, first_wins, JsMap.empty.
  rewrite fold_keep_first. apply fold_append_new_nil.
Qed.

(** X2. For every cookie string the repair script keeps, in order, the
    pairs whose name did not occur in an earlier pair, and writes them back
    printed as name=value and joined by the separator; a pair without equals
    sign counts as a pair with the empty name. *)
Theorem X2_fixCookies_first_pair_of_each_name (cookies : string) :
  let pairs := JsString.split cookies "; " in
  JsMap.entries (FixCookies.seen_of pairs) = first_wins (List.map read_pair pairs) /\
  FixCookies.dedupe cookies
  = JsString.join "; " (List.map print_pair (first_wins (List.map read_pair pairs))) /\
  (forall pair, after_eq pair = None -> read_pair pair = (EmptyString, pair)) /\
  (forall pair v, after_eq pair = Some v -> read_pair pair = (before_eq pair, v)).
Proof.
  cbv zeta. split; [apply seen_of_first_wins|]. split.
  - unfold FixCookies.dedupe, FixCookies.deduped_of, JsMap.entries.
    rewrite seen_of_first_wins. reflexivity.
  - unfold read_pair. split.
    + intros pair H. rewrite pair_name_spec, pair_value_spec, H. reflexivity.
    + intros pair v H. rewrite pair_name_spec, pair_value_spec, H. reflexivity.
Qed.

(** X3. The count the repair script prints after is never above the count
    before, and the two are equal exactly when the names of the pairs are
    pairwise distinct. *)
Theorem X3_fixCookies_counts (cookies : string) :
  let pairs := JsString.split cookies "; " in
  JsMap.size (FixCookies.seen_of pairs) <= List.length pairs /\
  (JsMap.size (FixCookies.seen_of pairs) = List.length pairs <->
   List.NoDup (List.map pair_name pairs)).
Proof.
  cbv zeta. set (pairs := JsString.split cookies "; ").
  unfold JsMap.size. rewrite seen_of_first_wins. unfold first_wins.
  assert (Hnames : List.map fst (List.map read_pair pairs) = List.map pair_name pairs).
  { rewrite List.map_map. reflexivity. }
  split.
  - pose proof (first_by_length fst (List.map read_pair pairs)) as H.
    rewrite List.length_map in H. exact H.
  - split.
    + intros Hlen. rewrite <- Hnames. apply first_by_length_eq.
      rewrite List.length_map. exact Hlen.
    + intros Hnd. rewrite first_by_NoDup, List.length_map; [reflexivity|].
      rewrite Hnames. exact Hnd.
Qed.

(** ** The world after [runAuthentication] *)

Lemma mkdir_then_write_world (homedir : Path) (text : string) (w : World) :
  let p := AuthManager.authPath (AuthManager.new homedir) in
  can_save w p = true ->
  (let* present := fs.existsSync (path.dirname p) in
   (if negb present then fs.mkdirSync_recursive (path.dirname p) else ret tt);;
   fs.writeFileSync p text) w
  = (Returned tt, mkWorld (dirs_after w p) (<[p := text]> (files w))
                          (stderr w) (stdout w) (statuses w)).
Proof.
  intros p Hcan. exact (mkdir_then_write_under None homedir text w Hcan).
Qed.

Lemma extract_and_save_world (homedir : Path) (b : Browser) (now clock : Z) (w : World) :
  let self := AuthManager.new homedir in
  let cookieMap := cookieMap_at b now in
  can_save w (AuthManager.authPath self) = true ->
  AuthManager.extract_and_save self b now clock w =
  (Returned tt,
   mkWorld (dirs_after w (AuthManager.authPath self))
     (<[AuthManager.authPath self :=
          Json.stringify (AuthManager.authData (AuthManager.cookieString_of cookieMap) clock)]>
        (files w))
     (stderr w ++ report_lines self cookieMap)
     (stdout w)
     (statuses w ++ ["Extracting secure session cookies..."])).
Proof.
  intros self cookieMap Hcan.
  exact (extract_and_save_under_world no_faults homedir b now clock w Hcan).
Qed.

Lemma runAuthentication_world (homedir : Path) (b : Browser) (clock : Z)
    (w : World) (at_ms : Z) :
  AuthManager.wait_for_login b = Some (Fulfilled at_ms) ->
  can_save w (AuthManager.authPath (AuthManager.new homedir)) = true ->
  AuthManager.runAuthentication (AuthManager.new homedir) b clock w
  = (Returned tt, world_after_login homedir b clock w at_ms).
Proof.
  intros Hwait Hcan.
  unfold AuthManager.runAuthentication, AuthManager.runAuthentication_under.
  change (AuthManager.extract_and_save_under no_faults) with AuthManager.extract_and_save. rewrite Hwait.
  unfold bind at 1 2 3. unfold onStatus at 1 2 3. cbv beta iota.
  cbn [dirs files stderr stdout statuses].
  unfold world_after_login, statuses_after_login, statuses_before_wait, reading_instant.
  destruct (List.existsb AuthManager.is_session_cookie (jar b at_ms)); cbn [negb].
  - match goal with |- context [AuthManager.extract_and_save _ _ _ _ ?w0] =>
      rewrite (extract_and_save_world homedir b at_ms clock w0 Hcan)
    end.
    cbn [dirs files stderr stdout statuses]. unfold dirs_after, fs.is_dir.
    cbn [dirs]. rewrite <- !List.app_assoc. reflexivity.
  - unfold bind at 1. unfold onStatus at 1. cbv beta iota.
    cbn [dirs files stderr stdout statuses].
    match goal with |- context [AuthManager.extract_and_save _ _ _ _ ?w0] =>
      rewrite (extract_and_save_world homedir b (at_ms + 3000) clock w0 Hcan)
    end.
    cbn [dirs files stderr stdout statuses]. unfold dirs_after, fs.is_dir.
    cbn [dirs]. rewrite <- !List.app_assoc. reflexivity.
Qed.

(** ** What [runAuthentication] leaves behind *)

Lemma get_cookies_pure (data : Json.value) (w : World) :
  get_cookies data w = (fst (get_cookies data empty_world), w).
Proof. destruct data; reflexivity. Qed.

Lemma getSavedCookies_unfold (self : AuthManager.t) (w : World) :
  AuthManager.getSavedCookies self w =
  (if negb (fs.is_dir w (AuthManager.authPath self)
            || fs.is_file w (AuthManager.authPath self))
   then Threw AuthManager.NotAuthenticated
   else match files w !! AuthManager.authPath self with
        | Some text =>
            match Json.parse text with
            | Some data => fst (get_cookies data empty_world)
            | None => Threw ParseFailure
            end
        | None => Threw (SystemError "EISDIR")
        end,
   w).
Proof.
  unfold AuthManager.getSavedCookies, bind, fs.existsSync.
  destruct (fs.is_dir w (AuthManager.authPath self)) eqn:Hdir; cbn [orb negb].
  - unfold fs.readFileSync.
    destruct (files w !! AuthManager.authPath self) as [text|] eqn:Hfile.
    + unfold JSON_parse. destruct (Json.parse text) as [data|]; [|reflexivity].
      unfold ret. apply get_cookies_pure.
    + rewrite Hdir. reflexivity.
  - unfold fs.is_file.
    destruct (files w !! AuthManager.authPath self) as [text|] eqn:Hfile;
      cbn [negb]; [|reflexivity].
    unfold fs.readFileSync. rewrite Hfile.
    unfold JSON_parse. destruct (Json.parse text) as [data|]; [|reflexivity].
    unfold ret. apply get_cookies_pure.
Qed.

Lemma getSavedCookies_disk (self : AuthManager.t) (w1 w2 : World) :
  dirs w1 = dirs w2 -> files w1 = files w2 ->
  fst (AuthManager.getSavedCookies self w1) = fst (AuthManager.getSavedCookies self w2).
Proof.
  intros Hd Hf. rewrite !getSavedCookies_unfold. unfold fs.is_dir, fs.is_file.
  cbn [fst]. rewrite Hd, Hf. reflexivity.
Qed.

(** X4. When no login signal comes within the timeout, [runAuthentication]
    throws after reporting the three statuses that precede the wait, and has
    written nothing: directories, files and console are as before, and a
    session saved earlier is read back as before. *)
Theorem X4_timeout_leaves_the_store_untouched (homedir : Path) (b : Browser)
    (clock : Z) (w : World) :
  let self := AuthManager.new homedir in
  no_signal_within b ->
  AuthManager.runAuthentication self b clock w
  = (Threw AuthManager.AuthenticationTimeout,
     mkWorld (dirs w) (files w) (stderr w) (stdout w)
             (statuses w ++ statuses_before_wait)) /\
  fst (AuthManager.getSavedCookies self
         (snd (AuthManager.runAuthentication self b clock w)))
  = fst (AuthManager.getSavedCookies self w).
Proof.
  intros self Hnone.
  assert (Hrun : AuthManager.runAuthentication self b clock w
    = (Threw AuthManager.AuthenticationTimeout,
       mkWorld (dirs w) (files w) (stderr w) (stdout w)
               (statuses w ++ statuses_before_wait))).
  { unfold AuthManager.runAuthentication, AuthManager.runAuthentication_under.
  change (AuthManager.extract_and_save_under no_faults) with AuthManager.extract_and_save.
    rewrite (wait_for_login_times_out b Hnone).
    unfold bind, onStatus, throw, statuses_before_wait. simpl.
    rewrite <- !List.app_assoc. reflexivity. }
  split; [exact Hrun|]. rewrite Hrun. apply getSavedCookies_disk; reflexivity.
Qed.

Lemma X4_witness :
  let b := mkBrowser None (Some 400000%Z) None (fun _ => [])
             (fun _ => "https://accounts.google.com/signin") in
  let self := AuthManager.new ["home"; "user"] in
  let w := mkWorld {[ ["home"; "user"; ".notebooklm-mcp"] ]}
             {[ AuthManager.authPath self :=
                  Json.stringify [("cookies", "SID=old"); ("updatedAt", "then")] ]}
             [] [] [] in
  fst (AuthManager.getSavedCookies self
         (snd (AuthManager.runAuthentication self b 0%Z w)))
  = Returned (Some (Json.JString "SID=old")).
Proof.
  intros b self w.
  destruct (X4_timeout_leaves_the_store_untouched ["home"; "user"] b 0%Z w) as [_ Hload].
  - unfold no_signal_within. simpl. repeat split; try discriminate.
    intros t [= <-]. unfold AuthManager.timeout. lia.
  - fold self in Hload. rewrite Hload. vm_compute. reflexivity.
Defined.

(** Where the saving can stop: before the write is reached, with every file
    as it was, or at the write and after it, with the record replaced by
    what the disk took. *)
Lemma save_cases (faults : Faults) (p : Path) (text line : string) (w : World) :
  let r := (let* present := fs.existsSync (path.dirname p) in
            (if negb present then fs.mkdirSync_recursive (path.dirname p) else ret tt);;
            fs.writeFileSync_under (write_breaks faults) p text;;
            console_error line;;
            AuthManager.browser_close faults) w in
  (files (snd r) = files w /\ fst r <> Returned tt) \/
  (files (snd r) = <[p := written (write_breaks faults) text]> (files w) /\
   fst r = save_outcome faults text).
Proof.
  cbv zeta.
  unfold AuthManager.browser_close, save_outcome, write_outcome, written,
    bind, console_error, ret, throw,
    fs.existsSync, fs.mkdirSync_recursive, fs.writeFileSync_under, fs.is_dir, fs.is_file.
  destruct faults as [[[n code]|] [message|]]; cbn [write_breaks close_rejects];
    destruct (bool_decide (path.dirname p ∈ dirs w)
              || match files w !! path.dirname p with Some _ => true | None => false end);
    cbn [negb dirs files stderr stdout statuses fst snd];
    repeat match goal with
           | |- context [if ?c then _ else _] =>
               destruct c; cbn [dirs files stderr stdout statuses fst snd]
           end;
    first [ left; split; [reflexivity | discriminate]
          | right; split; reflexivity ].
Qed.

(** Before it turns to the disk, the saving has printed its lines and has
    left the disk as it was. *)
Lemma extract_and_save_under_tail (faults : Faults) (self : AuthManager.t)
    (b : Browser) (now clock : Z) (w : World) :
  exists w3,
    files w3 = files w /\
    AuthManager.extract_and_save_under faults self b now clock w
    = (let* present := fs.existsSync (path.dirname (AuthManager.authPath self)) in
       (if negb present
        then fs.mkdirSync_recursive (path.dirname (AuthManager.authPath self))
        else ret tt);;
       fs.writeFileSync_under (write_breaks faults) (AuthManager.authPath self)
         (record_text b now clock);;
       console_error ("Authentication successful! Cookies saved to "
                      ++ path.to_string (AuthManager.authPath self));;
       AuthManager.browser_close faults) w3.
Proof.
  unfold AuthManager.extract_and_save_under, record_text, cookieMap_at.
  unfold bind at 1. unfold onStatus at 1. cbv beta iota.
  unfold bind at 1.
  match goal with
  | |- context [(if ?c then console_error ?l else ret tt) ?w1] =>
      assert (Hwarn : exists w2, files w2 = files w /\
                (if c then console_error l else ret tt) w1 = (Returned tt, w2))
        by (destruct c; eexists; (split; [|reflexivity]); reflexivity)
  end.
  destruct Hwarn as (w2 & Hfiles2 & ->). cbv beta iota.
  unfold bind at 1. unfold console_error at 1. cbv beta iota.
  eexists. split; [|reflexivity]. exact Hfiles2.
Qed.

Lemma extract_and_save_under_cases (faults : Faults) (self : AuthManager.t)
    (b : Browser) (now clock : Z) (w : World) :
  let r := AuthManager.extract_and_save_under faults self b now clock w in
  let text := record_text b now clock in
  (files (snd r) = files w /\ fst r <> Returned tt) \/
  (files (snd r)
   = <[AuthManager.authPath self := written (write_breaks faults) text]> (files w) /\
   fst r = save_outcome faults text).
Proof.
  destruct (extract_and_save_under_tail faults self b now clock w) as (w3 & Hfiles & ->).
  rewrite <- Hfiles. apply save_cases.
Qed.

(** After a login seen at [at_ms] the run is the saving, at the instant of
    the reading, on a world that differs from the first by the statuses. *)
Lemma runAuthentication_under_fulfilled (faults : Faults) (self : AuthManager.t)
    (b : Browser) (clock : Z) (w : World) (at_ms : Z) :
  AuthManager.wait_for_login b = Some (Fulfilled at_ms) ->
  exists w0,
    files w0 = files w /\ dirs w0 = dirs w /\
    AuthManager.runAuthentication_under faults self b clock w
    = AuthManager.extract_and_save_under faults self b (reading_instant b at_ms) clock w0.
Proof.
  intros Hwait. unfold AuthManager.runAuthentication_under. rewrite Hwait.
  unfold bind at 1 2 3. unfold onStatus at 1 2 3. cbv beta iota.
  unfold reading_instant.
  destruct (List.existsb AuthManager.is_session_cookie (jar b at_ms)); cbn [negb].
  - eexists. split; [|split; [|reflexivity]]; reflexivity.
  - unfold bind at 1. unfold onStatus at 1. cbv beta iota.
    eexists. split; [|split; [|reflexivity]]; reflexivity.
Qed.

Lemma runAuthentication_under_cases (faults : Faults) (self : AuthManager.t)
    (b : Browser) (clock : Z) (w : World) :
  let r := AuthManager.runAuthentication_under faults self b clock w in
  (files (snd r) = files w /\ fst r <> Returned tt) \/
  (exists at_ms,
     AuthManager.wait_for_login b = Some (Fulfilled at_ms) /\
     files (snd r)
     = <[AuthManager.authPath self :=
           written (write_breaks faults)
             (record_text b (reading_instant b at_ms) clock)]> (files w) /\
     fst r = save_outcome faults (record_text b (reading_instant b at_ms) clock)).
Proof.
  cbv zeta.
  destruct (AuthManager.wait_for_login b) as [[at_ms|at_ms]|] eqn:Hwait.
  - destruct (runAuthentication_under_fulfilled faults self b clock w at_ms Hwait)
      as (w0 & Hfiles & _ & ->).
    destruct (extract_and_save_under_cases faults self b
                (reading_instant b at_ms) clock w0) as [[Hf Ho]|[Hf Ho]].
    + left. rewrite <- Hfiles. split; assumption.
    + right. exists at_ms. rewrite <- Hfiles. split; [reflexivity|]. split; assumption.
  - left. unfold AuthManager.runAuthentication_under. rewrite Hwait.
    split; [reflexivity | discriminate].
  - left. unfold AuthManager.runAuthentication_under. rewrite Hwait.
    split; [reflexivity | discriminate].
Qed.

(** X5. A run of [runAuthentication] never touches a file other than the
    record.  When it does not return, the record is as it was, with two
    exceptions: the write of the record broke off, and the record now holds
    only the part of the new text that the disk took, the saved session
    being lost; or the record was written whole and the closing of the
    browser failed, and [getSavedCookies()] returns the new cookie string
    although the run threw.  On a platform that does neither, a run that
    does not return leaves every file as it was. *)
Theorem X5_failed_acquisition_and_the_record (faults : Faults) (homedir : Path)
    (b : Browser) (clock : Z) (w : World) :
  let self := AuthManager.new homedir in
  let result := AuthManager.runAuthentication_under faults self b clock w in
  (forall q, q <> AuthManager.authPath self ->
             files (snd result) !! q = files w !! q) /\
  (fst result <> Returned tt ->
   files (snd result) = files w \/
   (exists at_ms n code,
      AuthManager.wait_for_login b = Some (Fulfilled at_ms) /\
      write_breaks faults = Some (n, code) /\
      n < String.length (record_text b (reading_instant b at_ms) clock) /\
      fst result = Threw (SystemError code) /\
      files (snd result)
      = <[AuthManager.authPath self :=
            JsString.take n (record_text b (reading_instant b at_ms) clock)]>
          (files w)) \/
   (exists at_ms message,
      AuthManager.wait_for_login b = Some (Fulfilled at_ms) /\
      close_rejects faults = Some message /\
      fst result = Threw (Error message) /\
      AuthManager.getSavedCookies self (snd result)
      = (Returned (Some (Json.JString
           (AuthManager.cookieString_of (cookieMap_at b (reading_instant b at_ms))))),
         snd result))) /\
  (write_breaks faults = None -> close_rejects faults = None ->
   fst result <> Returned tt -> files (snd result) = files w).
Proof.
  intros self result.
  destruct (runAuthentication_under_cases faults self b clock w)
    as [[Hfiles Hout]|(at_ms & Hwait & Hfiles & Hout)]; fold result in Hfiles, Hout.
  - split; [|split].
    + intros q _. rewrite Hfiles. reflexivity.
    + intros _. left. assumption.
    + intros _ _ _. assumption.
  - split; [|split].
    + intros q Hq. rewrite Hfiles. apply lookup_insert_ne. congruence.
    + intros Hfail. right.
      unfold save_outcome, write_outcome in Hout. unfold written in Hfiles.
      destruct (write_breaks faults) as [[n code]|] eqn:Hbreaks.
      * destruct (n <? String.length _) eqn:Hn.
        -- left. exists at_ms, n, code. apply Nat.ltb_lt in Hn. auto.
        -- destruct (close_rejects faults) as [message|] eqn:Hclose; [|contradiction].
           right. exists at_ms, message. repeat split; try assumption; try reflexivity.
           rewrite (getSavedCookies_of_record self (snd result)
                      (AuthManager.authData
                         (AuthManager.cookieString_of
                            (cookieMap_at b (reading_instant b at_ms))) clock));
             [reflexivity|].
           rewrite Hfiles. apply lookup_insert_eq.
      * destruct (close_rejects faults) as [message|] eqn:Hclose; [|contradiction].
        right. exists at_ms, message. repeat split; try assumption; try reflexivity.
        rewrite (getSavedCookies_of_record self (snd result)
                   (AuthManager.authData
                      (AuthManager.cookieString_of
                         (cookieMap_at b (reading_instant b at_ms))) clock));
          [reflexivity|].
        rewrite Hfiles. apply lookup_insert_eq.
    + intros Hbreaks Hclose Hfail. exfalso. apply Hfail. rewrite Hout.
      unfold save_outcome, write_outcome. rewrite Hbreaks, Hclose. reflexivity.
Qed.

(** A login is seen and the cookies are read; the disk is full, and the
    write of the record breaks off at once.  The run throws the error of the
    disk, the session that was saved is gone, and the other file is as it
    was. *)
Lemma X5_witness :
  let b := mkBrowser (Some 10%Z) None None
             (fun _ => [mkCookie "SID" "new" ".google.com" "/" true])
             (fun _ => "https://notebooklm.google.com/") in
  let self := AuthManager.new ["home"; "user"] in
  let w := mkWorld {[ ["home"; "user"; ".notebooklm-mcp"] ]}
             {[ AuthManager.authPath self :=
                  Json.stringify [("cookies", "SID=old"); ("updatedAt", "then")];
                ["keep"] := "me" ]}
             [] [] [] in
  let result :=
    AuthManager.runAuthentication_under (mkFaults (Some (0, "ENOSPC")) None)
      self b 0%Z w in
  fst result = Threw (SystemError "ENOSPC") /\
  files (snd result) !! ["keep"] = Some "me" /\
  files (snd result) !! AuthManager.authPath self = Some EmptyString /\
  fst (AuthManager.getSavedCookies self w) = Returned (Some (Json.JString "SID=old")) /\
  fst (AuthManager.getSavedCookies self (snd result)) = Threw ParseFailure.
Proof.
  intros b self w result.
  destruct (X5_failed_acquisition_and_the_record
              (mkFaults (Some (0, "ENOSPC")) None) ["home"; "user"] b 0%Z w)
    as (Helse & Hfail & _).
  split; [vm_compute; reflexivity|].
  split.
  { etransitivity; [exact (Helse ["keep"] ltac:(discriminate)) | reflexivity]. }
  assert (Hthrew : fst result <> Returned tt) by (vm_compute; discriminate).
  destruct (Hfail Hthrew)
    as [Hsame|[(at_ms & n & code & _ & Hbreaks & _ & _ & Hfiles)
              |(at_ms & message & _ & Hclose & _)]].
  - exfalso. apply (f_equal (fun m => m !! AuthManager.authPath self)) in Hsame.
    vm_compute in Hsame. discriminate.
  - split; [vm_compute; reflexivity|].
    split; vm_compute; reflexivity.
  - discriminate Hclose.
Defined.

(** X6. After a login that was seen, on a disk where the record can be
    written, [runAuthentication] returns and has written one file only, the
    record: every other file is as before, no directory is lost and the
    directory of the record exists, nothing
    goes to the standard output, the statuses are reported in the order of
    the code, and the record now reads back as the new cookie string
    whatever was saved before. *)
Theorem X6_acquisition_writes_only_the_record (homedir : Path) (b : Browser)
    (clock : Z) (w : World) (at_ms : Z) :
  let self := AuthManager.new homedir in
  let cookieString :=
    AuthManager.cookieString_of (cookieMap_at b (reading_instant b at_ms)) in
  let result := AuthManager.runAuthentication self b clock w in
  AuthManager.wait_for_login b = Some (Fulfilled at_ms) ->
  can_save w (AuthManager.authPath self) = true ->
  fst result = Returned tt /\
  (forall p, p <> AuthManager.authPath self ->
             files (snd result) !! p = files w !! p) /\
  dirs w ⊆ dirs (snd result) /\
  fs.is_dir (snd result) (path.dirname (AuthManager.authPath self)) = true /\
  stdout (snd result) = stdout w /\
  statuses (snd result)
  = (statuses w ++ statuses_before_wait ++ statuses_after_login b at_ms)%list /\
  AuthManager.getSavedCookies self (snd result)
  = (Returned (Some (Json.JString cookieString)), snd result).
Proof.
  intros self cookieString result Hwait Hcan.
  unfold result, self. rewrite (runAuthentication_world homedir b clock w at_ms Hwait Hcan).
  unfold world_after_login. cbn [fst snd dirs files stdout statuses].
  split; [reflexivity|].
  split; [|split; [|split; [|split; [reflexivity|split; [reflexivity|]]]]].
  - intros p Hp. apply lookup_insert_ne. congruence.
  - unfold dirs_after. destruct (fs.is_dir w _); [reflexivity | apply union_subseteq_l].
  - unfold dirs_after, fs.is_dir. cbn [dirs].
    destruct (bool_decide (path.dirname _ ∈ dirs w)) eqn:Hd; [exact Hd|].
    apply bool_decide_eq_true. apply elem_of_union. right.
    apply elem_of_list_to_set, list_elem_of_In. apply chain_self.
    rewrite dirname_new. destruct homedir; discriminate.
  - match goal with |- AuthManager.getSavedCookies ?s ?w0 = _ =>
      rewrite (getSavedCookies_of_record s w0
                 (AuthManager.authData
                    (AuthManager.cookieString_of (cookieMap_at b (reading_instant b at_ms)))
                    clock))
    end; [reflexivity|]. cbn [files]. apply lookup_insert_eq.
Qed.

Lemma X6_witness :
  let b := mkBrowser (Some 10%Z) None None
             (fun _ => [mkCookie "SID" "new" ".google.com" "/" true])
             (fun _ => "https://notebooklm.google.com/") in
  let self := AuthManager.new ["home"; "user"] in
  let w := mkWorld {[ ["home"; "user"; ".notebooklm-mcp"] ]}
             {[ AuthManager.authPath self :=
                  Json.stringify [("cookies", "SID=old"); ("updatedAt", "then")];
                ["home"; "user"; "notes.txt"] := "kept" ]}
             [] [] [] in
  let result := AuthManager.runAuthentication self b 0%Z w in
  files (snd result) !! ["home"; "user"; "notes.txt"] = Some "kept" /\
  AuthManager.getSavedCookies self (snd result)
  = (Returned (Some (Json.JString "SID=new")), snd result).
Proof.
  intros b self w result.
  destruct (X6_acquisition_writes_only_the_record ["home"; "user"] b 0%Z w 0%Z)
    as (_ & Hother & _ & _ & _ & _ & Hload).
  - vm_compute. reflexivity.
  - vm_compute. reflexivity.
  - split.
    + unfold result, self. rewrite Hother; [vm_compute; reflexivity | discriminate].
    + exact Hload.
Defined.

Lemma missingCookies_of_nil (cookieMap : JsMap.t string) :
  (forall n, In n AuthManager.REQUIRED_COOKIES -> In n (JsMap.keys cookieMap)) ->
  AuthManager.missingCookies_of cookieMap = [].
Proof.
  intros Hall.
  destruct (AuthManager.missingCookies_of cookieMap) as [|m ms] eqn:Hmiss; [reflexivity|].
  assert (Hin : In m (AuthManager.missingCookies_of cookieMap)).
  { rewrite Hmiss. left. reflexivity. }
  apply missingCookies_of_spec in Hin as [Hreq Habsent].
  exfalso. apply Habsent, Hall, Hreq.
Qed.

(** X7. When the five required names are all in the cookie map extracted
    after a login, [runAuthentication] prints no warning: it adds to
    [console.error] the line with the number of cookies and the line of
    success, and nothing else. *)
Theorem X7_no_warning_when_required_cookies_present (homedir : Path) (b : Browser)
    (clock : Z) (w : World) (at_ms : Z) :
  let self := AuthManager.new homedir in
  let cookieMap := cookieMap_at b (reading_instant b at_ms) in
  AuthManager.wait_for_login b = Some (Fulfilled at_ms) ->
  can_save w (AuthManager.authPath self) = true ->
  (forall n, In n AuthManager.REQUIRED_COOKIES -> In n (JsMap.keys cookieMap)) ->
  stderr (snd (AuthManager.runAuthentication self b clock w))
  = (stderr w
     ++ [("Extracted " ++ JsString.of_nat (JsMap.size cookieMap)
          ++ " unique cookies for notebooklm.google.com")%string;
         ("Authentication successful! Cookies saved to "
          ++ path.to_string (AuthManager.authPath self))%string])%list.
Proof.
  intros self cookieMap Hwait Hcan Hall.
  unfold self. rewrite (runAuthentication_world homedir b clock w at_ms Hwait Hcan).
  unfold world_after_login, report_lines. cbn [snd stderr].
  fold cookieMap. rewrite (missingCookies_of_nil cookieMap Hall). reflexivity.
Qed.

Lemma X7_witness :
  let b := mkBrowser (Some 10%Z) None None
             (fun _ => [mkCookie "SID" "1" ".google.com" "/" true;
                        mkCookie "HSID" "2" ".google.com" "/" true;
                        mkCookie "SSID" "3" ".google.com" "/" true;
                        mkCookie "APISID" "4" ".google.com" "/" true;
                        mkCookie "SAPISID" "5" ".google.com" "/" true])
             (fun _ => "https://notebooklm.google.com/") in
  stderr (snd (AuthManager.runAuthentication (AuthManager.new ["home"; "user"]) b 0%Z
                 empty_world))
  = ["Extracted 5 unique cookies for notebooklm.google.com";
     "Authentication successful! Cookies saved to /home/user/.notebooklm-mcp/auth.json"].
Proof.
  intros b.
  rewrite (X7_no_warning_when_required_cookies_present ["home"; "user"] b 0%Z
             empty_world 0%Z).
  - vm_compute. reflexivity.
  - vm_compute. reflexivity.
  - vm_compute. reflexivity.
  - vm_compute. intros n H. intuition (subst; auto).
Defined.

(** ** The first signal wins *)

Lemma Promise_race_least (l : list (option Settlement)) (s : Settlement) :
  AuthManager.Promise_race l = Some s ->
  In (Some s) l /\
  forall a, In (Some a) l -> (AuthManager.settled_at s <= AuthManager.settled_at a)%Z.
Proof.
  revert s. induction l as [|p l IH]; intros s; simpl; [discriminate|].
  destruct p as [a|].
  - destruct (AuthManager.Promise_race l) as [r|] eqn:Hr.
    + intros [= <-]. destruct (IH r eq_refl) as [Hin Hleast].
      unfold AuthManager.first_of.
      destruct (Z.ltb_spec (AuthManager.settled_at r) (AuthManager.settled_at a)).
      * split; [right; assumption|]. intros x [[= <-]|Hx]; [lia | auto].
      * split; [left; reflexivity|]. intros x [[= <-]|Hx]; [lia|].
        specialize (Hleast x Hx). lia.
    + intros [= <-]. split; [left; reflexivity|].
      intros x [[= <-]|Hx]; [lia|]. exfalso.
      clear IH. induction l as [|q l IHl]; [destruct Hx|]. simpl in Hr.
      destruct q as [y|].
      * destruct (AuthManager.Promise_race l); discriminate.
      * destruct Hx as [Hx|Hx]; [discriminate | auto].
  - intros Hs. destruct (IH s Hs) as [Hin Hleast].
    split; [right; assumption|]. intros x [Hx|Hx]; [discriminate | auto].
Qed.

Lemma waitFor_rejected (timeout : Z) (ready : option Z) (t : Z) :
  AuthManager.waitFor timeout ready = Rejected t -> t = timeout.
Proof.
  unfold AuthManager.waitFor. destruct ready as [r|]; [|congruence].
  destruct (r <? timeout)%Z; congruence.
Qed.

Lemma waitFor_ready (timeout t : Z) :
  (t < timeout)%Z -> AuthManager.waitFor timeout (Some t) = Fulfilled t.
Proof.
  intros H. unfold AuthManager.waitFor.
  destruct (Z.ltb_spec t timeout); [reflexivity | lia].
Qed.

(** A pass at which the check succeeds is reached with its promise
    fulfilled no later, unless the flag was set no later. *)
Lemma checkLoop_reaches (b : Browser) (ws : list Settlement) (fuel k : nat) (t0 : Z) :
  k < fuel ->
  AuthManager.cookie_check b (t0 + 2000 * Z.of_nat k) = true ->
  (exists t, AuthManager.checkLoop b ws fuel t0 = Some (Fulfilled t) /\
             (t <= t0 + 2000 * Z.of_nat k)%Z) \/
  (exists t, (t <= t0 + 2000 * Z.of_nat k)%Z /\ AuthManager.isDone ws t = true).
Proof.
  revert k t0. induction fuel as [|fuel IH]; intros k t0 Hk Hcheck; [lia|].
  simpl. destruct (AuthManager.isDone ws t0) eqn:Hdone.
  - right. exists t0. split; [lia | assumption].
  - destruct (AuthManager.cookie_check b t0) eqn:Hc0.
    + left. exists t0. split; [reflexivity | lia].
    + destruct k as [|k].
      * rewrite Z.mul_0_r, Z.add_0_r in Hcheck. congruence.
      * replace (t0 + 2000 * Z.of_nat (S k))%Z
          with ((t0 + 2000) + 2000 * Z.of_nat k)%Z in * by lia.
        apply (IH k (t0 + 2000)%Z); [lia | assumption].
Qed.

Lemma isDone_true (ws : list Settlement) (t : Z) :
  AuthManager.isDone ws t = true ->
  exists a, In a ws /\ (AuthManager.settled_at a <= t)%Z.
Proof.
  unfold AuthManager.isDone. intros H.
  apply List.existsb_exists in H as (a & Hin & Hle).
  exists a. split; [assumption | apply Z.leb_le; assumption].
Qed.

Lemma login_seen (b : Browser) (t : Z) :
  (t < AuthManager.timeout)%Z -> signal_at b t ->
  exists t', AuthManager.wait_for_login b = Some (Fulfilled t') /\ (t' <= t)%Z.
Proof.
  intros Ht Hsig.
  destruct (wait_for_login_bounded b) as (s & Hs & _).
  pose proof Hs as Hrace. unfold AuthManager.wait_for_login in Hrace.
  apply Promise_race_least in Hrace as [Hin Hleast].
  assert (Hwaits : forall a, In a (AuthManager.waits b) ->
                             (AuthManager.settled_at s <= AuthManager.settled_at a)%Z).
  { intros a Ha. apply Hleast. apply List.in_or_app. left.
    apply List.in_map. assumption. }
  assert (Hearly : (AuthManager.settled_at s <= t)%Z).
  { destruct Hsig as [Hr|[Hr|[Hr|(k & Hk & Hcheck)]]].
    - specialize (Hwaits (AuthManager.waitFor AuthManager.timeout (url_ready b))).
      rewrite Hr, (waitFor_ready _ _ Ht) in Hwaits. apply Hwaits. simpl.
      unfold AuthManager.waits. rewrite Hr, (waitFor_ready _ _ Ht). left. reflexivity.
    - specialize (Hwaits (AuthManager.waitFor AuthManager.timeout (main_ready b))).
      rewrite Hr, (waitFor_ready _ _ Ht) in Hwaits. apply Hwaits. simpl.
      unfold AuthManager.waits. rewrite Hr, (waitFor_ready _ _ Ht).
      right. left. reflexivity.
    - specialize (Hwaits (AuthManager.waitFor AuthManager.timeout (account_ready b))).
      rewrite Hr, (waitFor_ready _ _ Ht) in Hwaits. apply Hwaits. simpl.
      unfold AuthManager.waits. rewrite Hr, (waitFor_ready _ _ Ht).
      right. right. left. reflexivity.
    - assert (Hfuel : k < AuthManager.passes).
      { assert (Hp : AuthManager.passes = 152) by reflexivity.
        unfold AuthManager.timeout in Ht. lia. }
      rewrite Hk in Hcheck.
      destruct (checkLoop_reaches b (AuthManager.waits b) AuthManager.passes k 0
                  Hfuel Hcheck) as [(t1 & Hloop & Hle)|(t1 & Hle & Hdone)].
      + assert (Hl : (AuthManager.settled_at s <= AuthManager.settled_at (Fulfilled t1))%Z).
        { apply Hleast. apply List.in_or_app. right. left. assumption. }
        simpl in Hl. lia.
      + apply isDone_true in Hdone as (a & Ha & Hale).
        specialize (Hwaits a Ha). lia. }
  destruct s as [t'|t'].
  - exists t'. split; [assumption | exact Hearly].
  - exfalso. simpl in Hearly.
    apply List.in_app_or in Hin as [Hin|[Hin|[]]].
    + apply List.in_map_iff in Hin as (a & [= Ha] & Hin). subst a.
      unfold AuthManager.waits in Hin. simpl in Hin.
      destruct Hin as [H|[H|[H|[]]]]; apply waitFor_rejected in H; lia.
    + apply checkLoop_Some in Hin as (t1 & [=] & _).
Qed.

(** X8. The first login signal wins: when a signal comes at an instant
    before the timeout, the race of [runAuthentication] is fulfilled, at
    that instant or earlier, and on a disk where the record can be written
    [runAuthentication] returns instead of throwing. *)
Theorem X8_first_login_signal_wins (homedir : Path) (b : Browser) (clock : Z)
    (w : World) (t : Z) :
  (t < AuthManager.timeout)%Z ->
  signal_at b t ->
  (exists t', AuthManager.wait_for_login b = Some (Fulfilled t') /\ (t' <= t)%Z) /\
  (can_save w (AuthManager.authPath (AuthManager.new homedir)) = true ->
   fst (AuthManager.runAuthentication (AuthManager.new homedir) b clock w) = Returned tt).
Proof.
  intros Ht Hsig. destruct (login_seen b t Ht Hsig) as (t' & Hwait & Hle).
  split; [eauto|]. intros Hcan.
  rewrite (runAuthentication_world homedir b clock w t' Hwait Hcan). reflexivity.
Qed.

(** The account menu shows after 90 s; the session cookie is seen by the
    pass of [checkLoop] at 4 s. *)
Lemma X8_witness :
  let b := mkBrowser None None (Some 90000%Z)
             (fun t => if (t <? 3500)%Z then []
                       else [mkCookie "SID" "s" ".google.com" "/" true])
             (fun _ => "https://notebooklm.google.com/") in
  AuthManager.wait_for_login b = Some (Fulfilled 4000%Z) /\
  fst (AuthManager.runAuthentication (AuthManager.new ["home"; "user"]) b 0%Z empty_world)
  = Returned tt.
Proof.
  intros b.
  destruct (X8_first_login_signal_wins ["home"; "user"] b 0%Z empty_world 4000%Z)
    as [_ Hrun].
  - reflexivity.
  - right. right. right. exists 2. split; reflexivity.
  - split; [vm_compute; reflexivity|]. apply Hrun. vm_compute. reflexivity.
Defined.

(** ** Reading the record *)






(** ** The repair script as a whole *)








(** ** The saved cookie string, read again *)

Lemma nosep_print (n v : string) :
  nosep n = true -> nosep v = true -> nosep (print_pair (n, v)) = true.
Proof.
  unfold print_pair. cbn [fst snd]. intros Hn Hv.
  induction n as [|c n IH].
  - cbn [String.append nosep]. rewrite Hv, prefix_sep_cons. reflexivity.
  - cbn [nosep] in Hn. apply andb_true_iff in Hn as [Hpre Hn].
    change (String c n ++ "=" ++ v)%string with (String c (n ++ "=" ++ v)).
    cbn [nosep]. rewrite (IH Hn), andb_true_r.
    rewrite prefix_sep_cons in *.
    destruct (Ascii.eqb c ";"); [|reflexivity]. simpl in *.
    destruct n as [|d n]; [reflexivity | exact Hpre].
Qed.

Lemma eq_print (n v : string) :
  after_eq n = None ->
  after_eq (print_pair (n, v)) = Some v /\ before_eq (print_pair (n, v)) = n.
Proof.
  unfold print_pair. cbn [fst snd]. intros Hn.
  induction n as [|c n IH]; [split; reflexivity|].
  cbn [after_eq] in Hn.
  change (String c n ++ "=" ++ v)%string with (String c (n ++ "=" ++ v)).
  cbn [after_eq before_eq].
  destruct (Ascii.eqb c "="); [discriminate|].
  destruct (IH Hn) as [-> ->]. split; reflexivity.
Qed.

Lemma read_print (n v : string) :
  after_eq n = None -> read_pair (print_pair (n, v)) = (n, v).
Proof.
  intros Hn. destruct (eq_print n v Hn) as [Ha Hb].
  unfold read_pair. rewrite pair_name_spec, pair_value_spec, Ha, Hb. reflexivity.
Qed.

Lemma split_go_eq_nonempty (s : string) : JsString.split_go "=" 0 s <> [].
Proof.
  induction s as [|c s IH]; cbn [JsString.split_go]; [discriminate|].
  destruct (String.prefix "=" (String c s)); [discriminate|].
  destruct (JsString.split_go "=" 0 s); [congruence | simpl; discriminate].
Qed.

(** The first field of a split on the equals sign is what stands before the
    first equals sign, the whole string when there is none. *)
Lemma first_field_before_eq (p : string) : TestAuth.first_field p = before_eq p.
Proof.
  unfold TestAuth.first_field, JsString.split.
  induction p as [|c p IH]; [reflexivity|].
  cbn [JsString.split_go before_eq]. rewrite prefix_eq_cons.
  destruct (Ascii.eqb c "="); [reflexivity|].
  pose proof (split_go_eq_nonempty p) as Hne.
  destruct (JsString.split_go "=" 0 p) as [|x xs]; [congruence|].
  simpl in *. rewrite IH. reflexivity.
Qed.

Lemma cookieMap_entries_plain (allCookies : list Cookie) (n v : string) :
  List.Forall (fun c => plain_cookie c = true) allCookies ->
  In (n, v) (AuthManager.cookieMap_of allCookies) ->
  nosep n = true /\ nosep v = true /\ after_eq n = None.
Proof.
  intros Hall Hin.
  apply (proj2 (cookieMap_of_spec allCookies)) in Hin
    as (c & (before & after & Heq & Hn & _) & Hv).
  rewrite List.Forall_forall in Hall.
  assert (Hc : plain_cookie c = true).
  { apply Hall. rewrite Heq. apply List.in_or_app. right. left. reflexivity. }
  unfold plain_cookie in Hc. rewrite Hn, Hv in Hc.
  apply andb_true_iff in Hc as [Hc Heqn]. apply andb_true_iff in Hc as [Hsn Hsv].
  destruct (after_eq n); [discriminate | auto].
Qed.

Lemma cookieMap_of_nonempty (allCookies : list Cookie) :
  allCookies <> [] -> AuthManager.cookieMap_of allCookies <> [].
Proof.
  intros Hne Hnil. destruct allCookies as [|c cs]; [congruence|].
  pose proof (cookieMap_of_keys (c :: cs)) as Hkeys.
  rewrite Hnil in Hkeys. discriminate.
Qed.

(** The pieces of the saved cookie string are the printed entries. *)
Lemma cookieString_split (allCookies : list Cookie) :
  List.Forall (fun c => plain_cookie c = true) allCookies ->
  allCookies <> [] ->
  JsString.split (AuthManager.cookieString_of (AuthManager.cookieMap_of allCookies)) "; "
  = List.map print_pair (AuthManager.cookieMap_of allCookies).
Proof.
  intros Hall Hne. unfold AuthManager.cookieString_of, JsMap.entries.
  change (fun nv : string * string => (fst nv ++ "=" ++ snd nv)%string) with print_pair.
  apply split_join.
  - intros Hnil. apply List.map_eq_nil in Hnil.
    exact (cookieMap_of_nonempty allCookies Hne Hnil).
  - apply List.Forall_forall. intros piece Hin.
    apply List.in_map_iff in Hin as ([n v] & <- & Hin).
    destruct (cookieMap_entries_plain allCookies n v Hall Hin) as (Hn & Hv & _).
    apply nosep_print; assumption.
Qed.

Lemma map_read_print (allCookies : list Cookie) :
  List.Forall (fun c => plain_cookie c = true) allCookies ->
  List.map read_pair (List.map print_pair (AuthManager.cookieMap_of allCookies))
  = AuthManager.cookieMap_of allCookies.
Proof.
  intros Hall. rewrite List.map_map.
  rewrite <- (List.map_id (AuthManager.cookieMap_of allCookies)) at 2.
  apply List.map_ext_in. intros [n v] Hin.
  destruct (cookieMap_entries_plain allCookies n v Hall Hin) as (_ & _ & Heq).
  apply read_print. assumption.
Qed.

(** X12. When the cookies read after a login are plain (no separator in
    names and values, no equals sign in names) and there is at least one, the
    cookie string [runAuthentication] saves reads back, pair by pair as the
    repair script reads it, into the entries of the cookie map, and the
    repair script leaves it as it is. *)
Theorem X12_saved_cookie_string_reads_back (allCookies : list Cookie) :
  let cookieMap := AuthManager.cookieMap_of allCookies in
  let cookieString := AuthManager.cookieString_of cookieMap in
  List.Forall (fun c => plain_cookie c = true) allCookies ->
  allCookies <> [] ->
  List.map read_pair (JsString.split cookieString "; ") = JsMap.entries cookieMap /\
  FixCookies.dedupe cookieString = cookieString.
Proof.
  intros cookieMap cookieString Hall Hne.
  assert (Hread : List.map read_pair (JsString.split cookieString "; ") = cookieMap).
  { unfold cookieString, cookieMap. rewrite (cookieString_split _ Hall Hne).
    apply map_read_print. assumption. }
  split; [exact Hread|].
  unfold FixCookies.dedupe. rewrite seen_of_first_wins, Hread.
  unfold first_wins. rewrite first_by_NoDup; [reflexivity|].
  apply (proj1 (cookieMap_of_spec allCookies)).
Qed.

Lemma X12_witness :
  let allCookies := [mkCookie "SID" "1" ".google.com" "/" true;
                     mkCookie "OSID" "a=b" "notebooklm.google.com" "/" true;
                     mkCookie "SID" "2" "notebooklm.google.com" "/" true] in
  FixCookies.dedupe "SID=2; OSID=a=b" = "SID=2; OSID=a=b" /\
  FixCookies.dedupe EmptyString = "=".
Proof.
  intros allCookies.
  destruct (X12_saved_cookie_string_reads_back allCookies) as [_ Hidle].
  - repeat constructor.
  - discriminate.
  - split; [exact Hidle | reflexivity].
Defined.

(** ** The diagnostic script *)

Lemma names_of_before_eq (cookies : string) :
  TestAuth.names_of cookies = List.map before_eq (JsString.split cookies "; ").
Proof.
  unfold TestAuth.names_of. apply List.map_ext. apply first_field_before_eq.
Qed.

Lemma has_duplicates_spec (names : list string) :
  TestAuth.has_duplicates names = true <-> ~ List.NoDup names.
Proof.
  unfold TestAuth.has_duplicates, JsSet.size.
  rewrite of_list_dedup_first, negb_true_iff, Nat.eqb_neq. unfold dedup_first.
  split.
  - intros Hlen Hnd. apply Hlen. rewrite first_by_NoDup; [reflexivity|].
    rewrite List.map_id. assumption.
  - intros Hdup Hlen. apply Hdup.
    rewrite <- (List.map_id names). apply first_by_length_eq. symmetry. assumption.
Qed.

Lemma JsSet_has_In (s : JsSet.t) (x : string) : JsSet.has s x = true <-> In x s.
Proof.
  rewrite JsSet_has_existsb, List.existsb_exists. split.
  - intros (y & Hy & Heq). apply String.eqb_eq in Heq. subst. assumption.
  - intros Hin. exists x. split; [assumption | apply String.eqb_refl].
Qed.

Lemma missing_of_spec (names : list string) (r : string) :
  In r (TestAuth.missing_of names) <-> In r TestAuth.REQUIRED /\ ~ In r names.
Proof.
  unfold TestAuth.missing_of. rewrite List.filter_In, negb_true_iff.
  rewrite <- not_true_iff_false, JsSet_has_In, of_list_dedup_first.
  unfold dedup_first.
  rewrite <- (List.map_id (first_by (fun x => x) names)), first_by_key_In, List.map_id.
  reflexivity.
Qed.

(** X13. The diagnostic script takes as the name of a pair what stands
    before its first equals sign, the whole pair when it has none; it
    reports duplicates exactly when two pairs have the same name, and it
    reports as missing exactly the required names that no pair has. *)
Theorem X13_diagnostic_checks (cookies : string) :
  let names := TestAuth.names_of cookies in
  names = List.map before_eq (JsString.split cookies "; ") /\
  (TestAuth.has_duplicates names = true <-> ~ List.NoDup names) /\
  (forall r, In r (TestAuth.missing_of names) <->
             In r TestAuth.REQUIRED /\ ~ In r names).
Proof.
  cbv zeta. split; [apply names_of_before_eq|]. split.
  - apply has_duplicates_spec.
  - apply missing_of_spec.
Qed.

Lemma has_duplicates_NoDup (names : list string) :
  List.NoDup names -> TestAuth.has_duplicates names = false.
Proof.
  intros Hnd. apply not_true_iff_false. rewrite has_duplicates_spec. tauto.
Qed.

Lemma after_eq_before_eq (p : string) : after_eq (before_eq p) = None.
Proof.
  induction p as [|c p IH]; [reflexivity|]. cbn [before_eq].
  destruct (Ascii.eqb c "=") eqn:Hc; [reflexivity|].
  cbn [after_eq]. rewrite Hc. exact IH.
Qed.

Lemma after_eq_pair_name (p : string) : after_eq (pair_name p) = None.
Proof.
  rewrite pair_name_spec. destruct (after_eq p); [apply after_eq_before_eq | reflexivity].
Qed.

(** The pieces of the repaired string are the kept pairs, printed. *)
Lemma dedupe_split (cookies : string) :
  JsString.split (FixCookies.dedupe cookies) "; "
  = List.map print_pair (FixCookies.seen_of (JsString.split cookies "; ")).
Proof.
  unfold FixCookies.dedupe, FixCookies.deduped_of, JsMap.entries.
  change (fun nv : string * string => (fst nv ++ "=" ++ snd nv)%string) with print_pair.
  set (pairs := JsString.split cookies "; ").
  assert (Hpairs : List.Forall (fun p => nosep p = true) pairs).
  { apply split_go_pieces_nosep. }
  apply split_join.
  - intros Hnil. apply List.map_eq_nil in Hnil. revert Hnil.
    apply seen_of_nonempty. unfold pairs, JsString.split. apply split_go_nonempty.
  - apply List.Forall_forall. intros piece Hin.
    apply List.in_map_iff in Hin as ([n v] & <- & Hin).
    apply seen_of_in in Hin as (p & Hp & -> & ->).
    unfold print_pair. cbn [fst snd]. apply piece_nosep.
    rewrite List.Forall_forall in Hpairs. auto.
Qed.

Lemma names_of_printed (m : list (string * string)) (s : string) :
  JsString.split s "; " = List.map print_pair m ->
  (forall n v, In (n, v) m -> after_eq n = None) ->
  TestAuth.names_of s = List.map fst m.
Proof.
  intros Hsplit Hplain. rewrite names_of_before_eq, Hsplit, List.map_map.
  apply List.map_ext_in. intros [n v] Hin.
  apply (eq_print n v). exact (Hplain n v Hin).
Qed.

(** X14. On the cookie string the repair script writes, whatever the
    string it read, the diagnostic script finds the names the repair kept and
    no duplicate.  On the cookie string [runAuthentication] saves from plain
    cookies, the diagnostic script finds the names of the cookie map, no
    duplicate, and the same missing required names as the warning of
    [runAuthentication]. *)
Theorem X14_diagnostic_after_repair_and_after_login :
  (forall cookies : string,
     let repaired := FixCookies.dedupe cookies in
     TestAuth.names_of repaired
     = JsMap.keys (FixCookies.seen_of (JsString.split cookies "; ")) /\
     TestAuth.has_duplicates (TestAuth.names_of repaired) = false) /\
  (forall allCookies : list Cookie,
     let cookieMap := AuthManager.cookieMap_of allCookies in
     let names := TestAuth.names_of (AuthManager.cookieString_of cookieMap) in
     List.Forall (fun c => plain_cookie c = true) allCookies ->
     (allCookies <> [] -> names = JsMap.keys cookieMap) /\
     TestAuth.has_duplicates names = false /\
     TestAuth.missing_of names = AuthManager.missingCookies_of cookieMap).
Proof.
  split.
  - intros cookies repaired.
    assert (Hnames : TestAuth.names_of repaired
                     = JsMap.keys (FixCookies.seen_of (JsString.split cookies "; "))).
    { apply (names_of_printed _ _ (dedupe_split cookies)).
      intros n v Hin. apply seen_of_in in Hin as (p & _ & -> & _).
      apply after_eq_pair_name. }
    split; [exact Hnames|]. rewrite Hnames.
    apply has_duplicates_NoDup. apply seen_of_keys.
  - intros allCookies cookieMap names Hall.
    destruct allCookies as [|c cs].
    + split; [congruence|]. split; reflexivity.
    + assert (Hne : c :: cs <> []) by discriminate.
      assert (Hnames : names = JsMap.keys cookieMap).
      { apply (names_of_printed _ _ (cookieString_split _ Hall Hne)).
        intros n v Hin. apply (cookieMap_entries_plain _ n v Hall Hin). }
      split; [auto|]. rewrite Hnames. split.
      * apply has_duplicates_NoDup. apply (proj1 (cookieMap_of_spec (c :: cs))).
      * unfold TestAuth.missing_of, AuthManager.missingCookies_of.
        apply List.filter_ext. intros r. f_equal.
        rewrite JsMap_has_keys, of_list_dedup_first. unfold dedup_first.
        rewrite first_by_NoDup; [reflexivity|].
        rewrite List.map_id. apply (proj1 (cookieMap_of_spec (c :: cs))).
Qed.

Lemma X14_witness :
  TestAuth.has_duplicates (TestAuth.names_of (FixCookies.dedupe "SID=1; SID=2; tok")) = false /\
  TestAuth.missing_of
    (TestAuth.names_of
       (AuthManager.cookieString_of
          (AuthManager.cookieMap_of [mkCookie "SID" "1" ".google.com" "/" true;
                                     mkCookie "HSID" "2" ".google.com" "/" true])))
  = ["SSID"; "APISID"; "SAPISID"].
Proof.
  destruct X14_diagnostic_after_repair_and_after_login as [Hrepair Hlogin].
  split.
  - apply Hrepair.
  - destruct (Hlogin [mkCookie "SID" "1" ".google.com" "/" true;
                      mkCookie "HSID" "2" ".google.com" "/" true]) as (_ & _ & ->).
    + repeat constructor.
    + reflexivity.
Defined.

(** ** The plugin that strips shebangs *)

Lemma prefix_nil (s : string) : String.prefix EmptyString s = true.
Proof. destruct s; reflexivity. Qed.

Lemma startsWith_shebang (text : string) :
  JsText.startsWith (String "#" (String "!" text)) "#!" = true.
Proof.
  unfold JsText.startsWith.
  change (String.prefix "#!" (String "#" (String "!" text)))
    with (String.prefix EmptyString text).
  apply prefix_nil.
Qed.

Lemma after_first_line_newline (line rest : string) :
  single_line line = true ->
  Build.after_first_line (line ++ String Json.newline rest) = Some rest.
Proof.
  induction line as [|c line IH]; [reflexivity|]. cbn [single_line].
  intros H. apply andb_true_iff in H as [Hc Hline]. apply negb_true_iff in Hc.
  change (String c line ++ String Json.newline rest)%string
    with (String c (line ++ String Json.newline rest)).
  cbn [Build.after_first_line]. rewrite Hc. apply IH. assumption.
Qed.

Lemma after_first_line_return (line rest : string) :
  single_line line = true ->
  Build.after_first_line (line ++ String carriage_return rest) = None.
Proof.
  induction line as [|c line IH]; [reflexivity|]. cbn [single_line].
  intros H. apply andb_true_iff in H as [Hc Hline]. apply negb_true_iff in Hc.
  change (String c line ++ String carriage_return rest)%string
    with (String c (line ++ String carriage_return rest)).
  cbn [Build.after_first_line]. rewrite Hc. apply IH. assumption.
Qed.

Lemma after_first_line_end (line : string) :
  single_line line = true -> Build.after_first_line line = None.
Proof.
  induction line as [|c line IH]; [reflexivity|]. cbn [single_line].
  intros H. apply andb_true_iff in H as [Hc Hline]. apply negb_true_iff in Hc.
  cbn [Build.after_first_line]. rewrite Hc. apply IH. assumption.
Qed.

Lemma endsWith_exclusive (path : string) :
  JsText.endsWith path ".ts" = true -> JsText.endsWith path ".js" = false.
Proof.
  unfold JsText.endsWith. intros H. apply andb_true_iff in H as [_ H].
  apply String.eqb_eq in H. simpl String.length in *. rewrite H.
  apply andb_false_r.
Qed.

(** X15. The plugin leaves alone a file that does not start with a
    shebang.  From a file that does, it removes the first line when that
    line ends with a line feed; when the first line ends with a carriage
    return, or is the whole file, the text is handed on unchanged, shebang
    included.  A file that passes the filter is loaded as TypeScript when
    its path ends with .ts and as JavaScript when it ends with .js. *)
Theorem X15_strip_shebang (path : string) :
  let loader := if JsText.endsWith path ".ts" then Build.ts else Build.js in
  (forall source, Build.onLoad path source = None <->
                  JsText.startsWith source "#!" = false) /\
  (forall line rest, single_line line = true ->
     Build.onLoad path ("#!" ++ line ++ String Json.newline rest) = Some (rest, loader)) /\
  (forall line rest, single_line line = true ->
     Build.onLoad path ("#!" ++ line ++ String carriage_return rest)
     = Some (("#!" ++ line ++ String carriage_return rest)%string, loader)) /\
  (forall line, single_line line = true ->
     Build.onLoad path ("#!" ++ line) = Some (("#!" ++ line)%string, loader)) /\
  (Build.filter path = true ->
   (loader = Build.ts <-> JsText.endsWith path ".ts" = true) /\
   (loader = Build.js <-> JsText.endsWith path ".js" = true)).
Proof.
  cbv zeta. split; [|split; [|split; [|split]]].
  - intros source. unfold Build.onLoad.
    destruct (JsText.startsWith source "#!"); split; congruence.
  - intros line rest Hline. unfold Build.onLoad.
    change ("#!" ++ line ++ String Json.newline rest)%string
      with (String "#" (String "!" (line ++ String Json.newline rest))).
    rewrite startsWith_shebang. cbn [Build.strip_shebang_line].
    change (Ascii.eqb "#" "#" && Ascii.eqb "!" "!") with true. cbv iota.
    rewrite (after_first_line_newline _ _ Hline). reflexivity.
  - intros line rest Hline. unfold Build.onLoad.
    change ("#!" ++ line ++ String carriage_return rest)%string
      with (String "#" (String "!" (line ++ String carriage_return rest))).
    rewrite startsWith_shebang. cbn [Build.strip_shebang_line].
    change (Ascii.eqb "#" "#" && Ascii.eqb "!" "!") with true. cbv iota.
    rewrite (after_first_line_return _ _ Hline). reflexivity.
  - intros line Hline. unfold Build.onLoad.
    change ("#!" ++ line)%string with (String "#" (String "!" line)).
    rewrite startsWith_shebang. cbn [Build.strip_shebang_line].
    change (Ascii.eqb "#" "#" && Ascii.eqb "!" "!") with true. cbv iota.
    rewrite (after_first_line_end _ Hline). reflexivity.
  - unfold Build.filter. intros Hfilter.
    destruct (JsText.endsWith path ".ts") eqn:Hts.
    + rewrite (endsWith_exclusive _ Hts). split; split; congruence.
    + simpl in Hfilter. rewrite Hfilter. split; split; congruence.
Qed.

Lemma X15_witness :
  Build.onLoad "src/index.ts" ("#!" ++ "/usr/bin/env node" ++ String Json.newline "import x;")
  = Some ("import x;", Build.ts) /\
  Build.onLoad "src/index.ts"
    ("#!" ++ "/usr/bin/env node" ++ String carriage_return (String Json.newline "import x;"))
  = Some (("#!" ++ "/usr/bin/env node"
           ++ String carriage_return (String Json.newline "import x;"))%string, Build.ts).
Proof.
  destruct (X15_strip_shebang "src/index.ts") as (_ & Hlf & Hcr & _ & _).
  split; [apply Hlf | apply Hcr]; reflexivity.
Defined.

(** ** The update check *)

(** X16. [checkForUpdates] never throws, whatever fails on its way.  Its
    promise never resolves exactly when an update was found, installed and
    the process relaunched; in every other case it resolves.  An update is
    found as soon as the two versions differ, in either direction. *)
Theorem X16_checkForUpdates_never_throws (chalk : Updater.Chalk) (env : Updater.Env)
    (silentStart : bool) (w : World) :
  let result := Updater.checkForUpdates chalk env silentStart w in
  (forall e, fst result <> Threw e) /\
  (fst result = Hangs <->
   update_found env = true /\ Updater.install_ok env = true /\ Updater.spawn_ok env = true) /\
  (fst result <> Hangs -> fst result = Returned tt) /\
  (forall current latest,
     Updater.pkg_version env = Some (Some current) ->
     Updater.latest_version env = Some (Some latest) ->
     (update_found env = true <-> latest <> current)).
Proof.
  cbv zeta. unfold Updater.checkForUpdates, update_found, Updater.update_and_relaunch.
  destruct env as [[current|] [latest|] install spawn]; cbn [Updater.pkg_version
    Updater.latest_version Updater.install_ok Updater.spawn_ok].
  - split; [|split; [|split]].
    + intros e. unfold bind, console_error, ret, hang.
      destruct silentStart, (Updater.strict_neq latest current), install, spawn;
        simpl; discriminate.
    + unfold bind, console_error, ret, hang.
      destruct silentStart, (Updater.strict_neq latest current), install, spawn;
        simpl; split; try discriminate; try tauto;
        intros (H1 & H2 & H3); discriminate.
    + unfold bind, console_error, ret, hang.
      destruct silentStart, (Updater.strict_neq latest current), install, spawn;
        simpl; intros H; try reflexivity; exfalso; apply H; reflexivity.
    + intros c l [= ->] [= ->]. unfold Updater.strict_neq.
      rewrite negb_true_iff, String.eqb_neq. reflexivity.
  - split; [|split; [|split]].
    + intros e. unfold bind, console_error, ret. destruct silentStart; simpl; discriminate.
    + unfold bind, console_error, ret. destruct silentStart; simpl;
        split; try discriminate; intros (H & _); discriminate.
    + unfold bind, console_error, ret. destruct silentStart; reflexivity.
    + intros c l _ [=].
  - split; [|split; [|split]].
    + discriminate.
    + split; [discriminate | intros (H & _); discriminate].
    + reflexivity.
    + intros c l [=].
  - split; [|split; [|split]].
    + discriminate.
    + split; [discriminate | intros (H & _); discriminate].
    + reflexivity.
    + intros c l [=].
Qed.

(** The registry holds an older version than the one installed. *)
Lemma X16_witness :
  let chalk := Updater.mkChalk (fun s => s) (fun s => s) (fun s => s) (fun s => s) (fun s => s) in
  let env := Updater.mkEnv (Some (Some "2.0.0")) (Some (Some "1.9.0")) true true in
  fst (Updater.checkForUpdates chalk env true empty_world) = Hangs.
Proof.
  intros chalk env.
  apply (proj1 (proj2 (X16_checkForUpdates_never_throws chalk env true empty_world))).
  repeat split.
Defined.

(** X17. With [silentStart] the check prints nothing unless an update is
    found.  When an update is found and the install or the relaunch fails,
    the check still resolves, and the last line on [console.error] is the
    message that asks for a manual restart. *)
Theorem X17_checkForUpdates_quiet_and_failing (chalk : Updater.Chalk) (env : Updater.Env)
    (silentStart : bool) (w : World) :
  let result := Updater.checkForUpdates chalk env silentStart w in
  (silentStart = true -> update_found env = false -> result = (Returned tt, w)) /\
  (update_found env = true ->
   Updater.install_ok env = false \/ Updater.spawn_ok env = false ->
   fst result = Returned tt /\
   exists before,
     stderr (snd result)
     = (before ++ [Updater.red chalk Updater.msg_update_failed])%list).
Proof.
  cbv zeta. unfold Updater.checkForUpdates, update_found, Updater.update_and_relaunch.
  destruct env as [[current|] [latest|] install spawn]; cbn [Updater.pkg_version
    Updater.latest_version Updater.install_ok Updater.spawn_ok].
  - split.
    + intros -> Hsame. rewrite Hsame. reflexivity.
    + intros Hdiff Hfail. rewrite Hdiff.
      unfold bind, console_error, ret, hang.
      destruct silentStart, install, spawn; simpl;
        try (destruct Hfail; discriminate);
        (split; [reflexivity | eexists; rewrite ?List.app_assoc; reflexivity]).
  - split.
    + intros -> _. reflexivity.
    + discriminate.
  - split; [reflexivity | discriminate].
  - split; [reflexivity | discriminate].
Qed.

Lemma X17_witness :
  let chalk := Updater.mkChalk (fun s => s) (fun s => s) (fun s => s) (fun s => s) (fun s => s) in
  Updater.checkForUpdates chalk (Updater.mkEnv (Some (Some "1.0.0")) None true true)
    true empty_world = (Returned tt, empty_world) /\
  fst (Updater.checkForUpdates chalk
         (Updater.mkEnv (Some (Some "1.0.0")) (Some (Some "1.0.1")) false true)
         true empty_world) = Returned tt.
Proof.
  intros chalk. split.
  - apply (X17_checkForUpdates_quiet_and_failing chalk _ true empty_world); reflexivity.
  - apply (X17_checkForUpdates_quiet_and_failing chalk _ true empty_world);
      [reflexivity | left; reflexivity].
Defined.
